(** * PowerPlatformService: the authenticated-request layer

    A shallow embedding of [src/PowerPlatformService.ts] (the class
    [PowerPlatformService]) and of the call made by the [query-records]
    tool handler of the server, followed by the properties of the
    credential cache, of the request primitive and of the path-building
    operations.  The server around the class (the configuration read from
    the environment, [getPowerPlatformService] and the tool handlers) is
    embedded after it, with further properties at the end.

    Conventions of the embedding.
    - A JavaScript string is the list of its UTF-16 code units.
    - [Date.now()] and [Date.prototype.getTime()] are integers (milliseconds).
    - An [async] function is a value of [Task]: a tree of the effects it
      performs, suspended at each [await] of a network operation.  A tree is
      run either alone against an environment ([run]) or together with a
      second one under a schedule of network completions ([promise_all]). *)

From Stdlib Require Import ZArith NArith List String Ascii Bool Lia.
From Stdlib Require Import DecimalString DecimalZ.
Import ListNotations.
Open Scope Z_scope.
Open Scope list_scope.

(* ================================================================= *)
(** ** JavaScript values *)

(** A string value: its UTF-16 code units. *)
Definition jsstring : Type := list N.

(** A source-code literal (ASCII text) as a string value. *)
Definition js (s : string) : jsstring :=
  map N_of_ascii (list_ascii_of_string s).

(** An [Error] object: [name] and [message]. *)
Record JsError : Type := mkJsError {
  err_name : jsstring;
  err_message : jsstring
}.

(** [new Error(message)] *)
Definition Error (message : jsstring) : JsError :=
  {| err_name := js "Error"; err_message := message |}.

(** [new URIError(message)] *)
Definition URIError (message : jsstring) : JsError :=
  {| err_name := js "URIError"; err_message := message |}.

(** [Error.prototype.toString], which a template literal applies to an
    interpolated error. *)
Definition error_toString (e : JsError) : jsstring :=
  match err_name e, err_message e with
  | [], msg => msg
  | name, [] => name
  | name, msg => name ++ js ": " ++ msg
  end.

(** A settled computation: a value, or a thrown error. *)
Inductive Result (A : Type) : Type :=
| Ok (a : A)
| Err (e : JsError).
Arguments Ok {A} a.
Arguments Err {A} e.

(** The numbers the row cap is given here: an integer, or one of the two
    other values of type [number] that are falsy, [-0] and [NaN].  Fractions
    and the infinities are left out.  An integer stands for a number of the
    language when its magnitude is at most 2^53: up to there every integer
    is a number, beyond not every one is. *)
Inductive jsnumber : Type :=
| Int (z : Z)
| NegZero
| NaN.

Definition number_truthy (n : jsnumber) : bool :=
  match n with
  | Int z => negb (z =? 0)
  | NegZero => false
  | NaN => false
  end.

(** [Number.prototype.toString]: the decimal digits of an integer, with
    its sign.  This is what the language writes for the integers of
    magnitude at most 2^53 ([exact_number] below); a larger number is
    written with the fewest digits that tell it apart, and from 1e21 on with
    an exponent, which is not modelled. *)
Definition number_toString (n : jsnumber) : jsstring :=
  match n with
  | Int z => js (NilZero.string_of_int (Z.to_int z))
  | NegZero => js "0"
  | NaN => js "NaN"
  end.

(** A parsed JSON document (the [any] of a response body). *)
#[warnings="-register-all"]
Inductive Json : Type :=
| JNull
| JBool (b : bool)
| JNumber (n : Z)
| JString (s : jsstring)
| JArray (items : list Json)
| JObject (members : list (jsstring * Json)).

(* ================================================================= *)
(** ** [encodeURIComponent] (ECMA-262, Encode with the component set) *)

Definition in_range (lo hi c : N) : bool := ((lo <=? c) && (c <=? hi))%N.

(** The characters left as they are: ASCII letters and digits and
    [- _ . ! ~ * ' ( )]. *)
Definition uri_unescaped (c : N) : bool :=
  in_range 65 90 c || in_range 97 122 c || in_range 48 57 c
  || existsb (N.eqb c) (js "-_.!~*'()").

Definition is_leading_surrogate (c : N) : bool := in_range 55296 56319 c.
Definition is_trailing_surrogate (c : N) : bool := in_range 56320 57343 c.

Definition surrogate_pair_to_code_point (lead trail : N) : N :=
  ((lead - 55296) * 1024 + (trail - 56320) + 65536)%N.

(** The UTF-8 octets of a code point. *)
Definition utf8_octets (cp : N) : list N :=
  (if cp <? 128 then [cp]
   else if cp <? 2048 then
     [192 + N.shiftr cp 6; 128 + N.land cp 63]
   else if cp <? 65536 then
     [224 + N.shiftr cp 12; 128 + N.land (N.shiftr cp 6) 63; 128 + N.land cp 63]
   else
     [240 + N.shiftr cp 18; 128 + N.land (N.shiftr cp 12) 63;
      128 + N.land (N.shiftr cp 6) 63; 128 + N.land cp 63])%N.

Definition hex_digit (d : N) : N :=
  (if d <? 10 then 48 + d else 55 + d)%N.

(** ["%XX"], upper-case hexadecimal. *)
Definition percent_escape (octet : N) : jsstring :=
  [37%N; hex_digit (N.shiftr octet 4); hex_digit (N.land octet 15)].

Definition escape_code_point (cp : N) : jsstring :=
  flat_map percent_escape (utf8_octets cp).

Definition uri_malformed : JsError := URIError (js "URI malformed").

Fixpoint encodeURIComponent (s : jsstring) : Result jsstring :=
  match s with
  | [] => Ok []
  | c :: rest =>
      if uri_unescaped c then
        match encodeURIComponent rest with
        | Ok r => Ok (c :: r)
        | Err e => Err e
        end
      else if is_trailing_surrogate c then Err uri_malformed
      else if is_leading_surrogate c then
        match rest with
        | [] => Err uri_malformed
        | d :: rest' =>
            if is_trailing_surrogate d then
              match encodeURIComponent rest' with
              | Ok r => Ok (escape_code_point (surrogate_pair_to_code_point c d) ++ r)
              | Err e => Err e
              end
            else Err uri_malformed
        end
      else
        match encodeURIComponent rest with
        | Ok r => Ok (escape_code_point c ++ r)
        | Err e => Err e
        end
  end.

(** A string in which every surrogate is half of a pair. *)
Fixpoint well_formed (s : jsstring) : bool :=
  match s with
  | [] => true
  | c :: rest =>
      if is_trailing_surrogate c then false
      else if is_leading_surrogate c then
        match rest with
        | [] => false
        | d :: rest' => is_trailing_surrogate d && well_formed rest'
        end
      else well_formed rest
  end.

(* ================================================================= *)
(** ** The service: configuration, fields, collaborators *)

Record PowerPlatformConfig : Type := {
  organizationUrl : jsstring;
  clientId : jsstring;
  clientSecret : jsstring;
  tenantId : jsstring
}.

(** The two mutable fields of the class: [accessToken: string | null] and
    [tokenExpirationTime: number]. *)
Record ServiceFields : Type := {
  accessToken : option jsstring;
  tokenExpirationTime : Z
}.

(** The fields as the class initialises them. *)
Definition initial_fields : ServiceFields :=
  {| accessToken := None; tokenExpirationTime := 0 |}.

(** What [acquireTokenByClientCredential] resolves with: the fields of
    MSAL's [AuthenticationResult] that the service reads.  [expiresOn] is
    [Date | null]; a date is held by its time value. *)
Record AuthenticationResult : Type := {
  res_accessToken : option jsstring;
  res_expiresOn : option Z
}.

Record AxiosRequest : Type := {
  req_method : jsstring;
  req_url : jsstring;
  req_headers : list (jsstring * jsstring)
}.

Record AxiosResponse : Type := {
  resp_data : Json
}.

(** Truthiness of a value of type [string | null | undefined]. *)
Definition string_truthy (s : option jsstring) : bool :=
  match s with
  | Some (_ :: _) => true
  | _ => false
  end.

(* ================================================================= *)
(** ** Asynchronous computations *)

(** The effects of the class's [async] methods.  The two [Await]
    constructors are the suspension points at which the method waits for the
    network; [k] is the rest of the method, resumed with the way the awaited
    promise settled.  [Yield] is the [await] of a promise of the process
    itself: the rest of the method runs in a later microtask, after the code
    that is running has come to its own suspension. *)
Inductive Task (A : Type) : Type :=
| Return (a : A)
| Throw (e : JsError)
| DateNow (k : Z -> Task A)
| ReadThis (k : ServiceFields -> Task A)
| WriteAccessToken (v : jsstring) (k : Task A)
| WriteTokenExpirationTime (v : Z) (k : Task A)
| ConsoleError (label : jsstring) (e : JsError) (k : Task A)
| Yield (k : Task A)
| AwaitAcquireToken (scopes : list jsstring)
    (k : Result (option AuthenticationResult) -> Task A)
| AwaitAxios (req : AxiosRequest) (k : Result AxiosResponse -> Task A).
Arguments Return {A} a.
Arguments Throw {A} e.
Arguments DateNow {A} k.
Arguments ReadThis {A} k.
Arguments WriteAccessToken {A} v k.
Arguments WriteTokenExpirationTime {A} v k.
Arguments ConsoleError {A} label e k.
Arguments Yield {A} k.
Arguments AwaitAcquireToken {A} scopes k.
Arguments AwaitAxios {A} req k.

Fixpoint bind {A B : Type} (t : Task A) (f : A -> Task B) : Task B :=
  match t with
  | Return a => f a
  | Throw e => Throw e
  | DateNow k => DateNow (fun z => bind (k z) f)
  | ReadThis k => ReadThis (fun s => bind (k s) f)
  | WriteAccessToken v k => WriteAccessToken v (bind k f)
  | WriteTokenExpirationTime v k => WriteTokenExpirationTime v (bind k f)
  | ConsoleError l e k => ConsoleError l e (bind k f)
  | Yield k => Yield (bind k f)
  | AwaitAcquireToken sc k => AwaitAcquireToken sc (fun r => bind (k r) f)
  | AwaitAxios rq k => AwaitAxios rq (fun r => bind (k r) f)
  end.

(** [try { t } catch (error) { handler error }] *)
Fixpoint try_catch {A : Type} (t : Task A) (handler : JsError -> Task A) : Task A :=
  match t with
  | Return a => Return a
  | Throw e => handler e
  | DateNow k => DateNow (fun z => try_catch (k z) handler)
  | ReadThis k => ReadThis (fun s => try_catch (k s) handler)
  | WriteAccessToken v k => WriteAccessToken v (try_catch k handler)
  | WriteTokenExpirationTime v k => WriteTokenExpirationTime v (try_catch k handler)
  | ConsoleError l e k => ConsoleError l e (try_catch k handler)
  | Yield k => Yield (try_catch k handler)
  | AwaitAcquireToken sc k => AwaitAcquireToken sc (fun r => try_catch (k r) handler)
  | AwaitAxios rq k => AwaitAxios rq (fun r => try_catch (k r) handler)
  end.

Declare Scope task_scope.
Delimit Scope task_scope with task.
Notation "x <- t ;; k" := (bind t (fun x => k))
  (at level 61, t at next level, right associativity) : task_scope.
Notation "t ;;; k" := (bind t (fun _ => k))
  (at level 61, right associativity) : task_scope.
Open Scope task_scope.

(** An awaited promise that rejected throws at the [await]. *)
Definition settle {A : Type} (r : Result A) : Task A :=
  match r with
  | Ok a => Return a
  | Err e => Throw e
  end.

Definition Date_now : Task Z := DateNow Return.
Definition read_this : Task ServiceFields := ReadThis Return.
Definition set_accessToken (v : jsstring) : Task unit := WriteAccessToken v (Return tt).
Definition set_tokenExpirationTime (v : Z) : Task unit :=
  WriteTokenExpirationTime v (Return tt).
Definition console_error (label : jsstring) (e : JsError) : Task unit :=
  ConsoleError label e (Return tt).

(** [await t], for [t] the call of an [async] method of the class: the
    method runs, and its result, value or error, is taken up in a later
    microtask. *)
Definition await_method {A : Type} (t : Task A) : Task A :=
  try_catch (bind t (fun a => Yield (Return a))) (fun e => Yield (Throw e)).

(** [await this.msalClient.acquireTokenByClientCredential({ scopes })] *)
Definition acquireTokenByClientCredential (scopes : list jsstring)
  : Task (option AuthenticationResult) :=
  AwaitAcquireToken scopes settle.

(** [await axios(req)] *)
Definition axios (req : AxiosRequest) : Task AxiosResponse :=
  AwaitAxios req settle.

(* ================================================================= *)
(** ** The class [PowerPlatformService] *)

Section Service.

Variable config : PowerPlatformConfig.

(** The guard of [getAccessToken]:
    [this.accessToken && this.tokenExpirationTime > currentTime]. *)
Definition token_is_fresh (this : ServiceFields) (currentTime : Z) : bool :=
  string_truthy (accessToken this) && (tokenExpirationTime this >? currentTime).

(** The scopes of the exchange: [[`${this.config.organizationUrl}/.default`]]. *)
Definition token_scopes : list jsstring :=
  [organizationUrl config ++ js "/.default"].

(** The body of the [try] block of [getAccessToken]: the exchange, the
    test [!result || !result.accessToken], the two assignments (the second
    under [if (result.expiresOn)]) and the [return]. *)
Definition acquire_new_token : Task jsstring :=
  result <- acquireTokenByClientCredential token_scopes ;;
  match result with
  | None => Throw (Error (js "Failed to acquire access token"))
  | Some result =>
      if negb (string_truthy (res_accessToken result)) then
        Throw (Error (js "Failed to acquire access token"))
      else
        match res_accessToken result with
        | None => Throw (Error (js "Failed to acquire access token"))
        | Some token =>
            set_accessToken token ;;;
            match res_expiresOn result with
            | Some expiresOn =>
                set_tokenExpirationTime (expiresOn - 5 * 60 * 1000)
            | None => Return tt
            end ;;;
            Return token
        end
  end.

(** The [try]/[catch] of [getAccessToken]: any failure of the exchange is
    logged and replaced by a fresh [Error]. *)
Definition refresh_access_token : Task jsstring :=
  try_catch acquire_new_token (fun error =>
    console_error (js "Error acquiring access token:") error ;;;
    Throw (Error (js "Authentication failed"))).

(** [getAccessToken]; the [match] only unpacks [this.accessToken], which the
    guard has found truthy where it is returned. *)
Definition getAccessToken : Task jsstring :=
  currentTime <- Date_now ;;
  this <- read_this ;;
  match accessToken this with
  | Some token =>
      if token_is_fresh this currentTime then Return token
      else refresh_access_token
  | None => refresh_access_token
  end.

(** The request [makeRequest] hands to axios. *)
Definition api_request (endpoint token : jsstring) : AxiosRequest :=
  {| req_method := js "GET";
     req_url := organizationUrl config ++ js "/" ++ endpoint;
     req_headers :=
       [ (js "Authorization", js "Bearer " ++ token);
         (js "Accept", js "application/json");
         (js "OData-MaxVersion", js "4.0");
         (js "OData-Version", js "4.0") ] |}.

Definition makeRequest (endpoint : jsstring) : Task Json :=
  try_catch
    (token <- await_method getAccessToken ;;
     response <- axios (api_request endpoint token) ;;
     Return (resp_data response))
    (fun error =>
       console_error (js "PowerPlatform API request failed:") error ;;;
       Throw (Error (js "PowerPlatform API request failed: " ++ error_toString error))).

(** *** The path-building operations *)

Definition getEntityMetadata (entityName : jsstring) : Task Json :=
  makeRequest (js "api/data/v9.2/EntityDefinitions(LogicalName='" ++ entityName ++ js "')").

Definition getEntityAttributes (entityName : jsstring) : Task Json :=
  makeRequest (js "api/data/v9.2/EntityDefinitions(LogicalName='" ++ entityName
               ++ js "')/Attributes").

Definition getEntityAttribute (entityName attributeName : jsstring) : Task Json :=
  makeRequest (js "api/data/v9.2/EntityDefinitions(LogicalName='" ++ entityName
               ++ js "')/Attributes(LogicalName='" ++ attributeName ++ js "')").

Definition getEntityOneToManyRelationships (entityName : jsstring) : Task Json :=
  makeRequest (js "api/data/v9.2/EntityDefinitions(LogicalName='" ++ entityName
               ++ js "')/OneToManyRelationships").

Definition getEntityManyToManyRelationships (entityName : jsstring) : Task Json :=
  makeRequest (js "api/data/v9.2/EntityDefinitions(LogicalName='" ++ entityName
               ++ js "')/ManyToManyRelationships").

Definition getGlobalOptionSet (optionSetName : jsstring) : Task Json :=
  makeRequest (js "api/data/v9.2/GlobalOptionSetDefinitions(Name='" ++ optionSetName
               ++ js "')").

Definition getRecord (entityNamePlural recordId : jsstring) : Task Json :=
  makeRequest (js "api/data/v9.2/" ++ entityNamePlural ++ js "(" ++ recordId ++ js ")").

(** The template literal of [queryRecords]; it is evaluated, and
    [encodeURIComponent] may throw, before [makeRequest] is entered.
    [maxRecords] is [None] when the argument is omitted. *)
Definition queryRecords_endpoint (entityNamePlural filter : jsstring)
    (maxRecords : option jsnumber) : Result jsstring :=
  let maxRecords := match maxRecords with Some n => n | None => Int 50 end in
  match encodeURIComponent filter with
  | Err e => Err e
  | Ok encoded =>
      Ok (js "api/data/v9.2/" ++ entityNamePlural ++ js "?$filter=" ++ encoded
          ++ js "&$top=" ++ number_toString maxRecords)
  end.

Definition queryRecords (entityNamePlural filter : jsstring)
    (maxRecords : option jsnumber) : Task Json :=
  match queryRecords_endpoint entityNamePlural filter maxRecords with
  | Err e => Throw e
  | Ok endpoint => makeRequest endpoint
  end.

(** *** The [query-records] tool handler *)

(** [maxRecords || 50], where [maxRecords] is [number | undefined]. *)
Definition maxRecords_or_50 (maxRecords : option jsnumber) : jsnumber :=
  match maxRecords with
  | Some n => if number_truthy n then n else Int 50
  | None => Int 50
  end.

(** The call the handler makes:
    [service.queryRecords(entityNamePlural, filter, maxRecords || 50)]. *)
Definition query_records_tool (entityNamePlural filter : jsstring)
    (maxRecords : option jsnumber) : Task Json :=
  queryRecords entityNamePlural filter (Some (maxRecords_or_50 maxRecords)).

End Service.

(* ================================================================= *)
(** ** Running one computation on its own *)

(** A network operation, as it leaves the process. *)
Inductive NetCall : Type :=
| TokenExchange (scopes : list jsstring)
| HttpCall (req : AxiosRequest).

(** What surrounds a call: the clock, and how the identity authority and the
    remote API answer. *)
Record Env : Type := {
  clock : Z;
  authority : list jsstring -> Result (option AuthenticationResult);
  remote : AxiosRequest -> Result AxiosResponse
}.

(** The state a call acts on: the fields of the service instance, what was
    written with [console.error], and the network operations issued so far
    (latest last). *)
Record World : Type := {
  fields : ServiceFields;
  console : list (jsstring * JsError);
  network : list NetCall
}.

Definition new_world (f : ServiceFields) : World :=
  {| fields := f; console := []; network := [] |}.

Definition with_accessToken (v : jsstring) (w : World) : World :=
  {| fields := {| accessToken := Some v;
                  tokenExpirationTime := tokenExpirationTime (fields w) |};
     console := console w; network := network w |}.

Definition with_tokenExpirationTime (v : Z) (w : World) : World :=
  {| fields := {| accessToken := accessToken (fields w);
                  tokenExpirationTime := v |};
     console := console w; network := network w |}.

Definition with_console (label : jsstring) (e : JsError) (w : World) : World :=
  {| fields := fields w; console := console w ++ [(label, e)]; network := network w |}.

Definition with_call (c : NetCall) (w : World) : World :=
  {| fields := fields w; console := console w; network := network w ++ [c] |}.

Fixpoint run {A : Type} (env : Env) (t : Task A) (w : World) : Result A * World :=
  match t with
  | Return a => (Ok a, w)
  | Throw e => (Err e, w)
  | DateNow k => run env (k (clock env)) w
  | ReadThis k => run env (k (fields w)) w
  | WriteAccessToken v k => run env k (with_accessToken v w)
  | WriteTokenExpirationTime v k => run env k (with_tokenExpirationTime v w)
  | ConsoleError l e k => run env k (with_console l e w)
  | Yield k => run env k w
  | AwaitAcquireToken sc k =>
      run env (k (authority env sc)) (with_call (TokenExchange sc) w)
  | AwaitAxios rq k =>
      run env (k (remote env rq)) (with_call (HttpCall rq) w)
  end.

(** The token exchanges and the HTTP requests among the issued operations. *)
Definition exchanges (calls : list NetCall) : list (list jsstring) :=
  flat_map (fun c => match c with TokenExchange sc => [sc] | HttpCall _ => [] end) calls.

Definition http_requests (calls : list NetCall) : list AxiosRequest :=
  flat_map (fun c => match c with HttpCall rq => [rq] | TokenExchange _ => [] end) calls.

(** The token an answer of the authority carries, when the service accepts
    it: a result with a truthy [accessToken]. *)
Definition usable_token (r : Result (option AuthenticationResult)) : option jsstring :=
  match r with
  | Ok (Some result) =>
      if string_truthy (res_accessToken result) then res_accessToken result else None
  | _ => None
  end.

(** The ways an exchange fails: the promise rejects (a network error, or
    the authority refuses), it resolves with no result, or the result has no
    token (the field is missing or empty). *)
Definition exchange_fails (r : Result (option AuthenticationResult)) : Prop :=
  (exists e, r = Err e)
  \/ r = Ok None
  \/ (exists result, r = Ok (Some result) /\ string_truthy (res_accessToken result) = false).

(** The fields the constructor and the service itself can produce: a stored
    token is never the empty string. *)
Definition cache_ok (f : ServiceFields) : Prop :=
  accessToken f <> Some [].

(** The world after a successful exchange: the call is logged, the token
    stored, and the expiration time stored when the result has one. *)
Definition refreshed (scopes : list jsstring) (token : jsstring)
    (expiresOn : option Z) (w : World) : World :=
  let w1 := with_accessToken token (with_call (TokenExchange scopes) w) in
  match expiresOn with
  | Some t => with_tokenExpirationTime (t - 5 * 60 * 1000) w1
  | None => w1
  end.

(** An answer of the authority that sets no expiration time: the service
    reads [expiresOn] only of a result whose token it has accepted. *)
Definition reports_no_expiry (r : Result (option AuthenticationResult)) : Prop :=
  forall result,
    r = Ok (Some result) ->
    string_truthy (res_accessToken result) = true ->
    res_expiresOn result = None.

(** The service after [getAccessToken] has been called once in each of
    [envs], in order. *)
Fixpoint getAccessToken_calls (config : PowerPlatformConfig) (envs : list Env)
    (w : World) : World :=
  match envs with
  | [] => w
  | env :: later =>
      getAccessToken_calls config later (snd (run env (getAccessToken config) w))
  end.

(** Whether [needle] occurs in [hay]. *)
Fixpoint starts_with (needle hay : jsstring) : bool :=
  match needle, hay with
  | [], _ => true
  | _ :: _, [] => false
  | a :: needle', b :: hay' => N.eqb a b && starts_with needle' hay'
  end.

Fixpoint contains (needle hay : jsstring) : bool :=
  starts_with needle hay
  || match hay with
     | [] => false
     | _ :: hay' => contains needle hay'
     end.

(** The operations of the class that issue one request. *)
Inductive Operation : Type :=
| GetEntityMetadata (entityName : jsstring)
| GetEntityAttributes (entityName : jsstring)
| GetEntityAttribute (entityName attributeName : jsstring)
| GetEntityOneToManyRelationships (entityName : jsstring)
| GetEntityManyToManyRelationships (entityName : jsstring)
| GetGlobalOptionSet (optionSetName : jsstring)
| GetRecord (entityNamePlural recordId : jsstring)
| QueryRecords (entityNamePlural filter : jsstring) (maxRecords : option jsnumber).

(** The relative path each of them computes. *)
Definition endpoint_of (op : Operation) : Result jsstring :=
  match op with
  | GetEntityMetadata n =>
      Ok (js "api/data/v9.2/EntityDefinitions(LogicalName='" ++ n ++ js "')")
  | GetEntityAttributes n =>
      Ok (js "api/data/v9.2/EntityDefinitions(LogicalName='" ++ n ++ js "')/Attributes")
  | GetEntityAttribute n a =>
      Ok (js "api/data/v9.2/EntityDefinitions(LogicalName='" ++ n
          ++ js "')/Attributes(LogicalName='" ++ a ++ js "')")
  | GetEntityOneToManyRelationships n =>
      Ok (js "api/data/v9.2/EntityDefinitions(LogicalName='" ++ n
          ++ js "')/OneToManyRelationships")
  | GetEntityManyToManyRelationships n =>
      Ok (js "api/data/v9.2/EntityDefinitions(LogicalName='" ++ n
          ++ js "')/ManyToManyRelationships")
  | GetGlobalOptionSet n =>
      Ok (js "api/data/v9.2/GlobalOptionSetDefinitions(Name='" ++ n ++ js "')")
  | GetRecord n i =>
      Ok (js "api/data/v9.2/" ++ n ++ js "(" ++ i ++ js ")")
  | QueryRecords n f m => queryRecords_endpoint n f m
  end.

(** The method each of them names. *)
Definition call (config : PowerPlatformConfig) (op : Operation) : Task Json :=
  match op with
  | GetEntityMetadata n => getEntityMetadata config n
  | GetEntityAttributes n => getEntityAttributes config n
  | GetEntityAttribute n a => getEntityAttribute config n a
  | GetEntityOneToManyRelationships n => getEntityOneToManyRelationships config n
  | GetEntityManyToManyRelationships n => getEntityManyToManyRelationships config n
  | GetGlobalOptionSet n => getGlobalOptionSet config n
  | GetRecord n i => getRecord config n i
  | QueryRecords n f m => queryRecords config n f m
  end.

(* ================================================================= *)
(** ** Running two computations together: [Promise.all] *)

(** Where an [async] call stands: settled, or suspended at a network
    [await] with the rest of the method. *)
Inductive Status (A : Type) : Type :=
| Settled (r : Result A)
| PendingToken (scopes : list jsstring)
    (k : Result (option AuthenticationResult) -> Task A)
| PendingHttp (req : AxiosRequest) (k : Result AxiosResponse -> Task A).
Arguments Settled {A} r.
Arguments PendingToken {A} scopes k.
Arguments PendingHttp {A} req k.

(** Run a computation up to its next network [await], where the operation
    is issued and the computation suspends.  JavaScript runs the code
    between two network completions, microtasks included, without letting a
    completion in, so for a computation that is alone in having work to do
    this is one indivisible step. *)
Fixpoint advance {A : Type} (now : Z) (t : Task A) (w : World) : Status A * World :=
  match t with
  | Return a => (Settled (Ok a), w)
  | Throw e => (Settled (Err e), w)
  | DateNow k => advance now (k now) w
  | ReadThis k => advance now (k (fields w)) w
  | WriteAccessToken v k => advance now k (with_accessToken v w)
  | WriteTokenExpirationTime v k => advance now k (with_tokenExpirationTime v w)
  | ConsoleError l e k => advance now k (with_console l e w)
  | Yield k => advance now k w
  | AwaitAcquireToken sc k => (PendingToken sc k, with_call (TokenExchange sc) w)
  | AwaitAxios rq k => (PendingHttp rq k, with_call (HttpCall rq) w)
  end.

(** Where a call stands when it hands control back to its caller: at a
    network [await] (or settled), or at the [await] of a promise of the
    process, with the rest deferred to a microtask. *)
Inductive Begun (A : Type) : Type :=
| Waiting (st : Status A)
| Deferred (k : Task A).
Arguments Waiting {A} st.
Arguments Deferred {A} k.

(** The synchronous part of a call: up to its first [await] of any kind.
    [now] is what [Date.now()] gives during it. *)
Fixpoint begin {A : Type} (now : Z) (t : Task A) (w : World) : Begun A * World :=
  match t with
  | Return a => (Waiting (Settled (Ok a)), w)
  | Throw e => (Waiting (Settled (Err e)), w)
  | DateNow k => begin now (k now) w
  | ReadThis k => begin now (k (fields w)) w
  | WriteAccessToken v k => begin now k (with_accessToken v w)
  | WriteTokenExpirationTime v k => begin now k (with_tokenExpirationTime v w)
  | ConsoleError l e k => begin now k (with_console l e w)
  | Yield k => (Deferred k, w)
  | AwaitAcquireToken sc k => (Waiting (PendingToken sc k), with_call (TokenExchange sc) w)
  | AwaitAxios rq k => (Waiting (PendingHttp rq k), with_call (HttpCall rq) w)
  end.

(** The microtask of a deferred call: the rest of it, up to its network
    [await]. *)
Definition resume {A : Type} (now : Z) (b : Begun A) (w : World) : Status A * World :=
  match b with
  | Waiting st => (st, w)
  | Deferred k => advance now k w
  end.

(** The two elements of the array given to [Promise.all]. *)
Inductive Side : Type := First | Second.

Inductive Answer : Type :=
| TokenAnswer (r : Result (option AuthenticationResult))
| HttpAnswer (r : Result AxiosResponse).

(** One network completion: which call it is for, the clock at that
    moment, and the answer. *)
Record Completion : Type := {
  who : Side;
  when : Z;
  answer : Answer
}.

(** A completion resumes the call that waits for it; a completion that
    matches no pending operation of that call changes nothing. *)
Definition deliver {A : Type} (c : Completion) (st : Status A) (w : World)
  : Status A * World :=
  match st, answer c with
  | PendingToken _ k, TokenAnswer r => advance (when c) (k r) w
  | PendingHttp _ k, HttpAnswer r => advance (when c) (k r) w
  | _, _ => (st, w)
  end.

(** The operation a pending call waits for. *)
Definition awaited {A : Type} (st : Status A) : option NetCall :=
  match st with
  | Settled _ => None
  | PendingToken sc _ => Some (TokenExchange sc)
  | PendingHttp rq _ => Some (HttpCall rq)
  end.

(** Whether the completion is taken by the call in this status. *)
Definition accepts {A : Type} (st : Status A) (c : Completion) : bool :=
  match st, answer c with
  | PendingToken _ _, TokenAnswer _ => true
  | PendingHttp _ _, HttpAnswer _ => true
  | _, _ => false
  end.

(** [Promise.all([p1, p2])]: the two calls, the promise that combines them
    ([None] while it is pending), the shared world, and the completions
    taken so far, each with the operation it answered. *)
Record Pool (A B : Type) : Type := {
  first : Status A;
  second : Status B;
  combined : option (Result (A * B));
  world : World;
  delivered : list (Side * NetCall * Answer)
}.
Arguments first {A B} p.
Arguments second {A B} p.
Arguments combined {A B} p.
Arguments world {A B} p.
Arguments delivered {A B} p.

(** The combined promise rejects with the first rejection and fulfils once
    both elements have; once settled it stays as it is. *)
Definition settle_all {A B : Type} (combined : option (Result (A * B)))
    (s1 : Status A) (s2 : Status B) : option (Result (A * B)) :=
  match combined with
  | Some r => Some r
  | None =>
      match s1, s2 with
      | Settled (Err e), _ => Some (Err e)
      | _, Settled (Err e) => Some (Err e)
      | Settled (Ok a), Settled (Ok b) => Some (Ok (a, b))
      | _, _ => None
      end
  end.

(** Both calls are made, in array order, before any completion is looked
    at: the synchronous part of the first, which reads the clock as [now1],
    then that of the second, which reads it as [now2]; then the microtasks
    of the calls that deferred, in the same order. *)
Definition pool_start {A B : Type} (now1 now2 : Z) (t1 : Task A) (t2 : Task B)
    (w : World) : Pool A B :=
  let (b1, w1) := begin now1 t1 w in
  let (b2, w2) := begin now2 t2 w1 in
  let (s1, w3) := resume now2 b1 w2 in
  let (s2, w4) := resume now2 b2 w3 in
  {| first := s1; second := s2; combined := settle_all None s1 s2;
     world := w4; delivered := [] |}.

(** A completion is recorded when the call takes it, with the operation it
    answers. *)
Definition log_delivery {A : Type} (c : Completion) (st : Status A)
    (log : list (Side * NetCall * Answer)) : list (Side * NetCall * Answer) :=
  match awaited st with
  | Some call => if accepts st c then log ++ [(who c, call, answer c)] else log
  | None => log
  end.

(** One completion: the call it is for is resumed, and the combined promise
    looks at the two elements again. *)
Definition pool_step {A B : Type} (p : Pool A B) (c : Completion) : Pool A B :=
  match who c with
  | First =>
      let (s1, w') := deliver c (first p) (world p) in
      {| first := s1; second := second p;
         combined := settle_all (combined p) s1 (second p);
         world := w'; delivered := log_delivery c (first p) (delivered p) |}
  | Second =>
      let (s2, w') := deliver c (second p) (world p) in
      {| first := first p; second := s2;
         combined := settle_all (combined p) (first p) s2;
         world := w'; delivered := log_delivery c (second p) (delivered p) |}
  end.

(** [Promise.all([t1, t2])] after the completions of [schedule], in order. *)
Definition promise_all {A B : Type} (now1 now2 : Z) (t1 : Task A) (t2 : Task B)
    (schedule : list Completion) (w : World) : Pool A B :=
  fold_left pool_step schedule (pool_start now1 now2 t1 t2 w).

(** The value [getEntityRelationships] resolves with. *)
Record Relationships : Type := {
  oneToMany : Json;
  manyToMany : Json
}.

Section Relationships.

Variable config : PowerPlatformConfig.

(** The pool behind [getEntityRelationships]. *)
Definition relationship_calls (entityName : jsstring) (now1 now2 : Z)
    (schedule : list Completion) (w : World) : Pool Json Json :=
  promise_all now1 now2
    (getEntityOneToManyRelationships config entityName)
    (getEntityManyToManyRelationships config entityName)
    schedule w.

(** [getEntityRelationships]: [None] while the awaited [Promise.all] is
    pending at the end of the schedule. *)
Definition getEntityRelationships (entityName : jsstring) (now1 now2 : Z)
    (schedule : list Completion) (w : World) : option (Result Relationships) :=
  match combined (relationship_calls entityName now1 now2 schedule w) with
  | Some (Ok (oneToMany, manyToMany)) =>
      Some (Ok {| oneToMany := oneToMany; manyToMany := manyToMany |})
  | Some (Err e) => Some (Err e)
  | None => None
  end.

End Relationships.

(* ================================================================= *)
(** ** Invariants of calls in flight *)

(** How a call that waits for its HTTP response settles. *)
Definition request_outcome (r : Result AxiosResponse) : Result Json :=
  match r with
  | Ok response => Ok (resp_data response)
  | Err cause =>
      Err (Error (js "PowerPlatform API request failed: " ++ error_toString cause))
  end.

(** How a call settles whose exchange brought no token. *)
Definition authentication_outcome : Result Json :=
  Err (Error (js "PowerPlatform API request failed: Error: Authentication failed")).

(** A call suspended at [await axios(...)]: whatever the answer, resuming
    it settles it. *)
Definition http_phase (config : PowerPlatformConfig) (endpoint : jsstring)
    (st : Status Json) : Prop :=
  exists token k,
    st = PendingHttp (api_request config endpoint token) k
    /\ forall r now w, exists w', advance now (k r) w = (Settled (request_outcome r), w').

(** A call suspended at the exchange: an answer with a usable token takes
    it to its HTTP request, issued with that token in the cache; any other
    answer settles it. *)
Definition token_phase (config : PowerPlatformConfig) (endpoint : jsstring)
    (st : Status Json) : Prop :=
  exists k,
    st = PendingToken (token_scopes config) k
    /\ forall r now w,
         match usable_token r with
         | Some token =>
             exists st' w',
               advance now (k r) w = (st', w')
               /\ awaited st' = Some (HttpCall (api_request config endpoint token))
               /\ accessToken (fields w') = Some token
               /\ http_phase config endpoint st'
         | None => exists w', advance now (k r) w = (Settled authentication_outcome, w')
         end.

(** The error [makeRequest] throws for a cause. *)
Definition request_error (cause : JsError) : JsError :=
  Error (js "PowerPlatform API request failed: " ++ error_toString cause).

(** What is known of one [makeRequest endpoint] made as element [side] of a
    [Promise.all], given the completions taken so far: a resolved call
    holds the body of a response to its request; a rejected call wraps
    either the authentication error, after an exchange that brought no
    token, or the cause of a failed response to its request; a pending call
    is in one of the two phases. *)
Definition side_ok (config : PowerPlatformConfig) (side : Side) (endpoint : jsstring)
    (st : Status Json) (log : list (Side * NetCall * Answer)) : Prop :=
  match st with
  | Settled (Ok d) =>
      exists token response,
        In (side, HttpCall (api_request config endpoint token), HttpAnswer (Ok response)) log
        /\ d = resp_data response
  | Settled (Err e) =>
      (e = request_error (Error (js "Authentication failed"))
       /\ exists a, In (side, TokenExchange (token_scopes config), TokenAnswer a) log
                    /\ usable_token a = None)
      \/ (exists token cause,
            In (side, HttpCall (api_request config endpoint token), HttpAnswer (Err cause)) log
            /\ e = request_error cause)
  | PendingToken _ _ => token_phase config endpoint st
  | PendingHttp _ _ => http_phase config endpoint st
  end.

(** The combined promise agrees with its two elements. *)
Definition combined_ok {A B : Type} (c : option (Result (A * B)))
    (s1 : Status A) (s2 : Status B) : Prop :=
  match c with
  | Some (Ok (a, b)) => s1 = Settled (Ok a) /\ s2 = Settled (Ok b)
  | Some (Err e) => s1 = Settled (Err e) \/ s2 = Settled (Err e)
  | None =>
      (forall e, s1 <> Settled (Err e))
      /\ (forall e, s2 <> Settled (Err e))
      /\ (forall a b, s1 = Settled (Ok a) -> s2 <> Settled (Ok b))
  end.

(** The invariant of the pool behind [getEntityRelationships]. *)
Definition pool_ok (config : PowerPlatformConfig) (endpoint1 endpoint2 : jsstring)
    (p : Pool Json Json) : Prop :=
  side_ok config First endpoint1 (first p) (delivered p)
  /\ side_ok config Second endpoint2 (second p) (delivered p)
  /\ combined_ok (combined p) (first p) (second p).

(* ================================================================= *)
(** ** Sample configurations, answers and worlds *)

Definition sample_config : PowerPlatformConfig :=
  {| organizationUrl := js "https://org.crm.dynamics.com";
     clientId := js "client";
     clientSecret := js "secret";
     tenantId := js "tenant" |}.

Definition sample_response : Result AxiosResponse :=
  Ok {| resp_data := JObject [(js "name", JString (js "Acme"))] |}.

(** The authority grants the token [new], valid until 4000000. *)
Definition env_granting : Env :=
  {| clock := 2000;
     authority := fun _ =>
       Ok (Some {| res_accessToken := Some (js "new"); res_expiresOn := Some 4000000 |});
     remote := fun _ => sample_response |}.

(** The authority grants the token [new] and reports no expiry. *)
Definition env_no_expiry : Env :=
  {| clock := 2000;
     authority := fun _ =>
       Ok (Some {| res_accessToken := Some (js "new"); res_expiresOn := None |});
     remote := fun _ => sample_response |}.

(** The exchange fails on the network. *)
Definition env_unreachable : Env :=
  {| clock := 2000;
     authority := fun _ => Err (Error (js "getaddrinfo ENOTFOUND login.microsoftonline.com"));
     remote := fun _ => sample_response |}.

(** The authority resolves with a result that has no token. *)
Definition env_no_token : Env :=
  {| clock := 2000;
     authority := fun _ =>
       Ok (Some {| res_accessToken := None; res_expiresOn := Some 4000000 |});
     remote := fun _ => sample_response |}.

(** The authority grants a token and the remote API answers 404. *)
Definition env_not_found : Env :=
  {| clock := 2000;
     authority := authority env_granting;
     remote := fun _ =>
       Err {| err_name := js "AxiosError";
              err_message := js "Request failed with status code 404" |} |}.

(** A service that holds the token [old], expired at 1000. *)
Definition world_expired : World :=
  new_world {| accessToken := Some (js "old"); tokenExpirationTime := 1000 |}.

(** A service that holds the token [old], good until 5000. *)
Definition world_fresh : World :=
  new_world {| accessToken := Some (js "old"); tokenExpirationTime := 5000 |}.

(** The remote API answers 404. *)
Definition sample_not_found : Result AxiosResponse :=
  Err {| err_name := js "AxiosError";
         err_message := js "Request failed with status code 404" |}.

(** The response to the call [side] arrives. *)
Definition http_done (side : Side) (r : Result AxiosResponse) : Completion :=
  {| who := side; when := 2000; answer := HttpAnswer r |}.

(** The answer to the exchange of the call [side] arrives. *)
Definition token_done (side : Side) (r : Result (option AuthenticationResult))
  : Completion :=
  {| who := side; when := 2000; answer := TokenAnswer r |}.

(** Closes [http_phase] of a status that has just been computed. *)
Ltac solve_http_phase :=
  eexists _, _; split; [reflexivity|];
  let r := fresh "r" in
  intros r ? ?; destruct r; simpl; eauto.

(* ================================================================= *)
(** ** Strings as the engine holds them *)

(** Every code unit of a string value is a 16-bit number. *)
Definition code_units (s : jsstring) : Prop :=
  Forall (fun c => (c < 65536)%N) s.

(** The characters an encoded component is made of: the unescaped ones and
    the percent sign. *)
Definition uri_component_char (c : N) : bool :=
  uri_unescaped c || N.eqb c 37.



(** *** Reading a percent-encoding back *)

(** The value of a hexadecimal digit, of either case. *)
Definition hex_value (c : N) : option N :=
  (if in_range 48 57 c then Some (c - 48)
   else if in_range 65 70 c then Some (c - 55)
   else if in_range 97 102 c then Some (c - 87)
   else None)%N.

(** The octets a percent-encoded string stands for: [%XX] is the octet
    written, any other ASCII character is itself. *)
Fixpoint percent_octets (s : jsstring) : option (list N) :=
  match s with
  | [] => Some []
  | c :: rest =>
      if N.eqb c 37 then
        match rest with
        | h :: l :: rest' =>
            match hex_value h, hex_value l, percent_octets rest' with
            | Some a, Some b, Some octets => Some ((16 * a + b)%N :: octets)
            | _, _, _ => None
            end
        | _ => None
        end
      else if (c <? 128)%N then
        match percent_octets rest with
        | Some octets => Some (c :: octets)
        | None => None
        end
      else None
  end.

(** Two strings are equivalent percent-encodings when they stand for the
    same octets. *)
Definition percent_equivalent (a b : jsstring) : Prop :=
  exists octets, percent_octets a = Some octets /\ percent_octets b = Some octets.


(** The code point that one to four UTF-8 octets hold. *)
Definition utf8_code_point (octets : list N) : option N :=
  match octets with
  | [a] => Some a
  | [a; b] => Some ((a - 192) * 64 + (b - 128))%N
  | [a; b; c] => Some ((a - 224) * 4096 + (b - 128) * 64 + (c - 128))%N
  | [a; b; c; d] =>
      Some ((a - 240) * 262144 + (b - 128) * 4096 + (c - 128) * 64 + (d - 128))%N
  | _ => None
  end.

(* ================================================================= *)
(** ** The two calls of [getEntityRelationships], by position *)

Definition element {A : Type} (side : Side) (p : Pool A A) : Status A :=
  match side with
  | First => first p
  | Second => second p
  end.

Definition relationship_path (side : Side) (entityName : jsstring) : jsstring :=
  match side with
  | First =>
      js "api/data/v9.2/EntityDefinitions(LogicalName='" ++ entityName
      ++ js "')/OneToManyRelationships"
  | Second =>
      js "api/data/v9.2/EntityDefinitions(LogicalName='" ++ entityName
      ++ js "')/ManyToManyRelationships"
  end.

(* ================================================================= *)
(** ** The server: configuration and the service instance *)

(** The four variables of [process.env] the server reads; [None] when a
    variable is not set. *)
Record ProcessEnv : Type := {
  POWERPLATFORM_URL : option jsstring;
  POWERPLATFORM_CLIENT_ID : option jsstring;
  POWERPLATFORM_CLIENT_SECRET : option jsstring;
  POWERPLATFORM_TENANT_ID : option jsstring
}.

(** [v || ""], for [v] a string or [undefined]. *)
Definition or_empty (v : option jsstring) : jsstring :=
  match v with
  | Some (c :: s) => c :: s
  | _ => []
  end.

Definition POWERPLATFORM_CONFIG (env : ProcessEnv) : PowerPlatformConfig :=
  {| organizationUrl := or_empty (POWERPLATFORM_URL env);
     clientId := or_empty (POWERPLATFORM_CLIENT_ID env);
     clientSecret := or_empty (POWERPLATFORM_CLIENT_SECRET env);
     tenantId := or_empty (POWERPLATFORM_TENANT_ID env) |}.

(** What the constructor gives MSAL. *)
Record MsalAuth : Type := {
  msal_clientId : jsstring;
  msal_clientSecret : jsstring;
  msal_authority : jsstring
}.

Definition msal_auth (config : PowerPlatformConfig) : MsalAuth :=
  {| msal_clientId := clientId config;
     msal_clientSecret := clientSecret config;
     msal_authority := js "https://login.microsoftonline.com/" ++ tenantId config |}.

(** [!s], for [s] a string. *)
Definition string_falsy (s : jsstring) : bool :=
  match s with
  | [] => true
  | _ :: _ => false
  end.

(** The array [missingConfig], after its four conditional [push]es. *)
Definition missingConfig (config : PowerPlatformConfig) : list jsstring :=
  (if string_falsy (organizationUrl config) then [js "organizationUrl"] else [])
  ++ (if string_falsy (clientId config) then [js "clientId"] else [])
  ++ (if string_falsy (clientSecret config) then [js "clientSecret"] else [])
  ++ (if string_falsy (tenantId config) then [js "tenantId"] else []).

(** [items.join(sep)] *)
Fixpoint join (sep : jsstring) (items : list jsstring) : jsstring :=
  match items with
  | [] => []
  | [x] => x
  | x :: rest => x ++ sep ++ join sep rest
  end.

(** A line of [console.error]: a message, or a label and an error. *)
Inductive LogLine : Type :=
| LogMessage (text : jsstring)
| LogError (label : jsstring) (e : JsError).

(** The state of the server process: the module variable
    [powerPlatformService] ([null], or the one instance, held by its
    fields), the lines written to [console.error], and the network
    operations issued. *)
Record Server : Type := {
  powerPlatformService : option ServiceFields;
  stderr : list LogLine;
  wire : list NetCall
}.

Definition server_start : Server :=
  {| powerPlatformService := None; stderr := []; wire := [] |}.

Definition with_log (line : LogLine) (s : Server) : Server :=
  {| powerPlatformService := powerPlatformService s;
     stderr := stderr s ++ [line];
     wire := wire s |}.

Definition missing_configuration_error (missing : list jsstring) : JsError :=
  Error (js "Missing PowerPlatform configuration: " ++ join (js ", ") missing
         ++ js ". Set these in environment variables.").

(** [getPowerPlatformService]: the instance if there is one; otherwise the
    configuration is checked, and the instance created if nothing is
    missing. *)
Definition getPowerPlatformService (config : PowerPlatformConfig) (s : Server)
  : Result ServiceFields * Server :=
  match powerPlatformService s with
  | Some this => (Ok this, s)
  | None =>
      match missingConfig config with
      | [] =>
          (Ok initial_fields,
           with_log (LogMessage (js "PowerPlatform service initialized"))
             {| powerPlatformService := Some initial_fields;
                stderr := stderr s; wire := wire s |})
      | missing => (Err (missing_configuration_error missing), s)
      end
  end.

(** A method of the instance, run from the server: it acts on the fields of
    the instance, and what it writes and issues is added to the server's. *)
Definition on_service {A : Type} (env : Env) (t : Task A) (this : ServiceFields)
    (s : Server) : Result A * Server :=
  let (r, w) := run env t (new_world this) in
  (r, {| powerPlatformService := Some (fields w);
         stderr := stderr s ++ map (fun line => LogError (fst line) (snd line)) (console w);
         wire := wire s ++ network w |}).

(* ================================================================= *)
(** ** The tool handlers *)

(** What a handler returns: [{ content: [{ type, text }] }]. *)
Record TextContent : Type := {
  content_type : jsstring;
  content_text : jsstring
}.

Record ToolResult : Type := {
  content : list TextContent
}.

Definition text_result (text : jsstring) : ToolResult :=
  {| content := [ {| content_type := js "text"; content_text := text |} ] |}.

(** ["\n\n"] *)
Definition blank_line : jsstring := [10%N; 10%N].

(** [new TypeError(message)] *)
Definition TypeError (message : jsstring) : JsError :=
  {| err_name := js "TypeError"; err_message := message |}.

(** The own property [key] of a parsed object; [members] lists the members
    in the order of the text, where a later duplicate replaces an earlier
    one. *)
Fixpoint own_property (key : jsstring) (members : list (jsstring * Json)) : option Json :=
  match members with
  | [] => None
  | (k, v) :: rest =>
      match own_property key rest with
      | Some later => Some later
      | None => if list_eq_dec N.eq_dec k key then Some v else None
      end
  end.

(** Truthiness of a parsed value. *)
Definition json_truthy (v : Json) : bool :=
  match v with
  | JNull => false
  | JBool b => b
  | JNumber n => negb (n =? 0)
  | JString s => negb (string_falsy s)
  | JArray _ => true
  | JObject _ => true
  end.

(** The string a template literal makes of a parsed value. *)
Fixpoint template_string (v : Json) : jsstring :=
  match v with
  | JNull => js "null"
  | JBool true => js "true"
  | JBool false => js "false"
  | JNumber n => number_toString (Int n)
  | JString s => s
  | JArray items =>
      join (js ",")
        (map (fun item => match item with
                          | JNull => []
                          | _ => template_string item
                          end) items)
  | JObject _ => js "[object Object]"
  end.

(** *** [JSON.stringify(value, null, 2)] (ECMA-262), for the examples *)

(** Four lower-case hexadecimal digits. *)
Definition hex_lower (d : N) : N :=
  (if d <? 10 then 48 + d else 87 + d)%N.

Definition unicode_escape (c : N) : jsstring :=
  js "\u" ++ [hex_lower (N.land (N.shiftr c 12) 15); hex_lower (N.land (N.shiftr c 8) 15);
              hex_lower (N.land (N.shiftr c 4) 15); hex_lower (N.land c 15)].

(** The characters of a quoted string, one code unit or one surrogate pair
    at a time. *)
Fixpoint quote_chars (s : jsstring) : jsstring :=
  match s with
  | [] => []
  | c :: rest =>
      if N.eqb c 8 then js "\b" ++ quote_chars rest
      else if N.eqb c 9 then js "\t" ++ quote_chars rest
      else if N.eqb c 10 then js "\n" ++ quote_chars rest
      else if N.eqb c 12 then js "\f" ++ quote_chars rest
      else if N.eqb c 13 then js "\r" ++ quote_chars rest
      else if N.eqb c 34 then js "\" ++ [34%N] ++ quote_chars rest
      else if N.eqb c 92 then js "\\" ++ quote_chars rest
      else if (c <? 32)%N then unicode_escape c ++ quote_chars rest
      else if is_trailing_surrogate c then unicode_escape c ++ quote_chars rest
      else if is_leading_surrogate c then
        match rest with
        | d :: rest' =>
            if is_trailing_surrogate d then c :: d :: quote_chars rest'
            else unicode_escape c ++ quote_chars rest
        | [] => unicode_escape c
        end
      else c :: quote_chars rest
  end.

(** [QuoteJSONString] *)
Definition quote_json_string (s : jsstring) : jsstring :=
  [34%N] ++ quote_chars s ++ [34%N].

(** The value of a string of decimal digits. *)
Fixpoint decimal_value (acc : N) (s : jsstring) : option N :=
  match s with
  | [] => Some acc
  | c :: rest =>
      if in_range 48 57 c then decimal_value (10 * acc + (c - 48)) rest else None
  end.

(** An array index: the canonical numeral of an integer below 2^32 - 1. *)
Definition array_index (key : jsstring) : option N :=
  match key with
  | [] => None
  | [c] => decimal_value 0 [c]
  | c :: _ =>
      if N.eqb c 48 then None
      else
        match decimal_value 0 key with
        | Some n => if (n <? 4294967295)%N then Some n else None
        | None => None
        end
  end.

(** The keys of the members in the order in which they first occur. *)
Fixpoint first_keys {A : Type} (seen : list jsstring) (members : list (jsstring * A))
  : list jsstring :=
  match members with
  | [] => []
  | (key, _) :: rest =>
      if existsb (fun k => if list_eq_dec N.eq_dec k key then true else false) seen
      then first_keys seen rest
      else key :: first_keys (key :: seen) rest
  end.

(** The last member with the key: a later duplicate replaces an earlier
    one. *)
Fixpoint last_member {A : Type} (key : jsstring) (members : list (jsstring * A))
  : option A :=
  match members with
  | [] => None
  | (k, v) :: rest =>
      match last_member key rest with
      | Some later => Some later
      | None => if list_eq_dec N.eq_dec k key then Some v else None
      end
  end.

Fixpoint insert_index (i : N * jsstring) (sorted : list (N * jsstring))
  : list (N * jsstring) :=
  match sorted with
  | [] => [i]
  | j :: rest =>
      if (fst i <? fst j)%N then i :: sorted else j :: insert_index i rest
  end.

(** [OrdinaryOwnPropertyKeys]: the array indices in ascending order, then
    the other keys in the order in which they were created. *)
Definition own_keys (keys : list jsstring) : list jsstring :=
  map snd
    (fold_right insert_index []
       (flat_map (fun key => match array_index key with
                             | Some n => [(n, key)]
                             | None => []
                             end) keys))
  ++ filter (fun key => match array_index key with
                        | Some _ => false
                        | None => true
                        end) keys.

(** The properties of the object that a member list is parsed into: one for
    each key, with the value of its last member, in the order of
    [own_keys]. *)
Definition own_members {A : Type} (members : list (jsstring * A))
  : list (jsstring * A) :=
  flat_map (fun key => match last_member key members with
                       | Some v => [(key, v)]
                       | None => []
                       end)
    (own_keys (first_keys [] members)).

(** [SerializeJSONProperty] with the gap of two spaces, at the indentation
    [indent].  The numbers of a body are integers here, written as
    [number_toString] writes them. *)
Fixpoint serialize_json (indent : jsstring) (v : Json) : jsstring :=
  match v with
  | JNull => js "null"
  | JBool true => js "true"
  | JBool false => js "false"
  | JNumber n => number_toString (Int n)
  | JString s => quote_json_string s
  | JArray [] => js "[]"
  | JArray items =>
      let inner := indent ++ js "  " in
      js "[" ++ [10%N] ++ inner
      ++ join (js "," ++ [10%N] ++ inner) (map (serialize_json inner) items)
      ++ [10%N] ++ indent ++ js "]"
  | JObject members =>
      let inner := indent ++ js "  " in
      match own_members
              (map (fun member =>
                      let '(key, value) := member in
                      (key, serialize_json inner value))
                 members) with
      | [] => js "{}"
      | properties =>
          js "{" ++ [10%N] ++ inner
          ++ join (js "," ++ [10%N] ++ inner)
               (map (fun property =>
                       quote_json_string (fst property) ++ js ": " ++ snd property)
                  properties)
          ++ [10%N] ++ indent ++ js "}"
      end
  end.

Definition stringify_indented (v : Json) : jsstring := serialize_json [] v.

Section Tools.

(** The configuration read at start-up. *)
Variable config : PowerPlatformConfig.

(** [JSON.stringify(value, null, 2)], the runtime's. *)
Variable JSON_stringify : Json -> jsstring.

(** The message of the [TypeError] the engine throws when a property of
    [null] is read. *)
Variable null_property_message : jsstring.

(** [records.value], for [records] a parsed body ([None] is [undefined]). *)
Definition records_value (records : Json) : Result (option Json) :=
  match records with
  | JNull => Err (TypeError null_property_message)
  | JObject members => Ok (own_property (js "value") members)
  | _ => Ok None
  end.

(** [v?.length] *)
Definition optional_length (v : option Json) : option Json :=
  match v with
  | None => None
  | Some JNull => None
  | Some (JString s) => Some (JNumber (Z.of_nat (List.length s)))
  | Some (JArray items) => Some (JNumber (Z.of_nat (List.length items)))
  | Some (JObject members) => own_property (js "length") members
  | Some (JBool _) => None
  | Some (JNumber _) => None
  end.

(** [n || 0] *)
Definition or_zero (n : option Json) : Json :=
  match n with
  | Some v => if json_truthy v then v else JNumber 0
  | None => JNumber 0
  end.

(** [records.value?.length || 0] *)
Definition recordCount (records : Json) : Result Json :=
  match records_value records with
  | Err e => Err e
  | Ok v => Ok (or_zero (optional_length v))
  end.

(** The [try] block of a handler: the service, the operation on it, and the
    text made of its result. *)
Definition tool_try (operation : Task Json) (text_of : Json -> Result jsstring)
    (env : Env) (s : Server) : Result jsstring * Server :=
  match getPowerPlatformService config s with
  | (Err e, s1) => (Err e, s1)
  | (Ok service, s1) =>
      match on_service env operation service s1 with
      | (Err e, s2) => (Err e, s2)
      | (Ok data, s2) => (text_of data, s2)
      end
  end.

(** A handler: the [try] block, and the [catch] that logs the error and
    answers with its text. *)
Definition tool_handler (label failed : jsstring) (operation : Task Json)
    (text_of : Json -> Result jsstring) (env : Env) (s : Server) : ToolResult * Server :=
  match tool_try operation text_of env s with
  | (Ok text, s') => (text_result text, s')
  | (Err error, s') =>
      (text_result (failed ++ error_toString error), with_log (LogError label error) s')
  end.

Definition get_entity_metadata (entityName : jsstring) :=
  tool_handler (js "Error getting entity metadata:") (js "Failed to get entity metadata: ")
    (getEntityMetadata config entityName)
    (fun metadata =>
       Ok (js "Entity metadata for '" ++ entityName ++ js "':" ++ blank_line
           ++ JSON_stringify metadata)).

Definition get_entity_attributes (entityName : jsstring) :=
  tool_handler (js "Error getting entity attributes:")
    (js "Failed to get entity attributes: ")
    (getEntityAttributes config entityName)
    (fun attributes =>
       Ok (js "Attributes for entity '" ++ entityName ++ js "':" ++ blank_line
           ++ JSON_stringify attributes)).

Definition get_entity_attribute (entityName attributeName : jsstring) :=
  tool_handler (js "Error getting entity attribute:")
    (js "Failed to get entity attribute: ")
    (getEntityAttribute config entityName attributeName)
    (fun attribute =>
       Ok (js "Attribute '" ++ attributeName ++ js "' for entity '" ++ entityName
           ++ js "':" ++ blank_line ++ JSON_stringify attribute)).

Definition get_global_option_set (optionSetName : jsstring) :=
  tool_handler (js "Error getting global option set:")
    (js "Failed to get global option set: ")
    (getGlobalOptionSet config optionSetName)
    (fun optionSet =>
       Ok (js "Global option set '" ++ optionSetName ++ js "':" ++ blank_line
           ++ JSON_stringify optionSet)).

Definition get_record (entityNamePlural recordId : jsstring) :=
  tool_handler (js "Error getting record:") (js "Failed to get record: ")
    (getRecord config entityNamePlural recordId)
    (fun record =>
       Ok (js "Record from '" ++ entityNamePlural ++ js "' with ID '" ++ recordId
           ++ js "':" ++ blank_line ++ JSON_stringify record)).

Definition query_records (entityNamePlural filter : jsstring)
    (maxRecords : option jsnumber) :=
  tool_handler (js "Error querying records:") (js "Failed to query records: ")
    (query_records_tool config entityNamePlural filter maxRecords)
    (fun records =>
       match recordCount records with
       | Err e => Err e
       | Ok count =>
           Ok (js "Retrieved " ++ template_string count ++ js " records from '"
               ++ entityNamePlural ++ js "' with filter '" ++ filter ++ js "':"
               ++ blank_line ++ JSON_stringify records)
       end).

(** [get-entity-relationships], whose operation is the [Promise.all] of two
    calls: the answer once the completions of [schedule] have been taken,
    [None] while the operation is still pending. *)
Definition get_entity_relationships (entityName : jsstring) (now1 now2 : Z)
    (schedule : list Completion) (s : Server) : option (ToolResult * Server) :=
  match getPowerPlatformService config s with
  | (Err error, s1) =>
      Some (text_result (js "Failed to get entity relationships: " ++ error_toString error),
            with_log (LogError (js "Error getting entity relationships:") error) s1)
  | (Ok service, s1) =>
      let p := relationship_calls config entityName now1 now2 schedule
                 (new_world service) in
      let s2 :=
        {| powerPlatformService := Some (fields (world p));
           stderr := stderr s1
                     ++ map (fun line => LogError (fst line) (snd line))
                          (console (world p));
           wire := wire s1 ++ network (world p) |} in
      match getEntityRelationships config entityName now1 now2 schedule
              (new_world service) with
      | None => None
      | Some (Err error) =>
          Some (text_result (js "Failed to get entity relationships: "
                             ++ error_toString error),
                with_log (LogError (js "Error getting entity relationships:") error) s2)
      | Some (Ok relationships) =>
          Some (text_result
                  (js "Relationships for entity '" ++ entityName ++ js "':" ++ blank_line
                   ++ JSON_stringify
                        (JObject [(js "oneToMany", oneToMany relationships);
                                  (js "manyToMany", manyToMany relationships)])),
                s2)
      end
  end.

(** The tools that call one operation, with their arguments. *)
Inductive ToolCall : Type :=
| CallGetEntityMetadata (entityName : jsstring)
| CallGetEntityAttributes (entityName : jsstring)
| CallGetEntityAttribute (entityName attributeName : jsstring)
| CallGetGlobalOptionSet (optionSetName : jsstring)
| CallGetRecord (entityNamePlural recordId : jsstring)
| CallQueryRecords (entityNamePlural filter : jsstring) (maxRecords : option jsnumber).

Definition handle (tc : ToolCall) : Env -> Server -> ToolResult * Server :=
  match tc with
  | CallGetEntityMetadata n => get_entity_metadata n
  | CallGetEntityAttributes n => get_entity_attributes n
  | CallGetEntityAttribute n a => get_entity_attribute n a
  | CallGetGlobalOptionSet n => get_global_option_set n
  | CallGetRecord n i => get_record n i
  | CallQueryRecords n f m => query_records n f m
  end.

(** The operation a tool calls, and the beginning of its failure text. *)
Definition operation_of (tc : ToolCall) : Operation :=
  match tc with
  | CallGetEntityMetadata n => GetEntityMetadata n
  | CallGetEntityAttributes n => GetEntityAttributes n
  | CallGetEntityAttribute n a => GetEntityAttribute n a
  | CallGetGlobalOptionSet n => GetGlobalOptionSet n
  | CallGetRecord n i => GetRecord n i
  | CallQueryRecords n f m => QueryRecords n f (Some (maxRecords_or_50 m))
  end.

Definition failure_prefix (tc : ToolCall) : jsstring :=
  match tc with
  | CallGetEntityMetadata _ => js "Failed to get entity metadata: "
  | CallGetEntityAttributes _ => js "Failed to get entity attributes: "
  | CallGetEntityAttribute _ _ => js "Failed to get entity attribute: "
  | CallGetGlobalOptionSet _ => js "Failed to get global option set: "
  | CallGetRecord _ _ => js "Failed to get record: "
  | CallQueryRecords _ _ _ => js "Failed to query records: "
  end.

End Tools.

(* ================================================================= *)
(** ** Sample servers *)

(** The message V8 gives the [TypeError] for [null.value]. *)
Definition v8_null_value_message : jsstring :=
  js "Cannot read properties of null (reading 'value')".

(** A configuration without a client identifier. *)
Definition config_without_client : PowerPlatformConfig :=
  POWERPLATFORM_CONFIG
    {| POWERPLATFORM_URL := Some (js "https://org.crm.dynamics.com");
       POWERPLATFORM_CLIENT_ID := None;
       POWERPLATFORM_CLIENT_SECRET := Some (js "secret");
       POWERPLATFORM_TENANT_ID := Some (js "tenant") |}.

(** A server whose service holds the token [old], good until 5000. *)
Definition server_with_token : Server :=
  {| powerPlatformService := Some (fields world_fresh); stderr := []; wire := [] |}.

(** The remote API answers with two records. *)
Definition env_two_records : Env :=
  {| clock := 2000;
     authority := authority env_granting;
     remote := fun _ =>
       Ok {| resp_data :=
               JObject [(js "value",
                         JArray [JObject [(js "name", JString (js "Acme"))];
                                 JObject [(js "name", JString (js "Initech"))]])] |} |}.

(** The remote API answers with the body [null]. *)
Definition env_null_body : Env :=
  {| clock := 2000;
     authority := authority env_granting;
     remote := fun _ => Ok {| resp_data := JNull |} |}.

(* ================================================================= *)
(** * Properties *)

(** ** Running sequenced and guarded computations *)

Lemma run_bind {A B : Type} (env : Env) (t : Task A) (f : A -> Task B) (w : World) :
  run env (bind t f) w =
  match run env t w with
  | (Ok a, w') => run env (f a) w'
  | (Err e, w') => (Err e, w')
  end.
Proof.
  revert w; induction t; intros w; simpl; auto.
Qed.

Lemma run_try_catch {A : Type} (env : Env) (t : Task A) (h : JsError -> Task A)
    (w : World) :
  run env (try_catch t h) w =
  match run env t w with
  | (Ok a, w') => (Ok a, w')
  | (Err e, w') => run env (h e) w'
  end.
Proof.
  revert w; induction t; intros w; simpl; auto.
Qed.

(** Alone, a method that is awaited runs as if it were called in place. *)
Lemma run_await_method {A : Type} (env : Env) (t : Task A) (w : World) :
  run env (await_method t) w = run env t w.
Proof.
  unfold await_method. rewrite run_try_catch, run_bind.
  destruct (run env t w) as [[a|e] w']; reflexivity.
Qed.

(** Running alone is advancing to each network [await] and taking the
    answer of the environment at once. *)
Lemma run_advance {A : Type} (env : Env) (t : Task A) (w : World) :
  run env t w =
  match advance (clock env) t w with
  | (Settled r, w') => (r, w')
  | (PendingToken sc k, w') => run env (k (authority env sc)) w'
  | (PendingHttp rq k, w') => run env (k (remote env rq)) w'
  end.
Proof.
  revert w; induction t; intros w; simpl; auto.
Qed.

(** A run only adds to the list of issued operations. *)
Lemma run_network_grows {A : Type} (env : Env) (t : Task A) (w : World) :
  exists calls, network (snd (run env t w)) = network w ++ calls.
Proof.
  revert w; induction t; intros w; simpl;
    try (exists []; rewrite app_nil_r; reflexivity); auto.
  - destruct (IHt (with_accessToken v w)) as [c Hc]. exists c. exact Hc.
  - destruct (IHt (with_tokenExpirationTime v w)) as [c Hc]. exists c. exact Hc.
  - destruct (IHt (with_console label e w)) as [c Hc]. exists c. exact Hc.
  - destruct (H (authority env scopes) (with_call (TokenExchange scopes) w)) as [c Hc].
    exists (TokenExchange scopes :: c). rewrite Hc. simpl.
    rewrite <- app_assoc. reflexivity.
  - destruct (H (remote env req) (with_call (HttpCall req) w)) as [c Hc].
    exists (HttpCall req :: c). rewrite Hc. simpl.
    rewrite <- app_assoc. reflexivity.
Qed.

(** ** The exchange *)

Lemma string_truthy_Some (s : option jsstring) :
  string_truthy s = true -> exists c t, s = Some (c :: t).
Proof.
  destruct s as [[|c t]|]; simpl; intros H; try discriminate. eauto.
Qed.

Lemma usable_token_nonempty r token :
  usable_token r = Some token -> token <> [].
Proof.
  destruct r as [[result|]|e]; simpl; try discriminate.
  destruct (string_truthy (res_accessToken result)) eqn:E; try discriminate.
  apply string_truthy_Some in E. destruct E as (c & t & E).
  rewrite E. intros H; inversion H; discriminate.
Qed.

(** An answer of the authority either carries a usable token or is one of
    the failures. *)
Lemma usable_token_None_iff r :
  usable_token r = None <-> exchange_fails r.
Proof.
  unfold exchange_fails. split.
  - destruct r as [[result|]|e]; simpl; eauto.
    destruct (string_truthy (res_accessToken result)) eqn:E.
    + apply string_truthy_Some in E. destruct E as (c & t & E).
      rewrite E. discriminate.
    + intros _. right. right. eauto.
  - intros [[e ->]|[->|(result & -> & E)]]; simpl; auto. now rewrite E.
Qed.

Lemma usable_token_Some r token :
  usable_token r = Some token ->
  exists result, r = Ok (Some result) /\ res_accessToken result = Some token
                 /\ string_truthy (Some token) = true.
Proof.
  destruct r as [[result|]|e]; simpl; try discriminate.
  destruct (string_truthy (res_accessToken result)) eqn:E; try discriminate.
  intros H. exists result. rewrite H in E. auto.
Qed.

Section ExchangeFacts.

Variable config : PowerPlatformConfig.
Variable env : Env.

(** A successful exchange stores what it received and returns the token. *)
Lemma run_refresh_ok (w : World) result token :
  authority env (token_scopes config) = Ok (Some result) ->
  res_accessToken result = Some token ->
  string_truthy (Some token) = true ->
  run env (refresh_access_token config) w =
  (Ok token, refreshed (token_scopes config) token (res_expiresOn result) w).
Proof.
  intros Ha Ht Hn.
  unfold refresh_access_token. rewrite run_try_catch.
  unfold acquire_new_token, acquireTokenByClientCredential. simpl.
  rewrite Ha. simpl. rewrite Ht, Hn. simpl.
  unfold refreshed. destruct (res_expiresOn result); reflexivity.
Qed.

(** A failed exchange changes no field: the call and a console line are all
    it leaves, and the error is always the same. *)
Lemma run_refresh_fail (w : World) :
  usable_token (authority env (token_scopes config)) = None ->
  exists cause,
    run env (refresh_access_token config) w =
    (Err (Error (js "Authentication failed")),
     with_console (js "Error acquiring access token:") cause
       (with_call (TokenExchange (token_scopes config)) w)).
Proof.
  intros Hu.
  unfold refresh_access_token. rewrite run_try_catch.
  unfold acquire_new_token, acquireTokenByClientCredential. simpl.
  destruct (authority env (token_scopes config)) as [[result|]|e]; simpl in *.
  - destruct (string_truthy (res_accessToken result)) eqn:E.
    + apply string_truthy_Some in E. destruct E as (c & t & E).
      rewrite E in Hu. discriminate.
    + simpl. eauto.
  - eauto.
  - eauto.
Qed.

(** [getAccessToken] with a fresh token in the cache. *)
Lemma run_getAccessToken_fresh (w : World) :
  token_is_fresh (fields w) (clock env) = true ->
  exists token, accessToken (fields w) = Some token
                /\ run env (getAccessToken config) w = (Ok token, w).
Proof.
  intros Hf. unfold getAccessToken. simpl.
  destruct (accessToken (fields w)) as [token|] eqn:E.
  - exists token. rewrite Hf. auto.
  - unfold token_is_fresh in Hf. rewrite E in Hf. discriminate.
Qed.

(** [getAccessToken] without one. *)
Lemma run_getAccessToken_stale (w : World) :
  token_is_fresh (fields w) (clock env) = false ->
  run env (getAccessToken config) w = run env (refresh_access_token config) w.
Proof.
  intros Hf. unfold getAccessToken. simpl.
  destruct (accessToken (fields w)); [rewrite Hf|]; reflexivity.
Qed.

End ExchangeFacts.

(** ** The credential cache *)

(** The constructor's fields are well formed, and every run of
    [getAccessToken] keeps them so. *)
Lemma cache_ok_initial : cache_ok initial_fields.
Proof. unfold cache_ok; simpl; discriminate. Qed.

Lemma token_is_fresh_spec (f : ServiceFields) (now : Z) :
  cache_ok f ->
  token_is_fresh f now = true <->
  (exists token, accessToken f = Some token) /\ now < tokenExpirationTime f.
Proof.
  unfold cache_ok, token_is_fresh. intros Hok.
  destruct (accessToken f) as [[|c t]|]; simpl.
  - exfalso. apply Hok. reflexivity.
  - rewrite Z.gtb_ltb, Z.ltb_lt. split; [intros H; split; eauto | tauto].
  - split; [discriminate | intros [[token H] _]; discriminate].
Qed.

Lemma getAccessToken_keeps_cache_ok config env (w : World) :
  cache_ok (fields w) ->
  cache_ok (fields (snd (run env (getAccessToken config) w))).
Proof.
  intros Hok.
  destruct (token_is_fresh (fields w) (clock env)) eqn:Hf.
  - destruct (run_getAccessToken_fresh config env w Hf) as (token & _ & ->). exact Hok.
  - rewrite (run_getAccessToken_stale config env w Hf).
    destruct (usable_token (authority env (token_scopes config))) as [token|] eqn:Hu.
    + pose proof (usable_token_nonempty _ _ Hu) as Hne.
      destruct (usable_token_Some _ _ Hu) as (result & Ha & Ht & Hn).
      rewrite (run_refresh_ok config env w result token Ha Ht Hn).
      unfold refreshed, cache_ok. destruct (res_expiresOn result); simpl; congruence.
    + destruct (run_refresh_fail config env w Hu) as (cause & ->). exact Hok.
Qed.

(** C2.  With a cached token whose expiration time is strictly later than
    the current time, [getAccessToken] returns that token and issues no
    network operation (the world is left as it was); with no cached token,
    or an expiration time at or before the current time, it issues exactly
    one client-credential exchange, and returns the token that exchange
    brings. *)
Theorem getAccessToken_cache_rule config env (w : World) :
  cache_ok (fields w) ->
  (forall token,
     accessToken (fields w) = Some token ->
     clock env < tokenExpirationTime (fields w) ->
     run env (getAccessToken config) w = (Ok token, w)
     /\ network (snd (run env (getAccessToken config) w)) = network w)
  /\
  (accessToken (fields w) = None \/ tokenExpirationTime (fields w) <= clock env ->
   network (snd (run env (getAccessToken config) w))
     = network w ++ [TokenExchange (token_scopes config)]
   /\ forall token,
        usable_token (authority env (token_scopes config)) = Some token ->
        fst (run env (getAccessToken config) w) = Ok token).
Proof.
  intros Hok. split.
  - intros token Ht Hlt.
    assert (Hf : token_is_fresh (fields w) (clock env) = true)
      by (apply token_is_fresh_spec; eauto).
    destruct (run_getAccessToken_fresh config env w Hf) as (token' & Ht' & Hr).
    rewrite Hr. simpl. split; congruence.
  - intros Hstale.
    assert (Hf : token_is_fresh (fields w) (clock env) = false).
    { destruct (token_is_fresh (fields w) (clock env)) eqn:E; auto.
      apply token_is_fresh_spec in E; auto. destruct E as [[token Ht] Hlt].
      destruct Hstale as [Hn | Hle]; [congruence | lia]. }
    rewrite (run_getAccessToken_stale config env w Hf).
    destruct (usable_token (authority env (token_scopes config))) as [token|] eqn:Hu.
    + destruct (usable_token_Some _ _ Hu) as (result & Ha & Ht & Hn).
      rewrite (run_refresh_ok config env w result token Ha Ht Hn).
      split.
      * unfold refreshed. destruct (res_expiresOn result); reflexivity.
      * intros token' H. inversion H. reflexivity.
    + destruct (run_refresh_fail config env w Hu) as (cause & ->).
      split; [reflexivity | discriminate].
Qed.

Lemma getAccessToken_cache_rule_witness :
  cache_ok (fields world_fresh)
  /\ run env_granting (getAccessToken sample_config) world_fresh
      = (Ok (js "old"), world_fresh)
  /\ network (snd (run env_granting (getAccessToken sample_config) world_expired))
      = [TokenExchange (token_scopes sample_config)]
  /\ fst (run env_granting (getAccessToken sample_config) world_expired)
      = Ok (js "new").
Proof.
  assert (Hok1 : cache_ok (fields world_fresh)) by (unfold cache_ok; simpl; discriminate).
  assert (Hok2 : cache_ok (fields world_expired)) by (unfold cache_ok; simpl; discriminate).
  split; [exact Hok1|]. split.
  - apply (proj1 (getAccessToken_cache_rule sample_config env_granting world_fresh Hok1)).
    + reflexivity.
    + simpl. lia.
  - destruct (proj2 (getAccessToken_cache_rule sample_config env_granting world_expired Hok2))
      as [Hn Hr].
    + right. simpl. lia.
    + split; [exact Hn | apply Hr; reflexivity].
Defined.

(** C3, as the code has it.  After a successful exchange the stored token
    is the new one; the stored expiration time is the reported expiry minus
    300000 ms when the result reports an expiry, and is left as it was when
    the result reports none. *)
Theorem successful_exchange_stores config env (w : World) result token :
  token_is_fresh (fields w) (clock env) = false ->
  authority env (token_scopes config) = Ok (Some result) ->
  res_accessToken result = Some token ->
  token <> [] ->
  fst (run env (getAccessToken config) w) = Ok token
  /\ accessToken (fields (snd (run env (getAccessToken config) w))) = Some token
  /\ tokenExpirationTime (fields (snd (run env (getAccessToken config) w)))
     = match res_expiresOn result with
       | Some reported => reported - 300000
       | None => tokenExpirationTime (fields w)
       end.
Proof.
  intros Hf Ha Ht Hne.
  assert (Hn : string_truthy (Some token) = true)
    by (destruct token; [congruence | reflexivity]).
  rewrite (run_getAccessToken_stale config env w Hf).
  rewrite (run_refresh_ok config env w result token Ha Ht Hn).
  unfold refreshed. destruct (res_expiresOn result); simpl; auto.
Qed.

Lemma successful_exchange_stores_witness :
  token_is_fresh (fields world_expired) (clock env_granting) = false
  /\ fst (run env_granting (getAccessToken sample_config) world_expired) = Ok (js "new")
  /\ fields (snd (run env_granting (getAccessToken sample_config) world_expired))
     = {| accessToken := Some (js "new"); tokenExpirationTime := 3700000 |}.
Proof.
  split; [reflexivity|].
  destruct (successful_exchange_stores sample_config env_granting world_expired
              {| res_accessToken := Some (js "new"); res_expiresOn := Some 4000000 |}
              (js "new"))
    as (Hr & Htok & Hexp).
  - reflexivity.
  - reflexivity.
  - reflexivity.
  - discriminate.
  - split; [exact Hr|].
    destruct (fields (snd (run env_granting (getAccessToken sample_config) world_expired))).
    simpl in *. rewrite Htok, Hexp. reflexivity.
Defined.

(** C3, as written, fails: an exchange that succeeds without a reported
    expiry replaces the stored token and keeps the old expiration time. *)
Lemma exchange_without_expiry_updates_token_only :
  authority env_no_expiry (token_scopes sample_config)
    = Ok (Some {| res_accessToken := Some (js "new"); res_expiresOn := None |})
  /\ fields world_expired
     = {| accessToken := Some (js "old"); tokenExpirationTime := 1000 |}
  /\ fst (run env_no_expiry (getAccessToken sample_config) world_expired) = Ok (js "new")
  /\ fields (snd (run env_no_expiry (getAccessToken sample_config) world_expired))
     = {| accessToken := Some (js "new"); tokenExpirationTime := 1000 |}.
Proof. repeat split. Qed.

(** C4.  When the exchange fails (the promise rejects, there is no result,
    or the result has no token), [getAccessToken] fails with the
    authentication error and leaves both fields as they were, so that a
    later call issues the exchange again. *)
Theorem failed_exchange_keeps_cache config env (w : World) :
  token_is_fresh (fields w) (clock env) = false ->
  exchange_fails (authority env (token_scopes config)) ->
  fst (run env (getAccessToken config) w) = Err (Error (js "Authentication failed"))
  /\ fields (snd (run env (getAccessToken config) w)) = fields w
  /\ forall env',
       clock env <= clock env' ->
       network (snd (run env' (getAccessToken config)
                       (snd (run env (getAccessToken config) w))))
       = network (snd (run env (getAccessToken config) w))
         ++ [TokenExchange (token_scopes config)].
Proof.
  intros Hf Hx. apply usable_token_None_iff in Hx.
  rewrite (run_getAccessToken_stale config env w Hf).
  destruct (run_refresh_fail config env w Hx) as (cause & ->). cbn [fst snd].
  split; [reflexivity|]. split; [reflexivity|].
  intros env' Hle.
  set (w1 := with_console _ _ _).
  assert (Hf' : token_is_fresh (fields w1) (clock env') = false).
  { subst w1. simpl. unfold token_is_fresh in *.
    destruct (string_truthy (accessToken (fields w))); simpl in *; auto.
    rewrite Z.gtb_ltb in *. apply Z.ltb_ge. apply Z.ltb_ge in Hf. lia. }
  rewrite (run_getAccessToken_stale config env' w1 Hf').
  destruct (usable_token (authority env' (token_scopes config))) as [token|] eqn:Hu.
  - destruct (usable_token_Some _ _ Hu) as (result & Ha & Ht & Hn).
    rewrite (run_refresh_ok config env' w1 result token Ha Ht Hn).
    unfold refreshed. destruct (res_expiresOn result); reflexivity.
  - destruct (run_refresh_fail config env' w1 Hu) as (cause' & ->). reflexivity.
Qed.

Lemma failed_exchange_keeps_cache_witness :
  exchange_fails (authority env_unreachable (token_scopes sample_config))
  /\ fst (run env_unreachable (getAccessToken sample_config) world_expired)
     = Err (Error (js "Authentication failed"))
  /\ fields (snd (run env_unreachable (getAccessToken sample_config) world_expired))
     = fields world_expired.
Proof.
  assert (Hx : exchange_fails (authority env_unreachable (token_scopes sample_config))).
  { left. eexists. reflexivity. }
  split; [exact Hx|].
  destruct (failed_exchange_keeps_cache sample_config env_unreachable world_expired)
    as (Hr & Hfields & _).
  - reflexivity.
  - exact Hx.
  - split; assumption.
Defined.

(** The only error [getAccessToken] throws. *)
Lemma getAccessToken_throws config env (w : World) e :
  fst (run env (getAccessToken config) w) = Err e ->
  e = Error (js "Authentication failed").
Proof.
  destruct (token_is_fresh (fields w) (clock env)) eqn:Hf.
  - destruct (run_getAccessToken_fresh config env w Hf) as (token & _ & ->).
    discriminate.
  - rewrite (run_getAccessToken_stale config env w Hf).
    destruct (usable_token (authority env (token_scopes config))) as [token|] eqn:Hu.
    + destruct (usable_token_Some _ _ Hu) as (result & Ha & Ht & Hn).
      rewrite (run_refresh_ok config env w result token Ha Ht Hn). discriminate.
    + destruct (run_refresh_fail config env w Hu) as (cause & ->).
      simpl. congruence.
Qed.

(** C10.  Whatever made the acquisition fail, the error [getAccessToken]
    throws is [new Error('Authentication failed')]: two failures, of any
    cause, throw equal errors. *)
Theorem authentication_error_is_fixed config env1 env2 (w1 w2 : World) e1 e2 :
  fst (run env1 (getAccessToken config) w1) = Err e1 ->
  fst (run env2 (getAccessToken config) w2) = Err e2 ->
  e1 = Error (js "Authentication failed")
  /\ err_message e1 = js "Authentication failed"
  /\ e1 = e2.
Proof.
  intros H1 H2.
  apply getAccessToken_throws in H1. apply getAccessToken_throws in H2.
  subst. auto.
Qed.

Lemma authentication_error_is_fixed_witness :
  fst (run env_unreachable (getAccessToken sample_config) world_expired)
  = Err (Error (js "Authentication failed"))
  /\ fst (run env_no_token (getAccessToken sample_config) (new_world initial_fields))
     = Err (Error (js "Authentication failed"))
  /\ Error (js "Authentication failed") = Error (js "Authentication failed").
Proof.
  split; [reflexivity|]. split; [reflexivity|].
  apply (authentication_error_is_fixed sample_config env_unreachable env_no_token
           world_expired (new_world initial_fields)); reflexivity.
Defined.

(** ** The request primitive *)

Section RequestFacts.

Variable config : PowerPlatformConfig.
Variable env : Env.

(** [makeRequest], step by step: the token, then the request, and one
    [catch] around both. *)
Lemma run_makeRequest (endpoint : jsstring) (w : World) :
  run env (makeRequest config endpoint) w =
  match run env (getAccessToken config) w with
  | (Ok token, w1) =>
      let w2 := with_call (HttpCall (api_request config endpoint token)) w1 in
      match remote env (api_request config endpoint token) with
      | Ok response => (Ok (resp_data response), w2)
      | Err cause =>
          (Err (Error (js "PowerPlatform API request failed: " ++ error_toString cause)),
           with_console (js "PowerPlatform API request failed:") cause w2)
      end
  | (Err e, w1) =>
      (Err (Error (js "PowerPlatform API request failed: " ++ error_toString e)),
       with_console (js "PowerPlatform API request failed:") e w1)
  end.
Proof.
  unfold makeRequest. rewrite run_try_catch, run_bind, run_await_method.
  destruct (run env (getAccessToken config) w) as [[token|e] w1].
  - unfold axios. simpl.
    destruct (remote env (api_request config endpoint token)); reflexivity.
  - reflexivity.
Qed.

(** What [getAccessToken] returns is what the cache holds afterwards, and it
    issues no HTTP request. *)
Lemma getAccessToken_returns_cached (w : World) token :
  fst (run env (getAccessToken config) w) = Ok token ->
  accessToken (fields (snd (run env (getAccessToken config) w))) = Some token.
Proof.
  destruct (token_is_fresh (fields w) (clock env)) eqn:Hf.
  - destruct (run_getAccessToken_fresh config env w Hf) as (token' & Ht & ->).
    simpl. congruence.
  - rewrite (run_getAccessToken_stale config env w Hf).
    destruct (usable_token (authority env (token_scopes config))) as [token'|] eqn:Hu.
    + destruct (usable_token_Some _ _ Hu) as (result & Ha & Ht & Hn).
      rewrite (run_refresh_ok config env w result token' Ha Ht Hn).
      unfold refreshed. destruct (res_expiresOn result); simpl; congruence.
    + destruct (run_refresh_fail config env w Hu) as (cause & ->). discriminate.
Qed.

Lemma getAccessToken_no_http (w : World) :
  http_requests (network (snd (run env (getAccessToken config) w)))
  = http_requests (network w).
Proof.
  unfold http_requests.
  destruct (token_is_fresh (fields w) (clock env)) eqn:Hf.
  - destruct (run_getAccessToken_fresh config env w Hf) as (token' & Ht & ->).
    reflexivity.
  - rewrite (run_getAccessToken_stale config env w Hf).
    destruct (usable_token (authority env (token_scopes config))) as [token'|] eqn:Hu.
    + destruct (usable_token_Some _ _ Hu) as (result & Ha & Ht & Hn).
      rewrite (run_refresh_ok config env w result token' Ha Ht Hn).
      unfold refreshed. destruct (res_expiresOn result); simpl;
        rewrite flat_map_app, app_nil_r; reflexivity.
    + destruct (run_refresh_fail config env w Hu) as (cause & ->). simpl.
      rewrite flat_map_app, app_nil_r. reflexivity.
Qed.

End RequestFacts.

(** Every single-request operation is [makeRequest] on its path, unless the
    path itself cannot be built. *)
Lemma call_endpoint config (op : Operation) :
  call config op =
  match endpoint_of op with
  | Ok endpoint => makeRequest config endpoint
  | Err e => Throw e
  end.
Proof. destruct op; reflexivity. Qed.

(** The HTTP requests of one [makeRequest]. *)
Lemma makeRequest_http_requests config env (endpoint : jsstring) (w : World) :
  http_requests (network (snd (run env (makeRequest config endpoint) w)))
  = http_requests (network w)
    ++ match fst (run env (getAccessToken config) w) with
       | Ok token => [api_request config endpoint token]
       | Err _ => []
       end.
Proof.
  pose proof (getAccessToken_no_http config env w) as Hh.
  rewrite run_makeRequest.
  destruct (run env (getAccessToken config) w) as [[token|e] w1]; simpl in *.
  - destruct (remote env (api_request config endpoint token)); simpl;
      unfold http_requests in *; rewrite flat_map_app, Hh; reflexivity.
  - rewrite app_nil_r; exact Hh.
Qed.

(** C7.  The HTTP requests [makeRequest] issues: none when the token cannot
    be had, and otherwise one [GET] of [organizationUrl/endpoint] with the
    four headers, whose bearer token is the one [getAccessToken] has just
    returned, which is also the token the cache holds. *)
Theorem makeRequest_request_shape config env (endpoint : jsstring) (w : World) :
  http_requests (network (snd (run env (makeRequest config endpoint) w)))
  = http_requests (network w)
    ++ match fst (run env (getAccessToken config) w) with
       | Ok token =>
           [ {| req_method := js "GET";
                req_url := organizationUrl config ++ js "/" ++ endpoint;
                req_headers :=
                  [ (js "Authorization", js "Bearer " ++ token);
                    (js "Accept", js "application/json");
                    (js "OData-MaxVersion", js "4.0");
                    (js "OData-Version", js "4.0") ] |} ]
       | Err _ => []
       end
  /\ forall token,
       fst (run env (getAccessToken config) w) = Ok token ->
       accessToken (fields (snd (run env (getAccessToken config) w))) = Some token
       /\ accessToken (fields (snd (run env (makeRequest config endpoint) w)))
          = Some token.
Proof.
  split; [exact (makeRequest_http_requests config env endpoint w)|].
  pose proof (getAccessToken_returns_cached config env w) as Hc.
  rewrite run_makeRequest.
  destruct (run env (getAccessToken config) w) as [[token|e] w1]; simpl in *.
  - intros token' H. inversion H; subst token'. split; [auto|].
    destruct (remote env (api_request config endpoint token)); simpl; auto.
  - discriminate.
Qed.

Lemma makeRequest_request_shape_witness :
  fst (run env_granting (getAccessToken sample_config) world_expired) = Ok (js "new")
  /\ accessToken (fields (snd (run env_granting
                                 (makeRequest sample_config (js "api/data/v9.2/accounts"))
                                 world_expired)))
     = Some (js "new").
Proof.
  split; [reflexivity|].
  apply (proj2 (makeRequest_request_shape sample_config env_granting
                  (js "api/data/v9.2/accounts") world_expired)).
  reflexivity.
Defined.

(** ** The paths *)

(** C8.  [getEntityMetadata] hands [makeRequest] the relative path
    [api/data/v9.2/EntityDefinitions(LogicalName='<entityName>')], and the
    request it issues is for that path under the organization URL. *)
Theorem getEntityMetadata_path config (entityName : jsstring) :
  getEntityMetadata config entityName
  = makeRequest config
      (js "api/data/v9.2/EntityDefinitions(LogicalName='" ++ entityName ++ js "')")
  /\ getEntityMetadata config (js "account")
     = makeRequest config (js "api/data/v9.2/EntityDefinitions(LogicalName='account')")
  /\ forall env (w : World) token,
       fst (run env (getAccessToken config) w) = Ok token ->
       map req_url
         (http_requests (network (snd (run env (getEntityMetadata config entityName) w))))
       = map req_url (http_requests (network w))
         ++ [organizationUrl config ++ js "/"
             ++ js "api/data/v9.2/EntityDefinitions(LogicalName='" ++ entityName ++ js "')"].
Proof.
  split; [reflexivity|]. split; [reflexivity|].
  intros env w token Ht. unfold getEntityMetadata.
  rewrite makeRequest_http_requests, Ht, map_app. reflexivity.
Qed.

Lemma getEntityMetadata_path_witness :
  fst (run env_granting (getAccessToken sample_config) world_fresh) = Ok (js "old")
  /\ map req_url
       (http_requests (network (snd (run env_granting
                                       (getEntityMetadata sample_config (js "account"))
                                       world_fresh))))
     = [js "https://org.crm.dynamics.com/api/data/v9.2/EntityDefinitions(LogicalName='account')"].
Proof.
  split; [reflexivity|].
  apply (proj2 (proj2 (getEntityMetadata_path sample_config (js "account")))
           env_granting world_fresh (js "old")).
  reflexivity.
Defined.

(** *** [encodeURIComponent] *)

Lemma uri_unescaped_ascii (c : N) : uri_unescaped c = true -> (c < 128)%N.
Proof.
  unfold uri_unescaped, in_range. simpl.
  rewrite !orb_true_iff, !andb_true_iff, !N.leb_le, !N.eqb_eq.
  intros H. decompose [and or] H; subst; try lia; try discriminate.
Qed.

Lemma uri_unescaped_not_surrogate (c : N) :
  uri_unescaped c = true ->
  is_leading_surrogate c = false /\ is_trailing_surrogate c = false.
Proof.
  intros H. apply uri_unescaped_ascii in H.
  unfold is_leading_surrogate, is_trailing_surrogate, in_range.
  split; apply andb_false_iff; left; apply N.leb_gt; lia.
Qed.

Lemma encodeURIComponent_cons2 (c d : N) (s : jsstring) :
  encodeURIComponent (c :: d :: s) =
  if uri_unescaped c then
    match encodeURIComponent (d :: s) with
    | Ok r => Ok (c :: r)
    | Err e => Err e
    end
  else if is_trailing_surrogate c then Err uri_malformed
  else if is_leading_surrogate c then
    if is_trailing_surrogate d then
      match encodeURIComponent s with
      | Ok r => Ok (escape_code_point (surrogate_pair_to_code_point c d) ++ r)
      | Err e => Err e
      end
    else Err uri_malformed
  else
    match encodeURIComponent (d :: s) with
    | Ok r => Ok (escape_code_point c ++ r)
    | Err e => Err e
    end.
Proof. reflexivity. Qed.

Lemma well_formed_cons2 (c d : N) (s : jsstring) :
  well_formed (c :: d :: s) =
  if is_trailing_surrogate c then false
  else if is_leading_surrogate c then is_trailing_surrogate d && well_formed s
  else well_formed (d :: s).
Proof. reflexivity. Qed.

(** [encodeURIComponent] succeeds on exactly the well-formed strings, and
    its only error is [URIError: URI malformed]. *)
Lemma encodeURIComponent_total (s : jsstring) :
  (well_formed s = true -> exists r, encodeURIComponent s = Ok r)
  /\ (well_formed s = false -> encodeURIComponent s = Err uri_malformed).
Proof.
  enough (H : ((well_formed s = true -> exists r, encodeURIComponent s = Ok r)
               /\ (well_formed s = false -> encodeURIComponent s = Err uri_malformed))
              /\ forall c,
                  (well_formed (c :: s) = true -> exists r, encodeURIComponent (c :: s) = Ok r)
                  /\ (well_formed (c :: s) = false ->
                      encodeURIComponent (c :: s) = Err uri_malformed))
    by exact (proj1 H).
  induction s as [|d s [[IHt IHf] IHc]].
  - split; [split; [simpl; eauto | discriminate]|].
    intros c. simpl.
    destruct (uri_unescaped c) eqn:Eu.
    + destruct (uri_unescaped_not_surrogate c Eu) as [-> ->]. split; [eauto | discriminate].
    + destruct (is_trailing_surrogate c); [split; [discriminate | reflexivity]|].
      destruct (is_leading_surrogate c); [split; [discriminate | reflexivity]|].
      split; [eauto | discriminate].
  - split; [exact (IHc d)|].
    intros c. destruct (IHc d) as [IHdt IHdf].
    rewrite (encodeURIComponent_cons2 c d s), (well_formed_cons2 c d s).
    destruct (uri_unescaped c) eqn:Eu.
    + destruct (uri_unescaped_not_surrogate c Eu) as [-> ->]. split.
      * intros H. destruct (IHdt H) as [r ->]. eauto.
      * intros H. rewrite (IHdf H). reflexivity.
    + destruct (is_trailing_surrogate c); [split; [discriminate | reflexivity]|].
      destruct (is_leading_surrogate c).
      * destruct (is_trailing_surrogate d); simpl.
        -- split.
           ++ intros H. destruct (IHt H) as [r ->]. eauto.
           ++ intros H. rewrite (IHf H). reflexivity.
        -- split; [discriminate | reflexivity].
      * split.
        -- intros H. destruct (IHdt H) as [r ->]. eauto.
        -- intros H. rewrite (IHdf H). reflexivity.
Qed.

(** A character that is not escaped is copied; any other ASCII character
    becomes one [%XX]. *)
Lemma encodeURIComponent_ascii (c : N) :
  (c < 128)%N ->
  encodeURIComponent [c] = Ok (if uri_unescaped c then [c] else percent_escape c).
Proof.
  intros Hc. simpl.
  destruct (uri_unescaped c); [reflexivity|].
  unfold is_trailing_surrogate, is_leading_surrogate, in_range.
  replace (56320 <=? c)%N with false by (symmetry; apply N.leb_gt; lia).
  replace (55296 <=? c)%N with false by (symmetry; apply N.leb_gt; lia).
  simpl. unfold escape_code_point, utf8_octets.
  replace (c <? 128)%N with true by (symmetry; apply N.ltb_lt; lia).
  reflexivity.
Qed.

(** The apostrophe is among the characters that are not escaped. *)
Lemma apostrophe_unescaped : uri_unescaped 39 = true.
Proof. reflexivity. Qed.

Lemma hex_digit_unescaped (d : N) :
  (d < 16)%N -> uri_unescaped (hex_digit d) = true.
Proof.
  intros Hd.
  assert (Hin : In d (map N.of_nat (seq 0 16))).
  { rewrite <- (N2Nat.id d). apply in_map. apply in_seq. lia. }
  assert (Hall : forallb (fun x => uri_unescaped (hex_digit x))
                   (map N.of_nat (seq 0 16)) = true) by reflexivity.
  rewrite forallb_forall in Hall. exact (Hall d Hin).
Qed.

Lemma shiftr_bound (x n b m : N) :
  m = (b * 2 ^ n)%N -> (x < m)%N -> (N.shiftr x n < b)%N.
Proof.
  intros -> Hx. rewrite N.shiftr_div_pow2.
  apply N.Div0.div_lt_upper_bound. lia.
Qed.

Lemma land_63_bound (x : N) : (N.land x 63 < 64)%N.
Proof.
  change 63%N with (N.ones 6). rewrite N.land_ones.
  apply N.mod_lt. discriminate.
Qed.

Lemma percent_escape_chars (octet : N) :
  (octet < 256)%N ->
  Forall (fun c => uri_component_char c = true) (percent_escape octet).
Proof.
  intros Ho. unfold percent_escape, uri_component_char.
  repeat constructor.
  - rewrite hex_digit_unescaped; [reflexivity|].
    apply (shiftr_bound octet 4 16 256 eq_refl Ho).
  - rewrite hex_digit_unescaped; [reflexivity|].
    change 15%N with (N.ones 4). rewrite N.land_ones.
    apply N.mod_lt. discriminate.
Qed.

Lemma utf8_octets_bytes (cp : N) :
  (cp < 1114112)%N -> Forall (fun o => (o < 256)%N) (utf8_octets cp).
Proof.
  intros Hcp. unfold utf8_octets.
  pose proof (land_63_bound cp) as L0.
  pose proof (land_63_bound (N.shiftr cp 6)) as L1.
  pose proof (land_63_bound (N.shiftr cp 12)) as L2.
  destruct (cp <? 128)%N eqn:E1; [apply N.ltb_lt in E1; repeat constructor; lia|].
  destruct (cp <? 2048)%N eqn:E2.
  { apply N.ltb_lt in E2.
    pose proof (shiftr_bound cp 6 32 2048 eq_refl E2).
    repeat constructor; lia. }
  destruct (cp <? 65536)%N eqn:E3.
  { apply N.ltb_lt in E3.
    pose proof (shiftr_bound cp 12 16 65536 eq_refl E3).
    repeat constructor; lia. }
  assert (Hcp' : (cp < 2097152)%N) by lia.
  pose proof (shiftr_bound cp 18 8 2097152 eq_refl Hcp').
  repeat constructor; lia.
Qed.

Lemma escape_code_point_chars (cp : N) :
  (cp < 1114112)%N ->
  Forall (fun c => uri_component_char c = true) (escape_code_point cp).
Proof.
  intros Hcp. unfold escape_code_point.
  pose proof (utf8_octets_bytes cp Hcp) as Hb.
  induction Hb as [|o l Ho Hl IH]; [constructor|].
  cbn [flat_map].
  apply Forall_app. split; [apply percent_escape_chars; exact Ho | exact IH].
Qed.

Lemma surrogate_pair_in_range (lead trail : N) :
  is_leading_surrogate lead = true ->
  is_trailing_surrogate trail = true ->
  (surrogate_pair_to_code_point lead trail < 1114112)%N.
Proof.
  unfold is_leading_surrogate, is_trailing_surrogate, in_range,
    surrogate_pair_to_code_point.
  rewrite !andb_true_iff, !N.leb_le. lia.
Qed.

(** The induction that follows [encodeURIComponent]: one code unit at a
    time, or a surrogate pair. *)
Lemma jsstring_pair_ind (P : jsstring -> Prop) :
  P [] ->
  (forall c, P [c]) ->
  (forall c d s, P s -> P (d :: s) -> P (c :: d :: s)) ->
  forall s, P s.
Proof.
  intros H0 H1 H2 s.
  enough (H : P s /\ forall c, P (c :: s)) by exact (proj1 H).
  induction s as [|d s [IHs IHc]].
  - split; [exact H0 | exact H1].
  - split; [exact (IHc d)|]. intros c. apply H2; [exact IHs | exact (IHc d)].
Qed.

(** The characters of an encoding. *)
Lemma encodeURIComponent_chars (s r : jsstring) :
  code_units s ->
  encodeURIComponent s = Ok r ->
  Forall (fun c => uri_component_char c = true) r.
Proof.
  revert r. induction s as [| c | c d s IHs IHd] using jsstring_pair_ind;
    intros r Hs He.
  - inversion He. constructor.
  - inversion Hs as [|? ? Hc _]; subst. simpl in He.
    destruct (uri_unescaped c) eqn:Eu.
    + inversion He. repeat constructor. unfold uri_component_char. now rewrite Eu.
    + destruct (is_trailing_surrogate c); [discriminate|].
      destruct (is_leading_surrogate c); [discriminate|].
      inversion He. rewrite app_nil_r. apply escape_code_point_chars. lia.
  - inversion Hs as [|? ? Hc Hs']; subst.
    inversion Hs' as [|? ? Hd Hs'']; subst.
    rewrite encodeURIComponent_cons2 in He.
    destruct (uri_unescaped c) eqn:Eu.
    + destruct (encodeURIComponent (d :: s)) as [rd|] eqn:Ed; [|discriminate].
      inversion He. constructor; [unfold uri_component_char; now rewrite Eu|].
      apply IHd; auto.
    + destruct (is_trailing_surrogate c); [discriminate|].
      destruct (is_leading_surrogate c) eqn:El.
      * destruct (is_trailing_surrogate d) eqn:Et; [|discriminate].
        destruct (encodeURIComponent s) as [rs|] eqn:Es; [|discriminate].
        inversion He. apply Forall_app. split.
        -- apply escape_code_point_chars. apply surrogate_pair_in_range; assumption.
        -- apply IHs; auto.
      * destruct (encodeURIComponent (d :: s)) as [rd|] eqn:Ed; [|discriminate].
        inversion He. apply Forall_app. split.
        -- apply escape_code_point_chars. lia.
        -- apply IHd; auto.
Qed.

(** *** Reading the encoding back *)









(** The octets of a code point hold that code point. *)
Lemma utf8_code_point_octets (cp : N) :
  (cp < 1114112)%N -> utf8_code_point (utf8_octets cp) = Some cp.
Proof.
  intros Hcp. unfold utf8_octets.
  assert (L : forall x, N.land x 63 = (x mod 64)%N).
  { intros x. change 63%N with (N.ones 6). apply N.land_ones. }
  assert (S6 : forall x, N.shiftr x 6 = (x / 64)%N)
    by (intros x; apply (N.shiftr_div_pow2 x 6)).
  assert (S12 : forall x, N.shiftr x 12 = (x / 64 / 64)%N).
  { intros x. rewrite N.Div0.div_div. apply (N.shiftr_div_pow2 x 12). }
  assert (S18 : forall x, N.shiftr x 18 = (x / 64 / 64 / 64)%N).
  { intros x. rewrite !N.Div0.div_div. apply (N.shiftr_div_pow2 x 18). }
  pose proof (N.Div0.div_mod cp 64) as H1.
  pose proof (N.Div0.div_mod (cp / 64) 64) as H2.
  pose proof (N.Div0.div_mod (cp / 64 / 64) 64) as H3.
  rewrite !L, !S6, !S12, !S18.
  remember (cp / 64 / 64 / 64)%N as q3.
  remember ((cp / 64 / 64) mod 64)%N as m3.
  remember (cp / 64 / 64)%N as q2.
  remember ((cp / 64) mod 64)%N as m2.
  remember (cp / 64)%N as q1.
  remember (cp mod 64)%N as m1.
  destruct (cp <? 128)%N; [reflexivity|].
  destruct (cp <? 2048)%N; [unfold utf8_code_point; f_equal; lia|].
  destruct (cp <? 65536)%N; unfold utf8_code_point; f_equal; lia.
Qed.



(** What is handed to axios keeps the apostrophes of the filter as they
    are; the text stands for the same octets as the one with [%27]. *)
Lemma queryRecords_example_keeps_apostrophes :
  queryRecords_endpoint (js "contacts") (js "name eq 'test'") (Some (Int 10))
  = Ok (js "api/data/v9.2/contacts?$filter=name%20eq%20'test'&$top=10")
  /\ contains (js "%27")
       (js "api/data/v9.2/contacts?$filter=name%20eq%20'test'&$top=10") = false
  /\ percent_equivalent
       (js "api/data/v9.2/contacts?$filter=name%20eq%20'test'&$top=10")
       (js "api/data/v9.2/contacts?$filter=name%20eq%20%27test%27&$top=10").
Proof.
  split; [reflexivity|]. split; [reflexivity|].
  eexists. split; vm_compute; reflexivity.
Qed.


(** *** The row cap of the [query-records] tool *)

Lemma js_injective (s t : string) : js s = js t -> s = t.
Proof.
  assert (Hinv : forall l, map ascii_of_N (map N_of_ascii l) = l).
  { induction l as [|a l IH]; simpl; [reflexivity|].
    now rewrite ascii_N_embedding, IH. }
  unfold js. intros H.
  rewrite <- (string_of_list_ascii_of_string s), <- (string_of_list_ascii_of_string t).
  rewrite <- (Hinv (list_ascii_of_string s)), <- (Hinv (list_ascii_of_string t)).
  now rewrite H.
Qed.

(** Only the integer zero is written ["0"]. *)
Lemma decimal_zero (z : Z) :
  NilZero.string_of_int (Z.to_int z) = "0"%string -> z = 0.
Proof.
  intros H.
  assert (Hp : Z.to_int z <> Decimal.Pos Decimal.Nil).
  { intros E. pose proof (DecimalZ.of_to z) as Hz. rewrite E in Hz.
    simpl in Hz. subst z. discriminate. }
  assert (Hn : Z.to_int z <> Decimal.Neg Decimal.Nil).
  { intros E. pose proof (DecimalZ.of_to z) as Hz. rewrite E in Hz.
    simpl in Hz. subst z. discriminate. }
  pose proof (NilZero.isi (Z.to_int z) Hp Hn) as Hi.
  rewrite H in Hi. simpl in Hi. inversion Hi as [Hz].
  apply DecimalZ.to_int_inj. rewrite <- Hz. reflexivity.
Qed.

Lemma number_toString_zero (n : jsnumber) :
  number_truthy n = true -> number_toString n <> js "0".
Proof.
  destruct n as [z| |]; simpl; try discriminate.
  intros Hz E. apply negb_true_iff, Z.eqb_neq in Hz. apply Hz.
  apply decimal_zero. apply js_injective. exact E.
Qed.

(** C9.  The handler passes [maxRecords || 50]: an absent row cap, and one
    that is 0, -0 or [NaN], reach [queryRecords] as 50, so the row cap that
    reaches it is never falsy and [$top=0] is never asked for. *)
Theorem tool_row_cap_is_never_zero config (entityNamePlural filter : jsstring)
    (maxRecords : option jsnumber) :
  query_records_tool config entityNamePlural filter maxRecords
  = queryRecords config entityNamePlural filter (Some (maxRecords_or_50 maxRecords))
  /\ maxRecords_or_50 (Some (Int 0)) = Int 50
  /\ (maxRecords = None
      \/ (exists n, maxRecords = Some n /\ number_truthy n = false) ->
      maxRecords_or_50 maxRecords = Int 50)
  /\ (forall n, maxRecords = Some n -> number_truthy n = true ->
      maxRecords_or_50 maxRecords = n)
  /\ number_truthy (maxRecords_or_50 maxRecords) = true
  /\ maxRecords_or_50 maxRecords <> Int 0
  /\ number_toString (maxRecords_or_50 maxRecords) <> js "0"
  /\ (forall encoded,
        encodeURIComponent filter = Ok encoded ->
        query_records_tool config entityNamePlural filter maxRecords
        = makeRequest config
            (js "api/data/v9.2/" ++ entityNamePlural ++ js "?$filter=" ++ encoded
             ++ js "&$top=" ++ number_toString (maxRecords_or_50 maxRecords))).
Proof.
  assert (Ht : number_truthy (maxRecords_or_50 maxRecords) = true).
  { destruct maxRecords as [n|]; simpl; [|reflexivity].
    destruct (number_truthy n) eqn:E; [exact E | reflexivity]. }
  split; [reflexivity|]. split; [reflexivity|]. split; [|split; [|split; [|split; [|split]]]].
  - intros [-> | (n & -> & Hn)]; simpl; [reflexivity | now rewrite Hn].
  - intros n -> Hn. simpl. now rewrite Hn.
  - exact Ht.
  - intros E. rewrite E in Ht. discriminate.
  - apply number_toString_zero. exact Ht.
  - intros encoded He. unfold query_records_tool, queryRecords, queryRecords_endpoint.
    rewrite He. reflexivity.
Qed.

Lemma tool_row_cap_is_never_zero_witness :
  (exists n, Some (Int 0) = Some n /\ number_truthy n = false)
  /\ maxRecords_or_50 (Some (Int 0)) = Int 50
  /\ query_records_tool sample_config (js "contacts") (js "name eq 'test'") (Some (Int 0))
     = makeRequest sample_config
         (js "api/data/v9.2/contacts?$filter=name%20eq%20'test'&$top=50").
Proof.
  assert (H : exists n, Some (Int 0) = Some n /\ number_truthy n = false)
    by (exists (Int 0); split; reflexivity).
  split; [exact H|].
  destruct (tool_row_cap_is_never_zero sample_config (js "contacts")
              (js "name eq 'test'") (Some (Int 0)))
    as (_ & _ & Hd & _ & _ & _ & _ & Hp).
  split.
  - apply Hd. right. exact H.
  - rewrite (Hp (js "name%20eq%20'test'") eq_refl). reflexivity.
Defined.

Lemma authentication_outcome_wraps :
  Error (js "PowerPlatform API request failed: Error: Authentication failed")
  = request_error (Error (js "Authentication failed")).
Proof. reflexivity. Qed.

(** ** Calls in flight *)

Opaque js.

Lemma makeRequest_starts_fresh config endpoint now (w : World) :
  token_is_fresh (fields w) now = true ->
  exists token st,
    accessToken (fields w) = Some token
    /\ advance now (makeRequest config endpoint) w
       = (st, with_call (HttpCall (api_request config endpoint token)) w)
    /\ awaited st = Some (HttpCall (api_request config endpoint token))
    /\ http_phase config endpoint st.
Proof.
  intros Hf.
  destruct (accessToken (fields w)) as [token|] eqn:Ht.
  2:{ unfold token_is_fresh in Hf. rewrite Ht in Hf. discriminate. }
  exists token. eexists. split; [reflexivity|].
  unfold makeRequest, getAccessToken. simpl. rewrite Ht, Hf. simpl.
  split; [reflexivity|]. split; [reflexivity|].
  eexists _, _. split; [reflexivity|].
  intros [response|cause] now' w'; simpl; eauto.
Qed.

Lemma makeRequest_starts_stale config endpoint now (w : World) :
  token_is_fresh (fields w) now = false ->
  exists st,
    advance now (makeRequest config endpoint) w
    = (st, with_call (TokenExchange (token_scopes config)) w)
    /\ awaited st = Some (TokenExchange (token_scopes config))
    /\ token_phase config endpoint st.
Proof.
  intros Hf. unfold makeRequest, getAccessToken. simpl.
  destruct (accessToken (fields w)) eqn:Ht; [rewrite Hf|]; simpl;
    (eexists; split; [reflexivity|]; split; [reflexivity|];
     eexists; split; [reflexivity|];
     intros [[result|]|e] now' w'; simpl; eauto;
     destruct (res_accessToken result) as [[|c t]|]; simpl; eauto;
     destruct (res_expiresOn result); simpl;
     (eexists _, _; split; [reflexivity|]; split; [reflexivity|];
      split; [reflexivity|]; solve_http_phase)).
Qed.

(** *** [Promise.all] in general *)

Lemma deliver_settled {A : Type} (c : Completion) (r : Result A) (w : World) :
  deliver c (Settled r) w = (Settled r, w).
Proof. reflexivity. Qed.

(** A settled call stays as it settled. *)
Lemma deliver_stable {A : Type} (c : Completion) (st : Status A) (w : World) r :
  st = Settled r -> fst (deliver c st w) = Settled r.
Proof. intros ->. reflexivity. Qed.

Lemma settle_all_first {A B : Type} (c : option (Result (A * B)))
    (s1 s1' : Status A) (s2 : Status B) :
  combined_ok c s1 s2 ->
  (forall r, s1 = Settled r -> s1' = Settled r) ->
  combined_ok (settle_all c s1' s2) s1' s2.
Proof.
  unfold combined_ok, settle_all. intros Hc Hs.
  destruct c as [[[a b]|e]|].
  - destruct Hc as [H1 H2]. split; [apply Hs|]; assumption.
  - destruct Hc as [H1|H2]; [left; apply Hs|right]; assumption.
  - destruct Hc as (H1 & H2 & H3).
    destruct s1' as [[a|e]| |]; destruct s2 as [[b|e']| |];
      try (exfalso; eapply H2; reflexivity); auto;
      repeat split; intros; congruence.
Qed.

Lemma settle_all_second {A B : Type} (c : option (Result (A * B)))
    (s1 : Status A) (s2 s2' : Status B) :
  combined_ok c s1 s2 ->
  (forall r, s2 = Settled r -> s2' = Settled r) ->
  combined_ok (settle_all c s1 s2') s1 s2'.
Proof.
  unfold combined_ok, settle_all. intros Hc Hs.
  destruct c as [[[a b]|e]|].
  - destruct Hc as [H1 H2]. split; [|apply Hs]; assumption.
  - destruct Hc as [H1|H2]; [left|right; apply Hs]; assumption.
  - destruct Hc as (H1 & H2 & H3).
    destruct s1 as [[a|e]| |]; destruct s2' as [[b|e']| |];
      try (exfalso; eapply H1; reflexivity); auto;
      repeat split; intros; congruence.
Qed.

Lemma settle_all_start {A B : Type} (s1 : Status A) (s2 : Status B) :
  combined_ok (settle_all None s1 s2) s1 s2.
Proof.
  unfold combined_ok, settle_all.
  destruct s1 as [[a|e]| |]; destruct s2 as [[b|e']| |]; auto;
    repeat split; intros; congruence.
Qed.

(** Once the combined promise has settled, no completion changes it. *)
Lemma pool_step_settled {A B : Type} (p : Pool A B) (c : Completion) r :
  combined p = Some r -> combined (pool_step p c) = Some r.
Proof.
  intros H. unfold pool_step.
  destruct (who c).
  - destruct (deliver c (first p) (world p)). simpl. now rewrite H.
  - destruct (deliver c (second p) (world p)). simpl. now rewrite H.
Qed.

Lemma pool_run_settled {A B : Type} (schedule : list Completion) (p : Pool A B) r :
  combined p = Some r -> combined (fold_left pool_step schedule p) = Some r.
Proof.
  revert p. induction schedule as [|c schedule IH]; intros p H; simpl; [exact H|].
  apply IH. apply pool_step_settled. exact H.
Qed.

(** *** One request in flight *)

Lemma side_ok_more config side endpoint (st : Status Json) log more :
  side_ok config side endpoint st log ->
  side_ok config side endpoint st (log ++ more).
Proof.
  destruct st as [[d|e]| |]; simpl; auto.
  - intros (token & response & Hin & Hd). exists token, response.
    split; [apply in_or_app; left|]; assumption.
  - intros [[He (a & Hin & Hu)]|(token & cause & Hin & He)].
    + left. split; [exact He|]. exists a.
      split; [apply in_or_app; left|]; assumption.
    + right. exists token, cause.
      split; [apply in_or_app; left|]; assumption.
Qed.

Lemma log_delivery_more {A : Type} (c : Completion) (st : Status A) log :
  exists more, log_delivery c st log = log ++ more.
Proof.
  unfold log_delivery. destruct (awaited st).
  - destruct (accepts st c); [eauto | exists []; now rewrite app_nil_r].
  - exists []. now rewrite app_nil_r.
Qed.

(** A completion takes a request in flight one phase further, or leaves it. *)
Lemma deliver_side_ok config endpoint (c : Completion) (st : Status Json)
    (w : World) log :
  side_ok config (who c) endpoint st log ->
  side_ok config (who c) endpoint (fst (deliver c st w)) (log_delivery c st log).
Proof.
  intros H. destruct st as [r|sc k|rq k].
  - exact H.
  - simpl in H. destruct H as (k' & E & Hk). inversion E; subst sc k'.
    unfold deliver, log_delivery. simpl.
    destruct (answer c) as [r|r]; [|simpl; eexists; eauto].
    specialize (Hk r (when c) w).
    destruct (usable_token r) as [token|] eqn:Hu.
    + destruct Hk as (st' & w' & -> & Ha & _ & Hp). simpl.
      destruct st' as [?|? ?|? ?]; try discriminate. exact Hp.
    + destruct Hk as (w' & ->). simpl. left.
      split; [exact authentication_outcome_wraps|].
      exists r. split; [|exact Hu].
      apply in_or_app. right. left. reflexivity.
  - simpl in H. destruct H as (token & k' & E & Hk). inversion E; subst rq k'.
    unfold deliver, log_delivery. simpl.
    destruct (answer c) as [r|r]; [simpl; eexists _, _; eauto|].
    destruct (Hk r (when c) w) as (w' & ->). simpl.
    destruct r as [response|cause]; simpl.
    + exists token, response. split; [|reflexivity].
      apply in_or_app. right. left. reflexivity.
    + right. exists token, cause. split; [|reflexivity].
      apply in_or_app. right. left. reflexivity.
Qed.

Lemma pool_step_ok config endpoint1 endpoint2 (p : Pool Json Json) (c : Completion) :
  pool_ok config endpoint1 endpoint2 p ->
  pool_ok config endpoint1 endpoint2 (pool_step p c).
Proof.
  intros (H1 & H2 & Hc). unfold pool_step, pool_ok.
  destruct (who c) eqn:Hw.
  - pose proof (deliver_side_ok config endpoint1 c (first p) (world p) (delivered p)) as Hd.
    rewrite Hw in Hd. specialize (Hd H1).
    pose proof (fun r => deliver_stable c (first p) (world p) r) as Hs.
    destruct (deliver c (first p) (world p)) as [s1 w']. simpl in *.
    split; [exact Hd|]. split.
    + destruct (log_delivery_more c (first p) (delivered p)) as [more ->].
      apply side_ok_more. exact H2.
    + apply settle_all_first with (s1 := first p); assumption.
  - pose proof (deliver_side_ok config endpoint2 c (second p) (world p) (delivered p)) as Hd.
    rewrite Hw in Hd. specialize (Hd H2).
    pose proof (fun r => deliver_stable c (second p) (world p) r) as Hs.
    destruct (deliver c (second p) (world p)) as [s2 w']. simpl in *.
    split; [|split].
    + destruct (log_delivery_more c (second p) (delivered p)) as [more ->].
      apply side_ok_more. exact H1.
    + exact Hd.
    + apply settle_all_second with (s2 := second p); assumption.
Qed.

Lemma pool_run_ok config endpoint1 endpoint2 (schedule : list Completion)
    (p : Pool Json Json) :
  pool_ok config endpoint1 endpoint2 p ->
  pool_ok config endpoint1 endpoint2 (fold_left pool_step schedule p).
Proof.
  revert p. induction schedule as [|c schedule IH]; intros p H; simpl; [exact H|].
  apply IH. apply pool_step_ok. exact H.
Qed.

(** The synchronous part of [makeRequest]: with a fresh token it reads the
    token and defers, and its microtask issues the request with that token,
    whatever the cache holds by then; without one it issues the exchange. *)
Lemma makeRequest_begins_fresh config endpoint now (w : World) :
  token_is_fresh (fields w) now = true ->
  exists token k,
    accessToken (fields w) = Some token
    /\ begin now (makeRequest config endpoint) w = (Deferred k, w)
    /\ forall now' (w' : World),
         exists st,
           advance now' k w'
           = (st, with_call (HttpCall (api_request config endpoint token)) w')
           /\ awaited st = Some (HttpCall (api_request config endpoint token))
           /\ http_phase config endpoint st.
Proof.
  intros Hf.
  destruct (accessToken (fields w)) as [token|] eqn:Ht.
  2:{ unfold token_is_fresh in Hf. rewrite Ht in Hf. discriminate. }
  exists token. eexists. split; [reflexivity|].
  unfold makeRequest, getAccessToken. simpl. rewrite Ht, Hf. simpl.
  split; [reflexivity|].
  intros now' w'. eexists. simpl. split; [reflexivity|]. split; [reflexivity|].
  solve_http_phase.
Qed.

Lemma makeRequest_begins_stale config endpoint now (w : World) :
  token_is_fresh (fields w) now = false ->
  exists st,
    begin now (makeRequest config endpoint) w
    = (Waiting st, with_call (TokenExchange (token_scopes config)) w)
    /\ awaited st = Some (TokenExchange (token_scopes config))
    /\ token_phase config endpoint st.
Proof.
  intros Hf. unfold makeRequest, getAccessToken. simpl.
  destruct (accessToken (fields w)) eqn:Ht; [rewrite Hf|]; simpl;
    (eexists; split; [reflexivity|]; split; [reflexivity|];
     eexists; split; [reflexivity|];
     intros [[result|]|e] now' w'; simpl; eauto;
     destruct (res_accessToken result) as [[|c t]|]; simpl; eauto;
     destruct (res_expiresOn result); simpl;
     (eexists _, _; split; [reflexivity|]; split; [reflexivity|];
      split; [reflexivity|]; solve_http_phase)).
Qed.

(** How two requests start.  A call that finds a fresh token when it reads
    the clock sends its request with it, a call that does not starts an
    exchange, and both have done so before any completion is taken.  The
    operations are issued in the order of the calls, except that the
    request of a first call with a fresh token comes after the exchange of a
    second call without one, the request being issued from a microtask. *)
Lemma pool_start_requests config endpoint1 endpoint2 now1 now2 (w : World) :
  let p0 := pool_start now1 now2 (makeRequest config endpoint1)
              (makeRequest config endpoint2) w in
  pool_ok config endpoint1 endpoint2 p0
  /\ delivered p0 = []
  /\ combined p0 = None
  /\ exists c1 c2,
       awaited (first p0) = Some c1
       /\ awaited (second p0) = Some c2
       /\ network (world p0)
          = network w
            ++ (if token_is_fresh (fields w) now1
                   && negb (token_is_fresh (fields w) now2)
                then [c2; c1] else [c1; c2])
       /\ (token_is_fresh (fields w) now1 = true ->
           exists token,
             accessToken (fields w) = Some token
             /\ c1 = HttpCall (api_request config endpoint1 token))
       /\ (token_is_fresh (fields w) now1 = false ->
           c1 = TokenExchange (token_scopes config))
       /\ (token_is_fresh (fields w) now2 = true ->
           exists token,
             accessToken (fields w) = Some token
             /\ c2 = HttpCall (api_request config endpoint2 token))
       /\ (token_is_fresh (fields w) now2 = false ->
           c2 = TokenExchange (token_scopes config)).
Proof.
  unfold pool_start.
  destruct (token_is_fresh (fields w) now1) eqn:Hf1.
  - destruct (makeRequest_begins_fresh config endpoint1 now1 w Hf1)
      as (token & k1 & Ht & -> & Hk1).
    destruct (token_is_fresh (fields w) now2) eqn:Hf2.
    + destruct (makeRequest_begins_fresh config endpoint2 now2 w Hf2)
        as (token' & k2 & Ht' & -> & Hk2).
      assert (token' = token) by congruence. subst token'.
      cbn [resume].
      destruct (Hk1 now2 w) as (st1 & -> & Ha1 & Hp1).
      destruct (Hk2 now2 (with_call (HttpCall (api_request config endpoint1 token)) w))
        as (st2 & -> & Ha2 & Hp2).
      destruct st1 as [?|? ?|? ?]; try discriminate.
      destruct st2 as [?|? ?|? ?]; try discriminate.
      simpl. split; [repeat split; auto; intros; discriminate|].
      split; [reflexivity|]. split; [reflexivity|].
      eexists _, _. split; [exact Ha1|]. split; [exact Ha2|].
      split; [now rewrite <- app_assoc|].
      repeat split; try discriminate; intros _; exists token; auto.
    + destruct (makeRequest_begins_stale config endpoint2 now2 w Hf2)
        as (st2 & -> & Ha2 & Hp2).
      cbn [resume].
      destruct (Hk1 now2 (with_call (TokenExchange (token_scopes config)) w))
        as (st1 & -> & Ha1 & Hp1).
      destruct st1 as [?|? ?|? ?]; try discriminate.
      destruct st2 as [?|? ?|? ?]; try discriminate.
      simpl. split; [repeat split; auto; intros; discriminate|].
      split; [reflexivity|]. split; [reflexivity|].
      eexists _, _. split; [exact Ha1|]. split; [exact Ha2|].
      split; [now rewrite <- app_assoc|].
      inversion Ha2.
      repeat split; try discriminate; intros _; exists token; auto.
  - destruct (makeRequest_begins_stale config endpoint1 now1 w Hf1)
      as (st1 & -> & Ha1 & Hp1).
    set (w1 := with_call _ w).
    destruct (token_is_fresh (fields w) now2) eqn:Hf2.
    + assert (Hf2' : token_is_fresh (fields w1) now2 = true) by exact Hf2.
      destruct (makeRequest_begins_fresh config endpoint2 now2 w1 Hf2')
        as (token & k2 & Ht & -> & Hk2).
      cbn [resume].
      destruct (Hk2 now2 w1) as (st2 & -> & Ha2 & Hp2).
      destruct st1 as [?|? ?|? ?]; try discriminate.
      destruct st2 as [?|? ?|? ?]; try discriminate.
      simpl. split; [repeat split; auto; intros; discriminate|].
      split; [reflexivity|]. split; [reflexivity|].
      eexists _, _. split; [exact Ha1|]. split; [exact Ha2|].
      split; [now rewrite <- app_assoc|].
      inversion Ha1.
      repeat split; try discriminate; intros _; exists token; auto.
    + assert (Hf2' : token_is_fresh (fields w1) now2 = false) by exact Hf2.
      destruct (makeRequest_begins_stale config endpoint2 now2 w1 Hf2')
        as (st2 & -> & Ha2 & Hp2).
      cbn [resume].
      destruct st1 as [?|? ?|? ?]; try discriminate.
      destruct st2 as [?|? ?|? ?]; try discriminate.
      simpl. split; [repeat split; auto; intros; discriminate|].
      split; [reflexivity|]. split; [reflexivity|].
      eexists _, _. split; [exact Ha1|]. split; [exact Ha2|].
      split; [now rewrite <- app_assoc|].
      inversion Ha1. inversion Ha2.
      repeat split; try discriminate; auto.
Qed.

(** Under interleaving too, a request leaves with the token the cache
    holds at that moment: when the call starts with a fresh token, and when
    it is resumed by the answer to its exchange. *)
Lemma request_in_flight_carries_cached_token config (endpoint : jsstring) :
  (forall now (w : World) st w' rq,
     advance now (makeRequest config endpoint) w = (st, w') ->
     awaited st = Some (HttpCall rq) ->
     exists token,
       rq = api_request config endpoint token /\ accessToken (fields w') = Some token)
  /\
  (forall (st : Status Json) (c : Completion) (w : World) st' w' rq,
     token_phase config endpoint st ->
     deliver c st w = (st', w') ->
     awaited st' = Some (HttpCall rq) ->
     exists token,
       rq = api_request config endpoint token /\ accessToken (fields w') = Some token).
Proof.
  split.
  - intros now w st w' rq Hadv Haw.
    destruct (token_is_fresh (fields w) now) eqn:Hf.
    + destruct (makeRequest_starts_fresh config endpoint now w Hf)
        as (token & st1 & Ht & Hadv1 & Ha1 & _).
      rewrite Hadv in Hadv1. inversion Hadv1; subst st1 w'.
      exists token. split; [congruence | exact Ht].
    + destruct (makeRequest_starts_stale config endpoint now w Hf)
        as (st1 & Hadv1 & Ha1 & _).
      rewrite Hadv in Hadv1. inversion Hadv1; subst st1 w'. congruence.
  - intros st c w st' w' rq (k & -> & Hk) Hd Haw.
    unfold deliver in Hd.
    destruct (answer c) as [r|r].
    + specialize (Hk r (when c) w).
      destruct (usable_token r) as [token|].
      * destruct Hk as (st1 & w1 & Hadv & Ha & Hc & _).
        rewrite Hd in Hadv. inversion Hadv; subst st1 w1.
        exists token. split; [congruence | exact Hc].
      * destruct Hk as (w1 & Hadv).
        rewrite Hd in Hadv. inversion Hadv; subst st'. discriminate.
    + inversion Hd; subst st'. discriminate.
Qed.

Lemma pool_step_first {A B : Type} (p : Pool A B) (c : Completion) :
  who c = First ->
  first (pool_step p c) = fst (deliver c (first p) (world p))
  /\ second (pool_step p c) = second p.
Proof.
  intros Hw. unfold pool_step. rewrite Hw.
  destruct (deliver c (first p) (world p)). split; reflexivity.
Qed.

Lemma pool_step_second {A B : Type} (p : Pool A B) (c : Completion) :
  who c = Second ->
  first (pool_step p c) = first p
  /\ second (pool_step p c) = fst (deliver c (second p) (world p)).
Proof.
  intros Hw. unfold pool_step. rewrite Hw.
  destruct (deliver c (second p) (world p)). split; reflexivity.
Qed.

(** An answer of the authority and then one of the remote API settle a
    request, in whichever phase it is. *)
Lemma two_completions_settle config side endpoint (st : Status Json) log
    (c1 c2 : Completion) (w1 w2 : World) a h :
  side_ok config side endpoint st log ->
  answer c1 = TokenAnswer a ->
  answer c2 = HttpAnswer h ->
  exists r, fst (deliver c2 (fst (deliver c1 st w1)) w2) = Settled r.
Proof.
  intros H E1 E2. destruct st as [r|sc k|rq k].
  - exists r. reflexivity.
  - simpl in H. destruct H as (k' & E & Hk). inversion E; subst sc k'.
    unfold deliver at 2. rewrite E1.
    specialize (Hk a (when c1) w1).
    destruct (usable_token a) as [token|].
    + destruct Hk as (st' & w' & -> & _ & _ & (token' & k' & -> & Hk')). simpl.
      unfold deliver. rewrite E2.
      destruct (Hk' h (when c2) w2) as (w'' & ->). eexists; reflexivity.
    + destruct Hk as (w' & ->). eexists; reflexivity.
  - simpl in H. destruct H as (token & k' & E & Hk). inversion E; subst rq k'.
    unfold deliver at 2. rewrite E1. simpl.
    unfold deliver. rewrite E2.
    destruct (Hk h (when c2) w2) as (w'' & ->). eexists; reflexivity.
Qed.

Lemma combined_ok_settled {A B : Type} (c : option (Result (A * B)))
    (s1 : Status A) (s2 : Status B) r1 r2 :
  combined_ok c s1 s2 -> s1 = Settled r1 -> s2 = Settled r2 -> c <> None.
Proof.
  intros Hc -> ->. destruct c; [discriminate|].
  destruct Hc as (H1 & H2 & H3).
  destruct r1 as [a|e]; [|exfalso; eapply H1; reflexivity].
  destruct r2 as [b|e]; [|exfalso; eapply H2; reflexivity].
  exfalso. eapply H3; reflexivity.
Qed.

(** Two completions for each call are enough, whatever the answers. *)
Lemma pool_settles config endpoint1 endpoint2 (p : Pool Json Json)
    (t1 t2 t3 t4 : Z) a1 a2 h1 h2 :
  pool_ok config endpoint1 endpoint2 p ->
  combined
    (fold_left pool_step
       [ {| who := First; when := t1; answer := TokenAnswer a1 |};
         {| who := First; when := t2; answer := HttpAnswer h1 |};
         {| who := Second; when := t3; answer := TokenAnswer a2 |};
         {| who := Second; when := t4; answer := HttpAnswer h2 |} ] p)
  <> None.
Proof.
  intros Hp.
  set (c1 := {| who := First; when := t1; answer := TokenAnswer a1 |}).
  set (c2 := {| who := First; when := t2; answer := HttpAnswer h1 |}).
  set (c3 := {| who := Second; when := t3; answer := TokenAnswer a2 |}).
  set (c4 := {| who := Second; when := t4; answer := HttpAnswer h2 |}).
  cbn [fold_left].
  set (p1 := pool_step p c1). set (p2 := pool_step p1 c2).
  set (p3 := pool_step p2 c3). set (p4 := pool_step p3 c4).
  assert (Hp4 : pool_ok config endpoint1 endpoint2 p4)
    by (repeat apply pool_step_ok; exact Hp).
  destruct Hp as (H1 & H2 & _).
  destruct (pool_step_first p c1 eq_refl) as [F1 S1].
  destruct (pool_step_first p1 c2 eq_refl) as [F2 S2].
  destruct (pool_step_second p2 c3 eq_refl) as [F3 S3].
  destruct (pool_step_second p3 c4 eq_refl) as [F4 S4].
  fold p1 in F1, S1. fold p2 in F2, S2. fold p3 in F3, S3. fold p4 in F4, S4.
  destruct (two_completions_settle config First endpoint1 (first p) (delivered p)
              c1 c2 (world p) (world p1) a1 h1 H1 eq_refl eq_refl) as [r1 Hr1].
  rewrite <- F1, <- F2 in Hr1.
  destruct (two_completions_settle config Second endpoint2 (second p) (delivered p)
              c3 c4 (world p2) (world p3) a2 h2 H2 eq_refl eq_refl) as [r2 Hr2].
  rewrite <- S1, <- S2, <- S3, <- S4 in Hr2.
  destruct Hp4 as (_ & _ & Hc).
  apply (combined_ok_settled _ _ _ r1 r2 Hc); [|exact Hr2].
  rewrite F4, F3. exact Hr1.
Qed.

(** *** [getEntityRelationships] *)

Lemma relationship_calls_ok config (entityName : jsstring) now1 now2
    (schedule : list Completion) (w : World) :
  pool_ok config
    (js "api/data/v9.2/EntityDefinitions(LogicalName='" ++ entityName
     ++ js "')/OneToManyRelationships")
    (js "api/data/v9.2/EntityDefinitions(LogicalName='" ++ entityName
     ++ js "')/ManyToManyRelationships")
    (relationship_calls config entityName now1 now2 schedule w).
Proof.
  unfold relationship_calls, promise_all. apply pool_run_ok.
  apply pool_start_requests.
Qed.

(** C5, as the code has it.  [getEntityRelationships] makes both
    relationship calls before it waits for either: each has its first
    network operation in flight when no completion has been taken yet.  It
    waits for both only to resolve: it resolves exactly when both calls have
    resolved, with the object whose [oneToMany] and [manyToMany] are the
    bodies of the two responses.  It rejects as soon as one of the two calls
    has rejected, whether the other has settled or not, with the error of
    that call and no partial result.  Two completions for each call always
    settle it, and once settled it does not change. *)
Theorem getEntityRelationships_all_or_nothing config (entityName : jsstring) now1 now2
    (schedule : list Completion) (w : World) :
  let path1 := js "api/data/v9.2/EntityDefinitions(LogicalName='" ++ entityName
               ++ js "')/OneToManyRelationships" in
  let path2 := js "api/data/v9.2/EntityDefinitions(LogicalName='" ++ entityName
               ++ js "')/ManyToManyRelationships" in
  let p0 := relationship_calls config entityName now1 now2 [] w in
  let p := relationship_calls config entityName now1 now2 schedule w in
  let outcome := getEntityRelationships config entityName now1 now2 schedule w in
  (exists c1 c2,
     awaited (first p0) = Some c1
     /\ awaited (second p0) = Some c2
     /\ network (world p0)
        = network w
          ++ (if token_is_fresh (fields w) now1 && negb (token_is_fresh (fields w) now2)
              then [c2; c1] else [c1; c2])
     /\ delivered p0 = []
     /\ (token_is_fresh (fields w) now1 = true ->
         exists token,
           accessToken (fields w) = Some token
           /\ c1 = HttpCall (api_request config path1 token))
     /\ (token_is_fresh (fields w) now1 = false ->
         c1 = TokenExchange (token_scopes config))
     /\ (token_is_fresh (fields w) now2 = true ->
         exists token,
           accessToken (fields w) = Some token
           /\ c2 = HttpCall (api_request config path2 token))
     /\ (token_is_fresh (fields w) now2 = false ->
         c2 = TokenExchange (token_scopes config)))
  /\ ((exists e, first p = Settled (Err e)) \/ (exists e, second p = Settled (Err e)) ->
      exists e, outcome = Some (Err e))
  /\ (forall e, outcome = Some (Err e) ->
      first p = Settled (Err e) \/ second p = Settled (Err e))
  /\ (forall rel,
        outcome = Some (Ok rel) <->
        first p = Settled (Ok (oneToMany rel)) /\ second p = Settled (Ok (manyToMany rel)))
  /\ (forall rel,
        outcome = Some (Ok rel) ->
        exists token1 token2 response1 response2,
          In (First, HttpCall (api_request config path1 token1), HttpAnswer (Ok response1))
             (delivered p)
          /\ oneToMany rel = resp_data response1
          /\ In (Second, HttpCall (api_request config path2 token2), HttpAnswer (Ok response2))
               (delivered p)
          /\ manyToMany rel = resp_data response2)
  /\ (forall t1 t2 t3 t4 a1 a2 h1 h2,
        getEntityRelationships config entityName now1 now2
          (schedule
           ++ [ {| who := First; when := t1; answer := TokenAnswer a1 |};
                {| who := First; when := t2; answer := HttpAnswer h1 |};
                {| who := Second; when := t3; answer := TokenAnswer a2 |};
                {| who := Second; when := t4; answer := HttpAnswer h2 |} ]) w
        <> None)
  /\ (forall r more,
        outcome = Some r ->
        getEntityRelationships config entityName now1 now2 (schedule ++ more) w = Some r).
Proof.
  intros path1 path2 p0 p outcome.
  pose proof (relationship_calls_ok config entityName now1 now2 schedule w) as Hp.
  fold path1 path2 p in Hp. destruct Hp as (H1 & H2 & Hc).
  assert (Hout : outcome = match combined p with
                           | Some (Ok (o, m)) =>
                               Some (Ok {| oneToMany := o; manyToMany := m |})
                           | Some (Err e) => Some (Err e)
                           | None => None
                           end) by reflexivity.
  split; [|split; [|split; [|split; [|split; [|split]]]]].
  - destruct (pool_start_requests config path1 path2 now1 now2 w)
      as (_ & Hd & _ & c1 & c2 & Ha1 & Ha2 & Hn & Hfresh1 & Hstale1 & Hfresh2 & Hstale2).
    exists c1, c2. repeat split; auto.
  - intros Hfail. rewrite Hout.
    destruct (combined p) as [[[o m]|e]|]; simpl in Hc.
    + destruct Hc as [E1 E2].
      destruct Hfail as [[e He]|[e He]]; congruence.
    + eauto.
    + destruct Hc as (F1 & F2 & _).
      destruct Hfail as [[e He]|[e He]]; [elim (F1 e He) | elim (F2 e He)].
  - intros e. rewrite Hout.
    destruct (combined p) as [[[o m]|e']|]; simpl in Hc; try discriminate.
    intros E. inversion E; subst e'. exact Hc.
  - intros [o m]. rewrite Hout. simpl. split.
    + destruct (combined p) as [[[o' m']|e']|]; simpl in Hc; try discriminate.
      intros E. inversion E; subst o' m'. exact Hc.
    + intros [E1 E2].
      destruct (combined p) as [[[o' m']|e']|]; simpl in Hc.
      * destruct Hc as [E1' E2']. congruence.
      * destruct Hc; congruence.
      * destruct Hc as (_ & _ & F3). elim (F3 o m E1 E2).
  - intros [o m]. rewrite Hout.
    destruct (combined p) as [[[o' m']|e']|]; simpl in Hc; try discriminate.
    intros E. inversion E; subst o' m'. destruct Hc as [E1 E2].
    rewrite E1 in H1. rewrite E2 in H2. simpl in H1, H2.
    destruct H1 as (token1 & response1 & Hin1 & Hd1).
    destruct H2 as (token2 & response2 & Hin2 & Hd2).
    exists token1, token2, response1, response2. auto.
  - intros t1 t2 t3 t4 a1 a2 h1 h2.
    unfold getEntityRelationships, relationship_calls, promise_all.
    rewrite fold_left_app.
    pose proof (pool_settles config path1 path2 p t1 t2 t3 t4 a1 a2 h1 h2
                  (conj H1 (conj H2 Hc))) as Hs.
    fold path1 path2. unfold p, relationship_calls, promise_all in Hs.
    match goal with
    | |- match ?c with _ => _ end <> None =>
        destruct c as [[[o m]|e]|];
          [discriminate | discriminate | exfalso; apply Hs; reflexivity]
    end.
  - intros r more. rewrite Hout.
    unfold getEntityRelationships, relationship_calls, promise_all.
    rewrite fold_left_app.
    destruct (combined p) as [c|] eqn:Ec; [|discriminate].
    unfold p, relationship_calls, promise_all in Ec.
    rewrite (pool_run_settled more _ c Ec). auto.
Qed.

Transparent js.

Lemma getEntityRelationships_all_or_nothing_witness :
  first (relationship_calls sample_config (js "account") 2000 2000
           [http_done Second sample_response; http_done First sample_response]
           world_fresh)
  = Settled (Ok (JObject [(js "name", JString (js "Acme"))]))
  /\ getEntityRelationships sample_config (js "account") 2000 2000
       [http_done Second sample_response; http_done First sample_response] world_fresh
     = Some (Ok {| oneToMany := JObject [(js "name", JString (js "Acme"))];
                   manyToMany := JObject [(js "name", JString (js "Acme"))] |}).
Proof.
  split; [vm_compute; reflexivity|].
  destruct (getEntityRelationships_all_or_nothing sample_config (js "account") 2000 2000
              [http_done Second sample_response; http_done First sample_response]
              world_fresh)
    as (_ & _ & _ & Hok & _).
  apply Hok. split; vm_compute; reflexivity.
Defined.

(** C5, as written, fails: the whole has rejected while the many-to-many
    request is still waiting for its response. *)
Lemma getEntityRelationships_does_not_wait_to_reject :
  getEntityRelationships sample_config (js "account") 2000 2000
    [http_done First sample_not_found] world_fresh
  = Some (Err (Error (js "PowerPlatform API request failed: AxiosError: Request failed with status code 404")))
  /\ awaited (second (relationship_calls sample_config (js "account") 2000 2000
                        [http_done First sample_not_found] world_fresh))
     = Some (HttpCall (api_request sample_config
                         (js "api/data/v9.2/EntityDefinitions(LogicalName='account')/ManyToManyRelationships")
                         (js "old"))).
Proof. split; vm_compute; reflexivity. Qed.

(** The one-to-many call fails and the many-to-many call succeeds: the
    whole fails, whichever answer comes first. *)
Lemma one_to_many_failure_fails_all :
  getEntityRelationships sample_config (js "account") 2000 2000
    [http_done Second sample_response; http_done First sample_not_found] world_fresh
  = Some (Err (Error (js "PowerPlatform API request failed: AxiosError: Request failed with status code 404")))
  /\ getEntityRelationships sample_config (js "account") 2000 2000
       [http_done First sample_not_found; http_done Second sample_response] world_fresh
     = Some (Err (Error (js "PowerPlatform API request failed: AxiosError: Request failed with status code 404")))
  /\ second (relationship_calls sample_config (js "account") 2000 2000
               [http_done Second sample_response; http_done First sample_not_found]
               world_fresh)
     = Settled (Ok (JObject [(js "name", JString (js "Acme"))])).
Proof. repeat split; vm_compute; reflexivity. Qed.

(** With no fresh token each of the two calls runs its own exchange, and
    the later answer is the one the cache keeps. *)
Lemma concurrent_calls_exchange_twice :
  exchanges (network (world (relationship_calls sample_config (js "account") 2000 2000
                               [] world_expired)))
  = [token_scopes sample_config; token_scopes sample_config]
  /\ accessToken
       (fields (world (relationship_calls sample_config (js "account") 2000 2000
                         [ token_done First
                             (Ok (Some {| res_accessToken := Some (js "one");
                                          res_expiresOn := Some 4000000 |}));
                           token_done Second
                             (Ok (Some {| res_accessToken := Some (js "two");
                                          res_expiresOn := Some 5000000 |})) ]
                         world_expired)))
     = Some (js "two").
Proof. split; vm_compute; reflexivity. Qed.

(** The token expires between the two readings of the clock: the first call
    sends its request with the cached token, the second exchanges, and the
    exchange is issued first. *)
Lemma calls_on_either_side_of_the_expiry :
  network (world (relationship_calls sample_config (js "account") 4999 5000 []
                    world_fresh))
  = [TokenExchange (token_scopes sample_config);
     HttpCall (api_request sample_config
                 (js "api/data/v9.2/EntityDefinitions(LogicalName='account')/OneToManyRelationships")
                 (js "old"))]
  /\ awaited (second (relationship_calls sample_config (js "account") 4999 5000 []
                        world_fresh))
     = Some (TokenExchange (token_scopes sample_config)).
Proof. split; vm_compute; reflexivity. Qed.

(** ** Errors of the operations *)

(** C1, as the code has it.  For every single-request operation whose path
    is built: when token acquisition fails, the operation fails with the
    request error that wraps the authentication error (the one [catch] of
    [makeRequest] encloses the acquisition too); when the HTTP request
    fails, it fails with the request error that wraps the cause axios
    reported.  [getEntityRelationships] fails with the error of one of its
    two calls, which is of one of these two kinds. *)
Theorem operation_failures_are_wrapped config :
  (forall env (op : Operation) endpoint (w : World),
     endpoint_of op = Ok endpoint ->
     (forall e,
        fst (run env (getAccessToken config) w) = Err e ->
        fst (run env (call config op) w)
        = Err (Error (js "PowerPlatform API request failed: " ++ error_toString e))
        /\ fst (run env (call config op) w)
           = Err (Error (js "PowerPlatform API request failed: Error: Authentication failed")))
     /\
     (forall token cause,
        fst (run env (getAccessToken config) w) = Ok token ->
        remote env (api_request config endpoint token) = Err cause ->
        fst (run env (call config op) w)
        = Err (Error (js "PowerPlatform API request failed: " ++ error_toString cause))))
  /\
  (forall (entityName : jsstring) now1 now2 (schedule : list Completion) (w : World) e,
     getEntityRelationships config entityName now1 now2 schedule w = Some (Err e) ->
     (e = Error (js "PowerPlatform API request failed: Error: Authentication failed")
      /\ exists side a,
           In (side, TokenExchange (token_scopes config), TokenAnswer a)
              (delivered (relationship_calls config entityName now1 now2 schedule w))
           /\ exchange_fails a)
     \/ (exists side endpoint token cause,
           In (side, HttpCall (api_request config endpoint token), HttpAnswer (Err cause))
              (delivered (relationship_calls config entityName now1 now2 schedule w))
           /\ e = Error (js "PowerPlatform API request failed: "
                         ++ error_toString cause))).
Proof.
  split.
  - intros env op endpoint w Hep. rewrite call_endpoint, Hep, run_makeRequest. split.
    + intros e He.
      pose proof (getAccessToken_throws config env w e He) as ->.
      destruct (run env (getAccessToken config) w) as [[token|e'] w1]; simpl in *.
      * discriminate.
      * inversion He; subst e'. split; reflexivity.
    + intros token cause Ht Hr.
      destruct (run env (getAccessToken config) w) as [[token'|e'] w1]; simpl in *.
      * inversion Ht; subst token'. rewrite Hr. reflexivity.
      * discriminate.
  - intros entityName now1 now2 schedule w e.
    destruct (relationship_calls_ok config entityName now1 now2 schedule w) as (H1 & H2 & Hc).
    unfold getEntityRelationships.
    destruct (combined (relationship_calls config entityName now1 now2 schedule w))
      as [[[o m]|e']|]; try discriminate.
    intros E. inversion E; subst e'. simpl in Hc.
    assert (Hside : exists side endpoint,
               side_ok config side endpoint (Settled (Err e))
                 (delivered (relationship_calls config entityName now1 now2 schedule w))).
    { destruct Hc as [Hs|Hs]; [rewrite Hs in H1 | rewrite Hs in H2]; eauto. }
    destruct Hside as (side & endpoint & [[He (a & Hin & Hu)]|(token & cause & Hin & He)]).
    + left. split; [exact He|]. exists side, a.
      split; [exact Hin | apply usable_token_None_iff; exact Hu].
    + right. exists side, endpoint, token, cause. auto.
Qed.

Lemma operation_failures_are_wrapped_witness :
  endpoint_of (GetEntityMetadata (js "account"))
  = Ok (js "api/data/v9.2/EntityDefinitions(LogicalName='account')")
  /\ fst (run env_not_found (getAccessToken sample_config) world_expired) = Ok (js "new")
  /\ fst (run env_not_found (call sample_config (GetEntityMetadata (js "account")))
            world_expired)
     = Err (Error (js "PowerPlatform API request failed: AxiosError: Request failed with status code 404")).
Proof.
  split; [reflexivity|]. split; [reflexivity|].
  apply (proj2 (proj1 (operation_failures_are_wrapped sample_config)
                  env_not_found (GetEntityMetadata (js "account"))
                  (js "api/data/v9.2/EntityDefinitions(LogicalName='account')")
                  world_expired eq_refl)
           (js "new")
           {| err_name := js "AxiosError";
              err_message := js "Request failed with status code 404" |});
    reflexivity.
Defined.

(** C1, as written, fails: the authentication error does not come out of an
    operation unchanged. *)
Lemma authentication_error_is_wrapped :
  fst (run env_unreachable (getAccessToken sample_config) world_expired)
  = Err (Error (js "Authentication failed"))
  /\ fst (run env_unreachable (call sample_config (GetEntityMetadata (js "account")))
            world_expired)
     = Err (Error (js "PowerPlatform API request failed: Error: Authentication failed"))
  /\ fst (run env_unreachable (call sample_config (GetEntityMetadata (js "account")))
            world_expired)
     <> Err (Error (js "Authentication failed")).
Proof.
  split; [reflexivity|]. split; [reflexivity|].
  vm_compute. discriminate.
Qed.

(* ================================================================= *)
(** * Further properties *)

(** ** [encodeURIComponent] *)

(** X1.  Whatever the filter, what stands for it in the path of
    [queryRecords] is made of letters, digits, [- _ . ! ~ * ' ( )] and the
    percent sign only: it holds no [&], [=], [#], [?], [/], [+], [$] and no
    space, so a filter cannot end the [$filter] parameter or add one of its
    own. *)
Theorem filter_cannot_add_parameters (entityNamePlural filter : jsstring)
    (maxRecords : option jsnumber) (endpoint : jsstring) :
  code_units filter ->
  queryRecords_endpoint entityNamePlural filter maxRecords = Ok endpoint ->
  exists encoded,
    endpoint = js "api/data/v9.2/" ++ entityNamePlural ++ js "?$filter=" ++ encoded
               ++ js "&$top="
               ++ number_toString (match maxRecords with Some n => n | None => Int 50 end)
    /\ Forall (fun c => uri_component_char c = true) encoded
    /\ ~ In 38%N encoded /\ ~ In 61%N encoded /\ ~ In 35%N encoded
    /\ ~ In 63%N encoded /\ ~ In 47%N encoded /\ ~ In 43%N encoded
    /\ ~ In 36%N encoded /\ ~ In 32%N encoded.
Proof.
  intros Hs. unfold queryRecords_endpoint.
  destruct (encodeURIComponent filter) as [encoded|e] eqn:He; [|discriminate].
  intros E. inversion E. exists encoded. split; [reflexivity|].
  pose proof (encodeURIComponent_chars filter encoded Hs He) as Hall.
  split; [exact Hall|].
  rewrite Forall_forall in Hall.
  repeat split; intros Hin; apply Hall in Hin; discriminate.
Qed.

Lemma filter_cannot_add_parameters_witness :
  code_units (js "a&$top=9")
  /\ exists encoded,
       queryRecords_endpoint (js "accounts") (js "a&$top=9") None
       = Ok (js "api/data/v9.2/accounts?$filter=" ++ encoded ++ js "&$top=50")
       /\ ~ In 38%N encoded.
Proof.
  assert (Hc : code_units (js "a&$top=9")).
  { unfold code_units. repeat constructor. }
  split; [exact Hc|].
  destruct (filter_cannot_add_parameters (js "accounts") (js "a&$top=9") None
              (js "api/data/v9.2/accounts?$filter=a%26%24top%3D9&$top=50") Hc eq_refl)
    as (encoded & He & _ & Hamp & _).
  exists encoded. split; [|exact Hamp].
  transitivity (@Ok jsstring (js "api/data/v9.2/accounts?$filter=a%26%24top%3D9&$top=50"));
    [reflexivity|].
  rewrite He. reflexivity.
Defined.

(** A string made of unescaped characters only is its own encoding. *)
Lemma encodeURIComponent_plain (s : jsstring) :
  forallb uri_unescaped s = true -> encodeURIComponent s = Ok s.
Proof.
  induction s as [|c s IH]; simpl; [reflexivity|].
  rewrite andb_true_iff. intros [Hc Hs]. rewrite Hc, (IH Hs). reflexivity.
Qed.

(** X2.  A filter made of letters, digits and [- _ . ! ~ * ' ( )] only, the
    empty one included, stands in the path as it was given. *)
Theorem plain_filter_is_verbatim (entityNamePlural filter : jsstring)
    (maxRecords : option jsnumber) :
  forallb uri_unescaped filter = true ->
  queryRecords_endpoint entityNamePlural filter maxRecords
  = Ok (js "api/data/v9.2/" ++ entityNamePlural ++ js "?$filter=" ++ filter
        ++ js "&$top="
        ++ number_toString (match maxRecords with Some n => n | None => Int 50 end)).
Proof.
  intros H. unfold queryRecords_endpoint.
  rewrite (encodeURIComponent_plain filter H). reflexivity.
Qed.

Lemma plain_filter_is_verbatim_witness :
  forallb uri_unescaped (js "statecode") = true
  /\ queryRecords_endpoint (js "accounts") (js "statecode") (Some (Int 5))
     = Ok (js "api/data/v9.2/accounts?$filter=statecode&$top=5").
Proof.
  split; [reflexivity|].
  rewrite (plain_filter_is_verbatim (js "accounts") (js "statecode") (Some (Int 5))
             eq_refl).
  reflexivity.
Defined.

(** Encoding goes through concatenation: after a well-formed prefix, the
    encoding of the whole is the encoding of the prefix followed by that of
    the rest, and fails when that of the rest fails. *)
Lemma encodeURIComponent_app (a b : jsstring) :
  well_formed a = true ->
  exists ra,
    encodeURIComponent a = Ok ra
    /\ encodeURIComponent (a ++ b)
       = match encodeURIComponent b with
         | Ok rb => Ok (ra ++ rb)
         | Err e => Err e
         end.
Proof.
  induction a as [| c | c d a IHa IHd] using jsstring_pair_ind; intros Hw.
  - exists []. split; [reflexivity|]. simpl. destruct (encodeURIComponent b); reflexivity.
  - simpl in Hw. cbn [app].
    destruct b as [|d b].
    + destruct (proj1 (encodeURIComponent_total [c])) as [ra Hra]; [exact Hw|].
      exists ra. split; [exact Hra|]. simpl app.
      rewrite Hra. simpl. now rewrite app_nil_r.
    + rewrite encodeURIComponent_cons2. simpl encodeURIComponent at 1.
      destruct (uri_unescaped c) eqn:Eu.
      * exists [c]. split; [reflexivity|].
        destruct (encodeURIComponent (d :: b)); reflexivity.
      * destruct (is_trailing_surrogate c); [discriminate|].
        destruct (is_leading_surrogate c); [discriminate|].
        exists (escape_code_point c ++ []). split; [reflexivity|].
        destruct (encodeURIComponent (d :: b)); [|reflexivity].
        now rewrite app_nil_r.
  - rewrite well_formed_cons2 in Hw.
    cbn [app]. rewrite !encodeURIComponent_cons2.
    destruct (uri_unescaped c) eqn:Eu.
    + destruct (uri_unescaped_not_surrogate c Eu) as [El Et]. rewrite Et, El in Hw.
      destruct (IHd Hw) as (rd & Hrd & Happ).
      exists (c :: rd). change ((d :: a) ++ b) with (d :: a ++ b) in Happ.
      rewrite Hrd, Happ. split; [reflexivity|].
      destruct (encodeURIComponent b); reflexivity.
    + destruct (is_trailing_surrogate c); [discriminate|].
      destruct (is_leading_surrogate c).
      * apply andb_true_iff in Hw. destruct Hw as [Ht Hw]. rewrite Ht.
        destruct (IHa Hw) as (ra & Hra & Happ).
        exists (escape_code_point (surrogate_pair_to_code_point c d) ++ ra).
        rewrite Hra, Happ. split; [reflexivity|].
        destruct (encodeURIComponent b); [now rewrite app_assoc | reflexivity].
      * destruct (IHd Hw) as (rd & Hrd & Happ).
        exists (escape_code_point c ++ rd).
        change ((d :: a) ++ b) with (d :: a ++ b) in Happ.
        rewrite Hrd, Happ. split; [reflexivity|].
        destruct (encodeURIComponent b); [now rewrite app_assoc | reflexivity].
Qed.

(** ** Operations, end to end *)

(** X3.  An operation whose request succeeds resolves with the body of the
    response, unchanged.  With a fresh token it issues the one [GET] and
    nothing else; without one it issues one exchange and then the [GET],
    with the token the exchange brought. *)
Theorem operation_success config env (op : Operation) endpoint (w : World) :
  endpoint_of op = Ok endpoint ->
  (forall token response,
     token_is_fresh (fields w) (clock env) = true ->
     accessToken (fields w) = Some token ->
     remote env (api_request config endpoint token) = Ok response ->
     run env (call config op) w
     = (Ok (resp_data response),
        with_call (HttpCall (api_request config endpoint token)) w))
  /\
  (forall token response,
     token_is_fresh (fields w) (clock env) = false ->
     usable_token (authority env (token_scopes config)) = Some token ->
     remote env (api_request config endpoint token) = Ok response ->
     fst (run env (call config op) w) = Ok (resp_data response)
     /\ network (snd (run env (call config op) w))
        = network w ++ [TokenExchange (token_scopes config);
                        HttpCall (api_request config endpoint token)]
     /\ console (snd (run env (call config op) w)) = console w).
Proof.
  intros Hep. rewrite call_endpoint, Hep, run_makeRequest. split.
  - intros token response Hf Ht Hr.
    destruct (run_getAccessToken_fresh config env w Hf) as (token' & Ht' & ->).
    assert (token' = token) by congruence. subst token'.
    rewrite Hr. reflexivity.
  - intros token response Hf Hu Hr.
    rewrite (run_getAccessToken_stale config env w Hf).
    destruct (usable_token_Some _ _ Hu) as (result & Ha & Ht & Hn).
    rewrite (run_refresh_ok config env w result token Ha Ht Hn).
    rewrite Hr. unfold refreshed.
    destruct (res_expiresOn result); simpl; rewrite <- app_assoc; auto.
Qed.

Lemma operation_success_witness :
  endpoint_of (GetRecord (js "accounts") (js "11111111-1111-1111-1111-111111111111"))
  = Ok (js "api/data/v9.2/accounts(11111111-1111-1111-1111-111111111111)")
  /\ token_is_fresh (fields (new_world initial_fields)) (clock env_granting) = false
  /\ fst (run env_granting
            (call sample_config
               (GetRecord (js "accounts") (js "11111111-1111-1111-1111-111111111111")))
            (new_world initial_fields))
     = Ok (JObject [(js "name", JString (js "Acme"))])
  /\ network (snd (run env_granting
            (call sample_config
               (GetRecord (js "accounts") (js "11111111-1111-1111-1111-111111111111")))
            (new_world initial_fields)))
     = [TokenExchange (token_scopes sample_config);
        HttpCall (api_request sample_config
                    (js "api/data/v9.2/accounts(11111111-1111-1111-1111-111111111111)")
                    (js "new"))].
Proof.
  split; [reflexivity|]. split; [reflexivity|].
  destruct (proj2 (operation_success sample_config env_granting
                     (GetRecord (js "accounts") (js "11111111-1111-1111-1111-111111111111"))
                     (js "api/data/v9.2/accounts(11111111-1111-1111-1111-111111111111)")
                     (new_world initial_fields) eq_refl)
              (js "new") {| resp_data := JObject [(js "name", JString (js "Acme"))] |})
    as (Hr & Hn & _); try reflexivity.
  split; [exact Hr | exact Hn].
Defined.

(** ** The cache over several calls *)

(** X4.  A token obtained with a reported expiry is served from the cache,
    with no network operation, at every later moment strictly before the
    reported expiry minus five minutes; from that moment on the next call
    exchanges again. *)
Theorem refreshed_token_is_reused config env env' (w : World) result token reported :
  token_is_fresh (fields w) (clock env) = false ->
  authority env (token_scopes config) = Ok (Some result) ->
  res_accessToken result = Some token ->
  token <> [] ->
  res_expiresOn result = Some reported ->
  (clock env' < reported - 300000 ->
   run env' (getAccessToken config) (snd (run env (getAccessToken config) w))
   = (Ok token, snd (run env (getAccessToken config) w)))
  /\
  (reported - 300000 <= clock env' ->
   network (snd (run env' (getAccessToken config)
                   (snd (run env (getAccessToken config) w))))
   = network (snd (run env (getAccessToken config) w))
     ++ [TokenExchange (token_scopes config)]).
Proof.
  intros Hf Ha Ht Hne He.
  assert (Hn : string_truthy (Some token) = true)
    by (destruct token; [congruence | reflexivity]).
  rewrite (run_getAccessToken_stale config env w Hf).
  rewrite (run_refresh_ok config env w result token Ha Ht Hn).
  rewrite He. unfold refreshed. cbn [snd].
  set (w1 := with_tokenExpirationTime _ _).
  assert (Hfields : fields w1 = {| accessToken := Some token;
                                   tokenExpirationTime := reported - 300000 |})
    by reflexivity.
  split.
  - intros Hlt.
    assert (Hf1 : token_is_fresh (fields w1) (clock env') = true).
    { rewrite Hfields. unfold token_is_fresh. cbn [accessToken tokenExpirationTime].
      rewrite Hn. simpl. rewrite Z.gtb_ltb. apply Z.ltb_lt. exact Hlt. }
    destruct (run_getAccessToken_fresh config env' w1 Hf1) as (token' & Ht' & ->).
    rewrite Hfields in Ht'. simpl in Ht'. congruence.
  - intros Hge.
    assert (Hf1 : token_is_fresh (fields w1) (clock env') = false).
    { rewrite Hfields. unfold token_is_fresh. cbn [accessToken tokenExpirationTime].
      rewrite Hn. simpl. rewrite Z.gtb_ltb. apply Z.ltb_ge. exact Hge. }
    rewrite (run_getAccessToken_stale config env' w1 Hf1).
    destruct (usable_token (authority env' (token_scopes config))) as [token'|] eqn:Hu.
    + destruct (usable_token_Some _ _ Hu) as (result' & Ha' & Ht' & Hn').
      rewrite (run_refresh_ok config env' w1 result' token' Ha' Ht' Hn').
      unfold refreshed. destruct (res_expiresOn result'); reflexivity.
    + destruct (run_refresh_fail config env' w1 Hu) as (cause & ->). reflexivity.
Qed.

Lemma refreshed_token_is_reused_witness :
  token_is_fresh (fields world_expired) (clock env_granting) = false
  /\ clock env_unreachable < 4000000 - 300000
  /\ run env_unreachable (getAccessToken sample_config)
       (snd (run env_granting (getAccessToken sample_config) world_expired))
     = (Ok (js "new"), snd (run env_granting (getAccessToken sample_config) world_expired)).
Proof.
  split; [reflexivity|]. split; [simpl; lia|].
  apply (proj1 (refreshed_token_is_reused sample_config env_granting env_unreachable
                  world_expired
                  {| res_accessToken := Some (js "new"); res_expiresOn := Some 4000000 |}
                  (js "new") 4000000 eq_refl eq_refl eq_refl
                  ltac:(discriminate) eq_refl)).
  simpl. lia.
Defined.

(** Calls that find the stored expiration time behind them, and whose
    exchanges set none, exchange one after the other. *)
Lemma getAccessToken_calls_exchange config (envs : list Env) (w : World) :
  Forall (fun env => tokenExpirationTime (fields w) <= clock env
                     /\ reports_no_expiry (authority env (token_scopes config))) envs ->
  network (getAccessToken_calls config envs w)
  = network w ++ repeat (TokenExchange (token_scopes config)) (List.length envs)
  /\ tokenExpirationTime (fields (getAccessToken_calls config envs w))
     = tokenExpirationTime (fields w).
Proof.
  revert w. induction envs as [|env later IH]; intros w Hall.
  - simpl. rewrite app_nil_r. split; reflexivity.
  - inversion Hall as [|? ? [Hclock Hno] Hlater]; subst.
    assert (Hf : token_is_fresh (fields w) (clock env) = false).
    { unfold token_is_fresh. apply andb_false_iff. right.
      rewrite Z.gtb_ltb. apply Z.ltb_ge. exact Hclock. }
    cbn [getAccessToken_calls List.length repeat].
    rewrite (run_getAccessToken_stale config env w Hf).
    assert (Hstep : network (snd (run env (refresh_access_token config) w))
                    = network w ++ [TokenExchange (token_scopes config)]
                    /\ tokenExpirationTime
                         (fields (snd (run env (refresh_access_token config) w)))
                       = tokenExpirationTime (fields w)).
    { destruct (usable_token (authority env (token_scopes config))) as [token|] eqn:Hu.
      - destruct (usable_token_Some _ _ Hu) as (result & Ha & Ht & Hn).
        rewrite (run_refresh_ok config env w result token Ha Ht Hn).
        assert (He : res_expiresOn result = None)
          by (apply (Hno result Ha); rewrite Ht; exact Hn).
        rewrite He. split; reflexivity.
      - destruct (run_refresh_fail config env w Hu) as (cause & ->).
        split; reflexivity. }
    destruct Hstep as [Hnet Hexp].
    destruct (IH (snd (run env (refresh_access_token config) w))) as [IHnet IHexp].
    { rewrite Hexp. exact Hlater. }
    rewrite IHnet, IHexp, Hnet, Hexp, <- app_assoc. split; reflexivity.
Qed.

(** X5.  A token obtained without a reported expiry is never served from
    the cache: when the stored expiration time was not ahead of the clock,
    as in a new service, the token is stored, and for as long as no exchange
    sets an expiration time every later call exchanges again, however many
    calls follow. *)
Theorem token_without_expiry_is_not_reused config env (later : list Env) (w : World)
    result token :
  tokenExpirationTime (fields w) <= clock env ->
  authority env (token_scopes config) = Ok (Some result) ->
  res_accessToken result = Some token ->
  token <> [] ->
  res_expiresOn result = None ->
  Forall (fun env' => clock env <= clock env'
                      /\ reports_no_expiry (authority env' (token_scopes config)))
         later ->
  accessToken (fields (snd (run env (getAccessToken config) w))) = Some token
  /\ network (getAccessToken_calls config later
                (snd (run env (getAccessToken config) w)))
     = network (snd (run env (getAccessToken config) w))
       ++ repeat (TokenExchange (token_scopes config)) (List.length later)
  /\ network (getAccessToken_calls config (env :: later) w)
     = network w
       ++ repeat (TokenExchange (token_scopes config)) (S (List.length later)).
Proof.
  intros Hexp Ha Ht Hne He Hlater.
  assert (Hn : string_truthy (Some token) = true)
    by (destruct token; [congruence | reflexivity]).
  assert (Hf : token_is_fresh (fields w) (clock env) = false).
  { unfold token_is_fresh. apply andb_false_iff. right.
    rewrite Z.gtb_ltb. apply Z.ltb_ge. exact Hexp. }
  cbn [getAccessToken_calls].
  rewrite (run_getAccessToken_stale config env w Hf).
  rewrite (run_refresh_ok config env w result token Ha Ht Hn).
  rewrite He. unfold refreshed. cbn [snd].
  set (w1 := with_accessToken _ _).
  split; [reflexivity|].
  destruct (getAccessToken_calls_exchange config later w1) as [Hnet _].
  { apply Forall_forall. intros env' Hin.
    rewrite Forall_forall in Hlater. destruct (Hlater env' Hin) as [Hle Hno].
    split; [|exact Hno]. subst w1. simpl. lia. }
  split; [exact Hnet|].
  rewrite Hnet. subst w1. cbn [repeat network with_accessToken with_call].
  rewrite <- app_assoc. reflexivity.
Qed.

Lemma token_without_expiry_is_not_reused_witness :
  tokenExpirationTime (fields (new_world initial_fields)) <= clock env_no_expiry
  /\ network (getAccessToken_calls sample_config
                [env_no_expiry; env_unreachable; env_no_expiry; env_no_expiry]
                (new_world initial_fields))
     = [TokenExchange (token_scopes sample_config);
        TokenExchange (token_scopes sample_config);
        TokenExchange (token_scopes sample_config);
        TokenExchange (token_scopes sample_config)].
Proof.
  split; [simpl; lia|].
  apply (proj2 (proj2 (token_without_expiry_is_not_reused sample_config env_no_expiry
                  [env_unreachable; env_no_expiry; env_no_expiry]
                  (new_world initial_fields)
                  {| res_accessToken := Some (js "new"); res_expiresOn := None |}
                  (js "new") ltac:(simpl; lia) eq_refl eq_refl
                  ltac:(discriminate) eq_refl
                  ltac:(repeat (constructor;
                                [split; [simpl; lia
                                        | intros r Hr _; inversion Hr; reflexivity]|]);
                        constructor)))).
Defined.

(** [makeRequest] with a fresh token: the request and nothing else. *)
Lemma run_makeRequest_fresh config env (endpoint : jsstring) (w : World) :
  token_is_fresh (fields w) (clock env) = true ->
  exists token,
    accessToken (fields w) = Some token
    /\ run env (makeRequest config endpoint) w
       = match remote env (api_request config endpoint token) with
         | Ok response =>
             (Ok (resp_data response),
              with_call (HttpCall (api_request config endpoint token)) w)
         | Err cause =>
             (Err (Error (js "PowerPlatform API request failed: "
                          ++ error_toString cause)),
              with_console (js "PowerPlatform API request failed:") cause
                (with_call (HttpCall (api_request config endpoint token)) w))
         end.
Proof.
  intros Hf. rewrite run_makeRequest.
  destruct (run_getAccessToken_fresh config env w Hf) as (token & Ht & ->).
  exists token. split; [exact Ht|]. cbv zeta. reflexivity.
Qed.

(** The fields after [makeRequest] are those after [getAccessToken]. *)
Lemma makeRequest_fields config env (endpoint : jsstring) (w : World) :
  fields (snd (run env (makeRequest config endpoint) w))
  = fields (snd (run env (getAccessToken config) w)).
Proof.
  rewrite run_makeRequest.
  destruct (run env (getAccessToken config) w) as [[token|e] w1]; simpl; auto.
  destruct (remote env (api_request config endpoint token)); reflexivity.
Qed.

(** X6.  The outcome of the HTTP request never touches the cache: after
    [makeRequest] the two fields are what [getAccessToken] left, whether the
    request succeeded or failed; with a fresh token they are what they were
    and no exchange is issued, so a rejected request (a 401, say) does not
    make the next call refresh. *)
Theorem request_outcome_keeps_cache config env (endpoint : jsstring) (w : World) :
  fields (snd (run env (makeRequest config endpoint) w))
  = fields (snd (run env (getAccessToken config) w))
  /\ (token_is_fresh (fields w) (clock env) = true ->
      fields (snd (run env (makeRequest config endpoint) w)) = fields w
      /\ exchanges (network (snd (run env (makeRequest config endpoint) w)))
         = exchanges (network w)).
Proof.
  split; [apply makeRequest_fields|].
  intros Hf. rewrite makeRequest_fields. rewrite run_makeRequest.
  destruct (run_getAccessToken_fresh config env w Hf) as (token & Ht & ->).
  split; [reflexivity|].
  destruct (remote env (api_request config endpoint token)); simpl;
    unfold exchanges; rewrite flat_map_app; simpl; now rewrite app_nil_r.
Qed.

Lemma request_outcome_keeps_cache_witness :
  token_is_fresh (fields world_fresh) (clock env_not_found) = true
  /\ fst (run env_not_found (makeRequest sample_config (js "api/data/v9.2/accounts"))
            world_fresh)
     = Err (Error (js "PowerPlatform API request failed: AxiosError: Request failed with status code 404"))
  /\ fields (snd (run env_not_found (makeRequest sample_config (js "api/data/v9.2/accounts"))
                    world_fresh))
     = fields world_fresh.
Proof.
  split; [reflexivity|]. split; [reflexivity|].
  apply (proj2 (request_outcome_keeps_cache sample_config env_not_found
                  (js "api/data/v9.2/accounts") world_fresh)).
  reflexivity.
Defined.

(** X7.  The cause of a failed exchange, which the thrown error does not
    carry, is written to [console.error]: the rejection itself, or
    [Failed to acquire access token] when the authority resolved without a
    usable token.  A successful exchange writes nothing.  [makeRequest] adds
    a second line, for the authentication error it wraps. *)
Theorem exchange_failure_is_logged config env (w : World) :
  token_is_fresh (fields w) (clock env) = false ->
  (forall e,
     authority env (token_scopes config) = Err e ->
     console (snd (run env (getAccessToken config) w))
     = console w ++ [(js "Error acquiring access token:", e)])
  /\
  (authority env (token_scopes config) = Ok None
   \/ (exists result,
         authority env (token_scopes config) = Ok (Some result)
         /\ string_truthy (res_accessToken result) = false) ->
   console (snd (run env (getAccessToken config) w))
   = console w ++ [(js "Error acquiring access token:",
                    Error (js "Failed to acquire access token"))])
  /\
  (forall token,
     usable_token (authority env (token_scopes config)) = Some token ->
     console (snd (run env (getAccessToken config) w)) = console w)
  /\
  (forall endpoint,
     usable_token (authority env (token_scopes config)) = None ->
     exists cause,
       console (snd (run env (makeRequest config endpoint) w))
       = console w ++ [(js "Error acquiring access token:", cause);
                       (js "PowerPlatform API request failed:",
                        Error (js "Authentication failed"))]).
Proof.
  intros Hf.
  assert (E : run env (getAccessToken config) w
              = run env (refresh_access_token config) w)
    by (apply run_getAccessToken_stale; exact Hf).
  split; [|split; [|split]].
  - intros e He. rewrite E.
    unfold refresh_access_token. rewrite run_try_catch.
    unfold acquire_new_token, acquireTokenByClientCredential. simpl.
    rewrite He. reflexivity.
  - intros Hno. rewrite E.
    unfold refresh_access_token. rewrite run_try_catch.
    unfold acquire_new_token, acquireTokenByClientCredential. simpl.
    destruct Hno as [-> | (result & -> & Hn)]; simpl; [reflexivity|].
    rewrite Hn. reflexivity.
  - intros token Hu. rewrite E.
    destruct (usable_token_Some _ _ Hu) as (result & Ha & Ht & Hn).
    rewrite (run_refresh_ok config env w result token Ha Ht Hn).
    unfold refreshed. destruct (res_expiresOn result); reflexivity.
  - intros endpoint Hu. rewrite run_makeRequest, E.
    destruct (run_refresh_fail config env w Hu) as (cause & ->).
    exists cause. simpl. rewrite <- app_assoc. reflexivity.
Qed.

Lemma exchange_failure_is_logged_witness :
  token_is_fresh (fields world_expired) (clock env_unreachable) = false
  /\ console (snd (run env_unreachable (getAccessToken sample_config) world_expired))
     = [(js "Error acquiring access token:",
         Error (js "getaddrinfo ENOTFOUND login.microsoftonline.com"))].
Proof.
  split; [reflexivity|].
  apply (proj1 (exchange_failure_is_logged sample_config env_unreachable world_expired
                  eq_refl)).
  reflexivity.
Defined.

(** X8.  No operation ever stores an empty token: if the stored token is
    absent or not empty before an operation, so it is after, whatever the
    authority and the remote API answer. *)
Theorem operations_keep_cache_ok config env (op : Operation) (w : World) :
  cache_ok (fields w) ->
  cache_ok (fields (snd (run env (call config op) w))).
Proof.
  intros Hok. rewrite call_endpoint.
  destruct (endpoint_of op) as [endpoint|e]; [|exact Hok].
  rewrite makeRequest_fields. apply getAccessToken_keeps_cache_ok. exact Hok.
Qed.

Lemma operations_keep_cache_ok_witness :
  cache_ok (fields (new_world initial_fields))
  /\ cache_ok (fields (snd (run env_granting
                              (call sample_config (GetEntityAttributes (js "account")))
                              (new_world initial_fields)))).
Proof.
  split; [exact cache_ok_initial|].
  apply operations_keep_cache_ok. exact cache_ok_initial.
Defined.

(** ** Concurrent calls and the cache *)

Opaque js.

(** X9.  There is no single flight: when the answer to the exchange of one
    of the two concurrent calls arrives with a usable token, that token
    replaces whatever the cache held, the other call's token included, and
    the call goes on to its own request with it. *)
Theorem concurrent_exchange_last_write_wins config (entityName : jsstring) now1 now2
    (schedule : list Completion) (w : World) (c : Completion) a token :
  answer c = TokenAnswer a ->
  usable_token a = Some token ->
  awaited (element (who c) (relationship_calls config entityName now1 now2 schedule w))
  = Some (TokenExchange (token_scopes config)) ->
  accessToken
    (fields (world (relationship_calls config entityName now1 now2 (schedule ++ [c]) w)))
  = Some token
  /\ awaited (element (who c)
                (relationship_calls config entityName now1 now2 (schedule ++ [c]) w))
     = Some (HttpCall (api_request config (relationship_path (who c) entityName) token)).
Proof.
  intros Hans Hu Haw.
  pose proof (relationship_calls_ok config entityName now1 now2 schedule w) as (H1 & H2 & _).
  assert (Estep : relationship_calls config entityName now1 now2 (schedule ++ [c]) w
                  = pool_step (relationship_calls config entityName now1 now2 schedule w) c).
  { unfold relationship_calls, promise_all. rewrite fold_left_app. reflexivity. }
  rewrite Estep. clear Estep.
  set (p := relationship_calls config entityName now1 now2 schedule w) in *.
  unfold pool_step.
  destruct (who c) eqn:Hw; simpl in Haw.
  - destruct (first p) as [r|sc k|rq k] eqn:Es; try discriminate.
    simpl in H1. destruct H1 as (k' & E & Hk). inversion E; subst k'.
    unfold deliver. rewrite Hans.
    specialize (Hk a (when c) (world p)). rewrite Hu in Hk.
    destruct Hk as (st' & w' & -> & Ha & Hc & _). simpl. auto.
  - destruct (second p) as [r|sc k|rq k] eqn:Es; try discriminate.
    simpl in H2. destruct H2 as (k' & E & Hk). inversion E; subst k'.
    unfold deliver. rewrite Hans.
    specialize (Hk a (when c) (world p)). rewrite Hu in Hk.
    destruct Hk as (st' & w' & -> & Ha & Hc & _). simpl. auto.
Qed.

Transparent js.

Lemma concurrent_exchange_last_write_wins_witness :
  awaited (element Second
             (relationship_calls sample_config (js "account") 2000 2000
                [token_done First
                   (Ok (Some {| res_accessToken := Some (js "one");
                                res_expiresOn := Some 4000000 |}))]
                world_expired))
  = Some (TokenExchange (token_scopes sample_config))
  /\ accessToken
       (fields (world (relationship_calls sample_config (js "account") 2000 2000
                         ([token_done First
                             (Ok (Some {| res_accessToken := Some (js "one");
                                          res_expiresOn := Some 4000000 |}))]
                          ++ [token_done Second
                                (Ok (Some {| res_accessToken := Some (js "two");
                                             res_expiresOn := Some 5000000 |}))])
                         world_expired)))
     = Some (js "two").
Proof.
  split; [vm_compute; reflexivity|].
  apply (concurrent_exchange_last_write_wins sample_config (js "account") 2000 2000
           [token_done First
              (Ok (Some {| res_accessToken := Some (js "one");
                           res_expiresOn := Some 4000000 |}))]
           world_expired
           (token_done Second
              (Ok (Some {| res_accessToken := Some (js "two");
                           res_expiresOn := Some 5000000 |})))
           (Ok (Some {| res_accessToken := Some (js "two");
                        res_expiresOn := Some 5000000 |}))
           (js "two")).
  - reflexivity.
  - reflexivity.
  - vm_compute. reflexivity.
Defined.

(** ** The server: configuration *)

Lemma or_empty_falsy (v : option jsstring) :
  string_falsy (or_empty v) = negb (string_truthy v).
Proof. destruct v as [[|c s]|]; reflexivity. Qed.

(** X10.  The service is created on the first use if and only if each of the
    four variables is set and not empty.  Otherwise nothing is created and
    the error names exactly the missing settings, in the order
    organizationUrl, clientId, clientSecret, tenantId; an empty variable
    counts as a missing one. *)
Theorem configuration_is_checked (penv : ProcessEnv) (s : Server) :
  powerPlatformService s = None ->
  (string_truthy (POWERPLATFORM_URL penv) = true
   /\ string_truthy (POWERPLATFORM_CLIENT_ID penv) = true
   /\ string_truthy (POWERPLATFORM_CLIENT_SECRET penv) = true
   /\ string_truthy (POWERPLATFORM_TENANT_ID penv) = true ->
   getPowerPlatformService (POWERPLATFORM_CONFIG penv) s
   = (Ok initial_fields,
      {| powerPlatformService := Some initial_fields;
         stderr := stderr s ++ [LogMessage (js "PowerPlatform service initialized")];
         wire := wire s |}))
  /\
  (~ (string_truthy (POWERPLATFORM_URL penv) = true
      /\ string_truthy (POWERPLATFORM_CLIENT_ID penv) = true
      /\ string_truthy (POWERPLATFORM_CLIENT_SECRET penv) = true
      /\ string_truthy (POWERPLATFORM_TENANT_ID penv) = true) ->
   getPowerPlatformService (POWERPLATFORM_CONFIG penv) s
   = (Err (Error (js "Missing PowerPlatform configuration: "
                  ++ join (js ", ")
                       ((if string_truthy (POWERPLATFORM_URL penv) then []
                         else [js "organizationUrl"])
                        ++ (if string_truthy (POWERPLATFORM_CLIENT_ID penv) then []
                            else [js "clientId"])
                        ++ (if string_truthy (POWERPLATFORM_CLIENT_SECRET penv) then []
                            else [js "clientSecret"])
                        ++ (if string_truthy (POWERPLATFORM_TENANT_ID penv) then []
                            else [js "tenantId"]))
                  ++ js ". Set these in environment variables.")), s)).
Proof.
  intros Hnone. unfold getPowerPlatformService, missingConfig, POWERPLATFORM_CONFIG.
  rewrite Hnone. cbn [organizationUrl clientId clientSecret tenantId].
  rewrite !or_empty_falsy.
  destruct (string_truthy (POWERPLATFORM_URL penv));
    destruct (string_truthy (POWERPLATFORM_CLIENT_ID penv));
    destruct (string_truthy (POWERPLATFORM_CLIENT_SECRET penv));
    destruct (string_truthy (POWERPLATFORM_TENANT_ID penv));
    (split;
     [ intros (H1 & H2 & H3 & H4);
       first [discriminate H1 | discriminate H2 | discriminate H3 | discriminate H4
             | reflexivity]
     | intros Hn; first [reflexivity | exfalso; apply Hn; auto] ]).
Qed.

Lemma configuration_is_checked_witness :
  powerPlatformService server_start = None
  /\ getPowerPlatformService
       (POWERPLATFORM_CONFIG
          {| POWERPLATFORM_URL := Some (js "https://org.crm.dynamics.com");
             POWERPLATFORM_CLIENT_ID := None;
             POWERPLATFORM_CLIENT_SECRET := Some (js "secret");
             POWERPLATFORM_TENANT_ID := Some [] |})
       server_start
     = (Err (Error (js "Missing PowerPlatform configuration: clientId, tenantId. Set these in environment variables.")),
        server_start).
Proof.
  split; [reflexivity|].
  rewrite (proj2 (configuration_is_checked
                    {| POWERPLATFORM_URL := Some (js "https://org.crm.dynamics.com");
                       POWERPLATFORM_CLIENT_ID := None;
                       POWERPLATFORM_CLIENT_SECRET := Some (js "secret");
                       POWERPLATFORM_TENANT_ID := Some [] |}
                    server_start eq_refl)).
  - reflexivity.
  - intros (_ & H & _). discriminate.
Defined.

(** ** The tool handlers *)

Section ToolFacts.

Variable config : PowerPlatformConfig.
Variable JSON_stringify : Json -> jsstring.
Variable null_property_message : jsstring.

(** Every handler is the same [try]/[catch] around its operation. *)
Lemma handle_shape (tc : ToolCall) :
  exists label text_of,
    handle config JSON_stringify null_property_message tc
    = tool_handler config label (failure_prefix tc)
        (call config (operation_of tc)) text_of.
Proof. destruct tc; eexists _, _; reflexivity. Qed.

Lemma getPowerPlatformService_wire (s : Server) r s1 :
  getPowerPlatformService config s = (r, s1) ->
  wire s1 = wire s.
Proof.
  unfold getPowerPlatformService.
  destruct (powerPlatformService s); [intros E; inversion E; reflexivity|].
  destruct (missingConfig config); intros E; inversion E; reflexivity.
Qed.

(** A handler whose service is there, in terms of the run of its operation. *)
Lemma tool_handler_run label failed (operation : Task Json) text_of env (s : Server)
    this s1 :
  getPowerPlatformService config s = (Ok this, s1) ->
  tool_handler config label failed operation text_of env s
  = let s2 :=
      {| powerPlatformService :=
           Some (fields (snd (run env operation (new_world this))));
         stderr := stderr s1
                   ++ map (fun line => LogError (fst line) (snd line))
                        (console (snd (run env operation (new_world this))));
         wire := wire s1 ++ network (snd (run env operation (new_world this))) |} in
    match (match fst (run env operation (new_world this)) with
           | Ok data => text_of data
           | Err e => Err e
           end) with
    | Ok text => (text_result text, s2)
    | Err error =>
        (text_result (failed ++ error_toString error), with_log (LogError label error) s2)
    end.
Proof.
  intros Hs. unfold tool_handler, tool_try, on_service. rewrite Hs.
  destruct (run env operation (new_world this)) as [[data|e] w]; simpl; [|reflexivity].
  destruct (text_of data); reflexivity.
Qed.

(** X11.  With an incomplete configuration no tool contacts the network or
    creates the service: every call answers with its failure text, which
    names the missing settings, and the next call will find the service
    still absent. *)
Theorem incomplete_configuration_stops_every_tool (tc : ToolCall) env (s : Server) :
  powerPlatformService s = None ->
  missingConfig config <> [] ->
  fst (handle config JSON_stringify null_property_message tc env s)
  = text_result (failure_prefix tc
                 ++ js "Error: Missing PowerPlatform configuration: "
                 ++ join (js ", ") (missingConfig config)
                 ++ js ". Set these in environment variables.")
  /\ wire (snd (handle config JSON_stringify null_property_message tc env s)) = wire s
  /\ powerPlatformService (snd (handle config JSON_stringify null_property_message tc env s)) = None.
Proof.
  intros Hnone Hmiss.
  destruct (handle_shape tc) as (label & text_of & ->).
  unfold tool_handler, tool_try, getPowerPlatformService. rewrite Hnone.
  destruct (missingConfig config) as [|m ms]; [congruence|].
  simpl. auto.
Qed.

Lemma missing_configuration_error_text :
  error_toString (missing_configuration_error [js "clientId"])
  = js "Error: Missing PowerPlatform configuration: clientId. Set these in environment variables.".
Proof. reflexivity. Qed.

(** A tool call on a service whose token is fresh: the request with that
    token is all it issues, and the service is left as it was. *)
Lemma handle_fresh (tc : ToolCall) env (s : Server) this :
  powerPlatformService s = Some this ->
  token_is_fresh this (clock env) = true ->
  exists token,
    accessToken this = Some token
    /\ powerPlatformService
         (snd (handle config JSON_stringify null_property_message tc env s))
       = Some this
    /\ wire (snd (handle config JSON_stringify null_property_message tc env s))
       = wire s
         ++ match endpoint_of (operation_of tc) with
            | Ok endpoint => [HttpCall (api_request config endpoint token)]
            | Err _ => []
            end.
Proof.
  intros Hs Hf.
  destruct (handle_shape tc) as (label & text_of & ->).
  assert (Hg : getPowerPlatformService config s = (Ok this, s))
    by (unfold getPowerPlatformService; now rewrite Hs).
  rewrite (tool_handler_run label (failure_prefix tc) _ text_of env s this s Hg).
  destruct (run_makeRequest_fresh config env [] (new_world this) Hf) as (token & Ht & _).
  exists token. split; [exact Ht|].
  assert (Hrun : fields (snd (run env (call config (operation_of tc)) (new_world this)))
                 = this
                 /\ network (snd (run env (call config (operation_of tc))
                                    (new_world this)))
                    = match endpoint_of (operation_of tc) with
                      | Ok endpoint => [HttpCall (api_request config endpoint token)]
                      | Err _ => []
                      end).
  { rewrite call_endpoint.
    destruct (endpoint_of (operation_of tc)) as [endpoint|e]; [|split; reflexivity].
    destruct (run_makeRequest_fresh config env endpoint (new_world this) Hf)
      as (token' & Ht' & ->).
    assert (token' = token) by congruence. subst token'.
    destruct (remote env (api_request config endpoint token)); split; reflexivity. }
  destruct Hrun as [Hfields Hnet]. cbv zeta.
  destruct (match fst (run env (call config (operation_of tc)) (new_world this)) with
            | Ok data => text_of data
            | Err e => Err e
            end); simpl; rewrite Hfields, Hnet; auto.
Qed.

(** X12.  The tools share one service and so one cache: when the service
    holds a fresh token, whichever tool is called sends its one request with
    that token (and none when its path cannot be built), exchanges nothing
    and leaves the cache as it is, whether its request succeeds or not; a
    second tool, called while the token is still fresh, sends its request
    with the same token. *)
Theorem tools_share_the_cache (tc : ToolCall) env (s : Server) this :
  powerPlatformService s = Some this ->
  token_is_fresh this (clock env) = true ->
  powerPlatformService (snd (handle config JSON_stringify null_property_message tc env s)) = Some this
  /\ exchanges (wire (snd (handle config JSON_stringify null_property_message tc env s))) = exchanges (wire s)
  /\ exists token,
       accessToken this = Some token
       /\ (forall endpoint,
             endpoint_of (operation_of tc) = Ok endpoint ->
             wire (snd (handle config JSON_stringify null_property_message tc env s))
             = wire s ++ [HttpCall (api_request config endpoint token)])
       /\ (forall e,
             endpoint_of (operation_of tc) = Err e ->
             wire (snd (handle config JSON_stringify null_property_message tc env s))
             = wire s)
       /\ (forall tc' env' endpoint endpoint',
             token_is_fresh this (clock env') = true ->
             endpoint_of (operation_of tc) = Ok endpoint ->
             endpoint_of (operation_of tc') = Ok endpoint' ->
             wire (snd (handle config JSON_stringify null_property_message tc' env'
                          (snd (handle config JSON_stringify null_property_message
                                  tc env s))))
             = wire s ++ [HttpCall (api_request config endpoint token);
                          HttpCall (api_request config endpoint' token)]).
Proof.
  intros Hs Hf.
  destruct (handle_fresh tc env s this Hs Hf) as (token & Ht & Hservice & Hwire).
  split; [exact Hservice|].
  split.
  { rewrite Hwire. unfold exchanges. rewrite flat_map_app.
    destruct (endpoint_of (operation_of tc)); simpl; apply app_nil_r. }
  exists token. split; [exact Ht|].
  split; [|split].
  - intros endpoint He. rewrite Hwire, He. reflexivity.
  - intros e He. rewrite Hwire, He. apply app_nil_r.
  - intros tc' env' endpoint endpoint' Hf' He He'.
    destruct (handle_fresh tc' env'
                (snd (handle config JSON_stringify null_property_message tc env s))
                this Hservice Hf') as (token' & Ht' & _ & Hwire').
    assert (token' = token) by congruence. subst token'.
    rewrite Hwire', Hwire, He, He', <- app_assoc. reflexivity.
Qed.


(** X14.  What a tool answers when its operation fails.  A failed exchange
    gives the tool's failure text followed by the request error wrapping the
    authentication error, the cause of the failure not being in the text; a
    failed request gives the failure text followed by the request error
    wrapping the cause axios reported. *)
Theorem tool_failure_texts (tc : ToolCall) env (s : Server) this s1 endpoint :
  getPowerPlatformService config s = (Ok this, s1) ->
  endpoint_of (operation_of tc) = Ok endpoint ->
  (token_is_fresh this (clock env) = false ->
   exchange_fails (authority env (token_scopes config)) ->
   fst (handle config JSON_stringify null_property_message tc env s)
   = text_result (failure_prefix tc
                  ++ js "Error: PowerPlatform API request failed: Error: Authentication failed"))
  /\
  (forall token cause,
     fst (run env (getAccessToken config) (new_world this)) = Ok token ->
     remote env (api_request config endpoint token) = Err cause ->
     fst (handle config JSON_stringify null_property_message tc env s)
     = text_result (failure_prefix tc
                    ++ js "Error: PowerPlatform API request failed: "
                    ++ error_toString cause)).
Proof.
  intros Hg Hep.
  destruct (handle_shape tc) as (label & text_of & ->).
  rewrite (tool_handler_run label (failure_prefix tc) _ text_of env s this s1 Hg).
  rewrite call_endpoint, Hep, run_makeRequest. split.
  - intros Hf Hx. apply usable_token_None_iff in Hx.
    rewrite (run_getAccessToken_stale config env (new_world this) Hf).
    destruct (run_refresh_fail config env (new_world this) Hx) as (cause & ->).
    reflexivity.
  - intros token cause Ht Hr.
    destruct (run env (getAccessToken config) (new_world this)) as [[token'|e] w].
    + simpl in Ht. inversion Ht; subst token'. rewrite Hr. reflexivity.
    + discriminate.
Qed.

(** X15.  What [query-records] counts: the elements of the array [value] of
    the body, and 0 when the body is an object without [value]; the filter
    stands in the text as it was given. *)
Theorem query_records_counts_value (entityNamePlural filter : jsstring)
    (maxRecords : option jsnumber) env (s : Server) this s1 endpoint token response
    members :
  getPowerPlatformService config s = (Ok this, s1) ->
  queryRecords_endpoint entityNamePlural filter (Some (maxRecords_or_50 maxRecords))
  = Ok endpoint ->
  fst (run env (getAccessToken config) (new_world this)) = Ok token ->
  remote env (api_request config endpoint token) = Ok response ->
  resp_data response = JObject members ->
  (forall items,
     own_property (js "value") members = Some (JArray items) ->
     fst (query_records config JSON_stringify null_property_message
            entityNamePlural filter maxRecords env s)
     = text_result (js "Retrieved " ++ number_toString (Int (Z.of_nat (List.length items)))
                    ++ js " records from '" ++ entityNamePlural
                    ++ js "' with filter '" ++ filter ++ js "':" ++ blank_line
                    ++ JSON_stringify (JObject members)))
  /\
  (own_property (js "value") members = None ->
   fst (query_records config JSON_stringify null_property_message
          entityNamePlural filter maxRecords env s)
   = text_result (js "Retrieved 0 records from '" ++ entityNamePlural
                  ++ js "' with filter '" ++ filter ++ js "':" ++ blank_line
                  ++ JSON_stringify (JObject members))).
Proof.
  intros Hg Hep Ht Hr Hd.
  unfold query_records.
  rewrite (tool_handler_run _ _ _ _ env s this s1 Hg).
  unfold query_records_tool, queryRecords. rewrite Hep, run_makeRequest.
  destruct (run env (getAccessToken config) (new_world this)) as [[token'|e] w];
    [|discriminate].
  simpl in Ht. inversion Ht; subst token'. rewrite Hr, Hd.
  cbv zeta. cbn [fst snd]. unfold recordCount, records_value.
  split.
  - intros items Hv. rewrite Hv. cbn [optional_length or_zero json_truthy].
    destruct items as [|item items]; reflexivity.
  - intros Hv. rewrite Hv. reflexivity.
Qed.

(** X16.  A body that is [null] makes [query-records] answer with a failure,
    the [TypeError] of reading [value] of [null], although the request was
    sent and answered. *)
Theorem query_records_null_body (entityNamePlural filter : jsstring)
    (maxRecords : option jsnumber) env (s : Server) this s1 endpoint token :
  getPowerPlatformService config s = (Ok this, s1) ->
  queryRecords_endpoint entityNamePlural filter (Some (maxRecords_or_50 maxRecords))
  = Ok endpoint ->
  fst (run env (getAccessToken config) (new_world this)) = Ok token ->
  remote env (api_request config endpoint token) = Ok {| resp_data := JNull |} ->
  fst (query_records config JSON_stringify null_property_message
         entityNamePlural filter maxRecords env s)
  = text_result (js "Failed to query records: "
                 ++ error_toString (TypeError null_property_message))
  /\ In (HttpCall (api_request config endpoint token))
       (wire (snd (query_records config JSON_stringify null_property_message
                     entityNamePlural filter maxRecords env s))).
Proof.
  intros Hg Hep Ht Hr.
  unfold query_records.
  rewrite (tool_handler_run _ _ _ _ env s this s1 Hg).
  unfold query_records_tool, queryRecords. rewrite Hep, run_makeRequest.
  destruct (run env (getAccessToken config) (new_world this)) as [[token'|e] w];
    [|discriminate].
  simpl in Ht. inversion Ht; subst token'. rewrite Hr.
  cbv zeta. cbn [fst snd resp_data recordCount records_value].
  split; [reflexivity|].
  cbn [wire with_log network with_call].
  apply in_or_app. right. apply in_or_app. right. left. reflexivity.
Qed.

(** X17.  A filter with an unpaired surrogate is refused by [query-records]
    before anything is sent: the answer is the [URIError], and no exchange
    and no request is issued. *)
Theorem query_records_malformed_filter (entityNamePlural filter : jsstring)
    (maxRecords : option jsnumber) env (s : Server) this s1 :
  getPowerPlatformService config s = (Ok this, s1) ->
  well_formed filter = false ->
  fst (query_records config JSON_stringify null_property_message
         entityNamePlural filter maxRecords env s)
  = text_result (js "Failed to query records: URIError: URI malformed")
  /\ wire (snd (query_records config JSON_stringify null_property_message
                  entityNamePlural filter maxRecords env s))
     = wire s.
Proof.
  intros Hg Hw.
  pose proof (getPowerPlatformService_wire s _ _ Hg) as Hwire.
  unfold query_records.
  rewrite (tool_handler_run _ _ _ _ env s this s1 Hg).
  unfold query_records_tool, queryRecords, queryRecords_endpoint.
  rewrite (proj2 (encodeURIComponent_total filter) Hw).
  cbv zeta. cbn [run fst snd network wire with_log new_world].
  split; [reflexivity|]. rewrite app_nil_r. exact Hwire.
Qed.

(** X18.  [get-entity-relationships] answers with both lists or with
    neither.  Once both calls have resolved it answers with the text of the
    two bodies together; once a call has rejected it answers with its
    failure text and the error of a call that has rejected; it gives no
    other answer, so none holds one list only; and two completions for each
    call always bring an answer. *)
Theorem relationships_tool_answers_all_or_nothing (entityName : jsstring) now1 now2
    (schedule : list Completion) (s : Server) this s1 :
  getPowerPlatformService config s = (Ok this, s1) ->
  (forall o m,
     first (relationship_calls config entityName now1 now2 schedule (new_world this))
     = Settled (Ok o) ->
     second (relationship_calls config entityName now1 now2 schedule (new_world this))
     = Settled (Ok m) ->
     option_map fst
       (get_entity_relationships config JSON_stringify entityName now1 now2 schedule s)
     = Some (text_result
               (js "Relationships for entity '" ++ entityName ++ js "':" ++ blank_line
                ++ JSON_stringify (JObject [(js "oneToMany", o); (js "manyToMany", m)]))))
  /\
  ((exists e,
      first (relationship_calls config entityName now1 now2 schedule (new_world this))
      = Settled (Err e))
   \/ (exists e,
         second (relationship_calls config entityName now1 now2 schedule (new_world this))
         = Settled (Err e)) ->
   exists e,
     (first (relationship_calls config entityName now1 now2 schedule (new_world this))
      = Settled (Err e)
      \/ second (relationship_calls config entityName now1 now2 schedule (new_world this))
         = Settled (Err e))
     /\ option_map fst
          (get_entity_relationships config JSON_stringify entityName now1 now2 schedule s)
        = Some (text_result (js "Failed to get entity relationships: "
                             ++ error_toString e)))
  /\
  (forall reply s',
     get_entity_relationships config JSON_stringify entityName now1 now2 schedule s
     = Some (reply, s') ->
     (exists o m,
        first (relationship_calls config entityName now1 now2 schedule (new_world this))
        = Settled (Ok o)
        /\ second (relationship_calls config entityName now1 now2 schedule (new_world this))
           = Settled (Ok m)
        /\ reply
           = text_result
               (js "Relationships for entity '" ++ entityName ++ js "':" ++ blank_line
                ++ JSON_stringify (JObject [(js "oneToMany", o); (js "manyToMany", m)])))
     \/
     (exists e,
        (first (relationship_calls config entityName now1 now2 schedule (new_world this))
         = Settled (Err e)
         \/ second (relationship_calls config entityName now1 now2 schedule (new_world this))
            = Settled (Err e))
        /\ reply
           = text_result (js "Failed to get entity relationships: " ++ error_toString e)))
  /\
  (forall t1 t2 t3 t4 a1 a2 h1 h2,
     get_entity_relationships config JSON_stringify entityName now1 now2
       (schedule
        ++ [ {| who := First; when := t1; answer := TokenAnswer a1 |};
             {| who := First; when := t2; answer := HttpAnswer h1 |};
             {| who := Second; when := t3; answer := TokenAnswer a2 |};
             {| who := Second; when := t4; answer := HttpAnswer h2 |} ]) s
     <> None).
Proof.
  intros Hg.
  destruct (relationship_calls_ok config entityName now1 now2 schedule (new_world this))
    as (_ & _ & Hc).
  split; [|split; [|split]].
  - intros o m H1 H2. unfold get_entity_relationships. rewrite Hg. cbv zeta.
    unfold getEntityRelationships.
    destruct (combined (relationship_calls config entityName now1 now2 schedule
                          (new_world this)))
      as [[[o' m']|e]|]; simpl in Hc.
    + destruct Hc as [E1 E2].
      assert (o' = o) by congruence. assert (m' = m) by congruence. subst.
      reflexivity.
    + destruct Hc as [E|E]; congruence.
    + destruct Hc as (_ & _ & Hboth). exfalso. exact (Hboth o m H1 H2).
  - intros Hfail. unfold get_entity_relationships. rewrite Hg. cbv zeta.
    unfold getEntityRelationships.
    destruct (combined (relationship_calls config entityName now1 now2 schedule
                          (new_world this)))
      as [[[o m]|e]|]; simpl in Hc.
    + destruct Hc as [E1 E2]. destruct Hfail as [[e He]|[e He]]; congruence.
    + exists e. split; [exact Hc | reflexivity].
    + destruct Hc as (F1 & F2 & _).
      destruct Hfail as [[e He]|[e He]]; [elim (F1 e He) | elim (F2 e He)].
  - intros reply s'. unfold get_entity_relationships. rewrite Hg. cbv zeta.
    unfold getEntityRelationships.
    destruct (combined (relationship_calls config entityName now1 now2 schedule
                          (new_world this)))
      as [[[o m]|e]|]; simpl in Hc.
    + intros E. inversion E; subst. left. exists o, m.
      destruct Hc as [H1 H2]. auto.
    + intros E. inversion E; subst. right. exists e. auto.
    + discriminate.
  - intros t1 t2 t3 t4 a1 a2 h1 h2.
    pose proof (pool_settles config _ _ _ t1 t2 t3 t4 a1 a2 h1 h2
                  (relationship_calls_ok config entityName now1 now2 schedule
                     (new_world this))) as Hsettles.
    unfold get_entity_relationships. rewrite Hg. cbv zeta.
    unfold getEntityRelationships, relationship_calls, promise_all in *.
    rewrite fold_left_app.
    match goal with
    | H : combined ?p <> None |- context [combined ?q] =>
        change q with p; destruct (combined p) as [[[o m]|e]|];
        [discriminate | discriminate | exfalso; apply H; reflexivity]
    end.
Qed.

End ToolFacts.

(** [stringify_indented] writes an object as the parsed body holds it: one
    property for each key, with the value of its last member, the array
    indices first and in ascending order. *)
Lemma stringify_indented_own_properties :
  stringify_indented
    (JObject [(js "b", JNumber 1); (js "10", JNumber 2); (js "b", JNumber 3);
              (js "2", JNull)])
  = js "{" ++ [10%N]
    ++ js "  " ++ quote_json_string (js "2") ++ js ": null," ++ [10%N]
    ++ js "  " ++ quote_json_string (js "10") ++ js ": 2," ++ [10%N]
    ++ js "  " ++ quote_json_string (js "b") ++ js ": 3" ++ [10%N]
    ++ js "}".
Proof. vm_compute. reflexivity. Qed.

Lemma incomplete_configuration_stops_every_tool_witness :
  powerPlatformService server_start = None
  /\ missingConfig config_without_client <> []
  /\ fst (handle config_without_client stringify_indented v8_null_value_message
            (CallGetRecord (js "accounts") (js "1")) env_granting server_start)
     = text_result (js "Failed to get record: Error: Missing PowerPlatform configuration: clientId. Set these in environment variables.")
  /\ wire (snd (handle config_without_client stringify_indented v8_null_value_message
                  (CallGetRecord (js "accounts") (js "1")) env_granting server_start))
     = [].
Proof.
  assert (Hm : missingConfig config_without_client <> []) by (vm_compute; discriminate).
  split; [reflexivity|]. split; [exact Hm|].
  destruct (incomplete_configuration_stops_every_tool config_without_client
              stringify_indented v8_null_value_message
              (CallGetRecord (js "accounts") (js "1")) env_granting server_start
              eq_refl Hm) as (Htext & Hwire & _).
  split; [rewrite Htext; reflexivity | exact Hwire].
Defined.

Lemma tools_share_the_cache_witness :
  token_is_fresh (fields world_fresh) (clock env_not_found) = true
  /\ powerPlatformService
       (snd (handle sample_config stringify_indented v8_null_value_message
               (CallGetEntityAttributes (js "account")) env_not_found server_with_token))
     = Some (fields world_fresh)
  /\ exists token,
       accessToken (fields world_fresh) = Some token
       /\ wire (snd (handle sample_config stringify_indented v8_null_value_message
                       (CallGetRecord (js "accounts") (js "1")) env_granting
                       (snd (handle sample_config stringify_indented
                               v8_null_value_message
                               (CallGetEntityAttributes (js "account")) env_not_found
                               server_with_token))))
          = [HttpCall (api_request sample_config
                         (js "api/data/v9.2/EntityDefinitions(LogicalName='account')/Attributes")
                         token);
             HttpCall (api_request sample_config (js "api/data/v9.2/accounts(1)") token)].
Proof.
  split; [reflexivity|].
  destruct (tools_share_the_cache sample_config stringify_indented v8_null_value_message
              (CallGetEntityAttributes (js "account")) env_not_found server_with_token
              (fields world_fresh) eq_refl eq_refl)
    as (Hservice & _ & token & Ht & _ & _ & Htwo).
  split; [exact Hservice|].
  exists token. split; [exact Ht|].
  exact (Htwo (CallGetRecord (js "accounts") (js "1")) env_granting _ _
           eq_refl eq_refl eq_refl).
Defined.


Lemma tool_failure_texts_witness :
  exchange_fails (authority env_unreachable (token_scopes sample_config))
  /\ fst (handle sample_config stringify_indented v8_null_value_message
            (CallGetEntityMetadata (js "account")) env_unreachable server_start)
     = text_result (js "Failed to get entity metadata: Error: PowerPlatform API request failed: Error: Authentication failed").
Proof.
  assert (Hx : exchange_fails (authority env_unreachable (token_scopes sample_config)))
    by (left; eexists; reflexivity).
  split; [exact Hx|].
  apply (proj1 (tool_failure_texts sample_config stringify_indented v8_null_value_message
                  (CallGetEntityMetadata (js "account")) env_unreachable server_start
                  initial_fields _
                  (js "api/data/v9.2/EntityDefinitions(LogicalName='account')")
                  eq_refl eq_refl)); [reflexivity | exact Hx].
Defined.

Lemma query_records_counts_value_witness :
  fst (query_records sample_config stringify_indented v8_null_value_message
         (js "accounts") (js "statecode eq 0") None env_two_records server_with_token)
  = text_result
      (js "Retrieved 2 records from 'accounts' with filter 'statecode eq 0':"
       ++ blank_line
       ++ stringify_indented
            (JObject [(js "value",
                       JArray [JObject [(js "name", JString (js "Acme"))];
                               JObject [(js "name", JString (js "Initech"))]])])).
Proof.
  apply (proj1 (query_records_counts_value sample_config stringify_indented
                  v8_null_value_message (js "accounts") (js "statecode eq 0") None
                  env_two_records server_with_token (fields world_fresh)
                  server_with_token
                  (js "api/data/v9.2/accounts?$filter=statecode%20eq%200&$top=50")
                  (js "old")
                  {| resp_data :=
                       JObject [(js "value",
                                 JArray [JObject [(js "name", JString (js "Acme"))];
                                         JObject [(js "name", JString (js "Initech"))]])] |}
                  _ eq_refl eq_refl eq_refl eq_refl eq_refl)
           [JObject [(js "name", JString (js "Acme"))];
            JObject [(js "name", JString (js "Initech"))]]).
  reflexivity.
Defined.

Lemma query_records_null_body_witness :
  fst (query_records sample_config stringify_indented v8_null_value_message
         (js "accounts") (js "statecode eq 0") None env_null_body server_with_token)
  = text_result (js "Failed to query records: TypeError: Cannot read properties of null (reading 'value')").
Proof.
  apply (proj1 (query_records_null_body sample_config stringify_indented
                  v8_null_value_message (js "accounts") (js "statecode eq 0") None
                  env_null_body server_with_token (fields world_fresh) server_with_token
                  (js "api/data/v9.2/accounts?$filter=statecode%20eq%200&$top=50")
                  (js "old") eq_refl eq_refl eq_refl eq_refl)).
Defined.

Lemma query_records_malformed_filter_witness :
  well_formed [55357%N] = false
  /\ fst (query_records sample_config stringify_indented v8_null_value_message
            (js "accounts") [55357%N] None env_granting server_with_token)
     = text_result (js "Failed to query records: URIError: URI malformed")
  /\ wire (snd (query_records sample_config stringify_indented v8_null_value_message
                  (js "accounts") [55357%N] None env_granting server_with_token))
     = [].
Proof.
  split; [reflexivity|].
  apply (query_records_malformed_filter sample_config stringify_indented
           v8_null_value_message (js "accounts") [55357%N] None env_granting
           server_with_token (fields world_fresh) server_with_token eq_refl eq_refl).
Defined.

Lemma relationships_tool_answers_all_or_nothing_witness :
  option_map fst
    (get_entity_relationships sample_config stringify_indented (js "account") 2000 2000
       [http_done Second sample_response; http_done First sample_response]
       server_with_token)
  = Some (text_result
            (js "Relationships for entity '" ++ js "account" ++ js "':" ++ blank_line
             ++ stringify_indented
                  (JObject [(js "oneToMany", JObject [(js "name", JString (js "Acme"))]);
                            (js "manyToMany", JObject [(js "name", JString (js "Acme"))])])))
  /\ exists e,
       second (relationship_calls sample_config (js "account") 2000 2000
                 [http_done Second sample_response; http_done First sample_not_found]
                 (new_world (fields world_fresh)))
       = Settled (Ok (JObject [(js "name", JString (js "Acme"))]))
       /\ option_map fst
            (get_entity_relationships sample_config stringify_indented (js "account") 2000 2000
               [http_done Second sample_response; http_done First sample_not_found]
               server_with_token)
          = Some (text_result (js "Failed to get entity relationships: "
                               ++ error_toString e)).
Proof.
  assert (Hfirst :
            first (relationship_calls sample_config (js "account") 2000 2000
                     [http_done Second sample_response; http_done First sample_response]
                     (new_world (fields world_fresh)))
            = Settled (Ok (JObject [(js "name", JString (js "Acme"))])))
    by (vm_compute; reflexivity).
  assert (Hsecond :
            second (relationship_calls sample_config (js "account") 2000 2000
                      [http_done Second sample_response; http_done First sample_response]
                      (new_world (fields world_fresh)))
            = Settled (Ok (JObject [(js "name", JString (js "Acme"))])))
    by (vm_compute; reflexivity).
  assert (Hrejected :
            first (relationship_calls sample_config (js "account") 2000 2000
                     [http_done Second sample_response; http_done First sample_not_found]
                     (new_world (fields world_fresh)))
            = Settled (Err (Error (js "PowerPlatform API request failed: AxiosError: Request failed with status code 404"))))
    by (vm_compute; reflexivity).
  split.
  - exact (proj1 (relationships_tool_answers_all_or_nothing sample_config
                    stringify_indented (js "account") 2000 2000
                    [http_done Second sample_response; http_done First sample_response]
                    server_with_token (fields world_fresh) server_with_token eq_refl)
             _ _ Hfirst Hsecond).
  - destruct (proj1 (proj2 (relationships_tool_answers_all_or_nothing sample_config
                      stringify_indented (js "account") 2000 2000
                      [http_done Second sample_response; http_done First sample_not_found]
                      server_with_token (fields world_fresh) server_with_token eq_refl))
                (or_introl (ex_intro _ _ Hrejected)))
      as (e & _ & Hreply).
    exists e. split; [vm_compute; reflexivity | exact Hreply].
Defined.
